(** * EvenSmartThings: paginated list navigation and gesture core

    A shallow embedding of the list composer ([render/composer.ts]), the
    selectors ([state/selectors.ts]), the reducer ([state/reducer.ts]), the
    input mapper ([input/actions.ts]) and the tap handling of [app.ts],
    followed by the properties of the specification stated over them.

    Conventions of the embedding:
    - a JavaScript [number] that holds a count, an index or a millisecond
      timestamp is a [Z];
    - a JavaScript string is the list of its UTF-16 code units, so that
      [length] is the [.length] of the source (the arrows and the ellipsis of
      the labels are one code unit each);
    - [null] / [undefined] are [None];
    - a plain object used as a dictionary ([renames]) is a [gmap]; a [Map]
      whose iteration order is observed is an insertion-ordered association
      list;
    - [String.prototype.localeCompare] is an external collation and is a
      parameter of the development. *)

From Stdlib Require Import ZArith List Lia Permutation Sorted String Ascii.
From stdpp Require Import base list gmap.

Import ListNotations.
Local Open Scope Z_scope.

(** ** JavaScript strings *)

Module Js.

(** One UTF-16 code unit, and a string as the list of its code units. *)
Abbreviation code_unit := N (only parsing).
Abbreviation jsstring := (list N) (only parsing).

(** An ASCII literal of the source as a list of code units. *)
Definition js (s : string) : jsstring :=
  map N_of_ascii (list_ascii_of_string s).

Definition ELLIPSIS : jsstring := [8230%N].      (* U+2026 *)
Definition LEFT_ARROW : code_unit := 8592%N.     (* U+2190 *)
Definition RIGHT_ARROW : code_unit := 8594%N.    (* U+2192 *)

(** [s.length] *)
Definition jslength (s : jsstring) : Z := Z.of_nat (length s).

(** [x || y] on strings: the empty string is the only falsy string. *)
Definition or_else (x y : jsstring) : jsstring :=
  match x with [] => y | _ => x end.

(** White space and line terminators stripped by [String.prototype.trim]. *)
Definition is_white_space (c : code_unit) : bool :=
  ((9 <=? c) && (c <=? 13) || (c =? 32) || (c =? 160) || (c =? 5760)
   || (8192 <=? c) && (c <=? 8202) || (c =? 8232) || (c =? 8233)
   || (c =? 8239) || (c =? 8287) || (c =? 12288) || (c =? 65279))%N.

Fixpoint trim_start (s : jsstring) : jsstring :=
  match s with
  | c :: s' => if is_white_space c then trim_start s' else s
  | [] => []
  end.

Definition trim (s : jsstring) : jsstring :=
  rev (trim_start (rev (trim_start s))).

(** [Array.prototype.slice(start, end)] and [String.prototype.slice] with
    the relative indexing of the language: a negative bound counts from
    the end, both bounds are clamped to the length. *)
Definition rel_index (len i : Z) : Z :=
  if i <? 0 then Z.max (len + i) 0 else Z.min i len.

Definition slice {A} (l : list A) (start stop : Z) : list A :=
  let len := Z.of_nat (length l) in
  let k := rel_index len start in
  let final := rel_index len stop in
  firstn (Z.to_nat (final - k)) (skipn (Z.to_nat k) l).

(** [l[i]] : [undefined] outside the array. *)
Definition index {A} (l : list A) (i : Z) : option A :=
  if i <? 0 then None else nth_error l (Z.to_nat i).

(** [Array(n).fill(x)].  The composers pass the number of content slots
    less the length of a slice of that width, which is never negative
    (lemma [slice_width]), so the [RangeError] of a negative length does
    not arise. *)
Definition array_fill {A} (n : Z) (x : A) : list A := repeat x (Z.to_nat n).

(** [Array.prototype.sort(cmp)]: the sort of the language is stable and
    places [b] before [a] only when [cmp a b > 0]; a stable insertion
    sort computes the same array for every consistent comparator. *)
Fixpoint sort_insert {A} (cmp : A -> A -> Z) (x : A) (l : list A) : list A :=
  match l with
  | [] => [x]
  | y :: l' => if cmp x y <=? 0 then x :: l else y :: sort_insert cmp x l'
  end.

Definition array_sort {A} (cmp : A -> A -> Z) (l : list A) : list A :=
  fold_right (sort_insert cmp) [] l.

(** [Math.ceil(a / b)] for integers [a] and [b > 0]. *)
Definition ceil_div (a b : Z) : Z := - ((- a) / b).

(** [String(n)] for a non-negative integer below 1000 (the dim levels). *)
Definition digit (d : Z) : code_unit := Z.to_N (48 + d).

Definition string_of_level (n : Z) : jsstring :=
  if n <? 10 then [digit n]
  else if n <? 100 then [digit (n / 10); digit (n mod 10)]
  else [digit (n / 100); digit ((n / 10) mod 10); digit (n mod 10)].

End Js.
Import Js.

(** ** Shared constants ([state/constants.ts]) *)

Definition LIST_MAX_ITEMS : Z := 20.
Definition SCENES_PER_PAGE : Z := LIST_MAX_ITEMS - 2.
Definition DEVICES_PER_PAGE : Z := SCENES_PER_PAGE.
Definition ROOMS_PER_PAGE : Z := SCENES_PER_PAGE.
Definition DIM_LEVELS : list Z := [0; 10; 20; 30; 40; 50; 60; 70; 80; 90; 100].
Definition DIM_LEVELS_PER_PAGE : Z := SCENES_PER_PAGE.
Definition LIST_ITEM_NAME_MAX_LEN : Z := 64.

(** ** Batch outcome ([app.ts], [render/icon-data.ts]) *)

Inductive ConfirmationResult := Success | Partial | Failure.

Definition confirmationResultFromCounts (successCount total : Z)
  : ConfirmationResult :=
  if (total =? 0) || (successCount =? 0) then Failure
  else if successCount =? total then Success
  else Partial.

(** ** A [Map] with observable insertion order

    [new Map(entries)] keeps the position of the first occurrence of a key
    and the value of its last one; [delete] removes the entry; [values()]
    iterates in insertion order. *)

Module JsMap.

Section Ops.
Context {V : Type}.

Fixpoint set (k : jsstring) (v : V) (m : list (jsstring * V))
  : list (jsstring * V) :=
  match m with
  | [] => [(k, v)]
  | (k', v') :: m' =>
      if decide (k = k') then (k, v) :: m' else (k', v') :: set k v m'
  end.

Definition of_entries (l : list (jsstring * V)) : list (jsstring * V) :=
  fold_left (fun m kv => set (fst kv) (snd kv) m) l [].

Fixpoint get (k : jsstring) (m : list (jsstring * V)) : option V :=
  match m with
  | [] => None
  | (k', v) :: m' => if decide (k = k') then Some v else get k m'
  end.

Fixpoint delete (k : jsstring) (m : list (jsstring * V))
  : list (jsstring * V) :=
  match m with
  | [] => []
  | (k', v) :: m' =>
      if decide (k = k') then m' else (k', v) :: delete k m'
  end.

Definition values (m : list (jsstring * V)) : list V := map snd m.

Definition keys (m : list (jsstring * V)) : list jsstring := map fst m.
End Ops.

End JsMap.

(** ** Data model ([state/contracts.ts]) *)

Record SceneEntry := { sceneId : jsstring; sceneName : jsstring }.

Record DeviceEntry := {
  deviceId : jsstring;
  deviceName : jsstring;
  deviceType : option jsstring;
  deviceProtocol : option jsstring;
  supportsSwitch : option bool;
  supportsDimmer : option bool }.

Record RoomEntry := { roomId : jsstring; roomName : jsstring }.

Record GlobalStats := { total : Z; online : Z; offline : Z }.

Record DeviceStats := {
  onlineStatus : jsstring;
  switchStatus : jsstring;
  brightness : option Z }.

Inductive AppStatus := StatusLoading | StatusReady | StatusExecuting | StatusDone | StatusError.

Inductive LoadStatus := Idle | Loading | Ready | LoadError.

Inductive ListView :=
  | ViewMain | ViewScenes | ViewRooms | ViewDevices | ViewDeviceDetail
  | ViewDeviceDim | ViewRoomAllDetail | ViewRoomAllDim | ViewFavorites.

Inductive ListOrderPreference := Alphabetical | Reverse | Custom.

Inductive MainMenuItem := MenuScenes | MenuDevices | MenuFavorites.

Inductive FavoriteKind := FavScene | FavDevice.

Record ListOrder := {
  order_scenes : ListOrderPreference;
  order_rooms : ListOrderPreference;
  order_devices : ListOrderPreference;
  order_favorites : ListOrderPreference;
  order_main : ListOrderPreference }.

Record ListOrderCustomIds := {
  custom_scenes : list jsstring;
  custom_rooms : list jsstring;
  custom_devices : list jsstring;
  custom_favorites : list jsstring;
  custom_main : list MainMenuItem }.

(** The stats visibility flags and the schema version are read by none of
    the functions below and are left out. *)
Record Preferences := {
  listOrder : ListOrder;
  listOrderCustomIds : ListOrderCustomIds;
  favoritesIds : list (FavoriteKind * jsstring);
  renames : gmap jsstring jsstring }.

Record AppState := {
  listView : ListView;
  scenes : list SceneEntry;
  listPageIndex : Z;
  status : AppStatus;
  rooms : list RoomEntry;
  roomsStatus : LoadStatus;
  selectedRoomId : option jsstring;
  devices : list DeviceEntry;
  devicesStatus : LoadStatus;
  selectedDeviceId : option jsstring;
  globalStats : option GlobalStats;
  roomStats : option GlobalStats;
  deviceStats : option DeviceStats;
  focusedListIndex : Z;
  preferences : Preferences;
  allDevices : list DeviceEntry }.

Inductive Action :=
  | TAP (selectedIndex : Z) (gestureTaps : option Z)
  | LIST_PAGE (pageIndex : Z)
  | NAV_VIEW (view : ListView)
  | NAV_ROOM (roomId : jsstring)
  | NAV_DEVICE (deviceId : jsstring)
  | NAV_FAVORITE_DEVICE (deviceId : jsstring)
  | NAV_ROOM_ALL.

#[global] Instance ListView_eq_dec : EqDecision ListView.
Proof. solve_decision. Defined.

#[global] Instance MainMenuItem_eq_dec : EqDecision MainMenuItem.
Proof. solve_decision. Defined.

#[global] Instance AppStatus_eq_dec : EqDecision AppStatus.
Proof. solve_decision. Defined.

#[global] Instance LoadStatus_eq_dec : EqDecision LoadStatus.
Proof. solve_decision. Defined.

(** ** Selectors ([state/selectors.ts]) *)

(** [renames[id] ?? fallback], then trimmed with the fallback for a blank
    name, then cut to the width of a list item.  The [_type] argument of
    the source is not read and is left out. *)
Definition getDisplayName (state : AppState) (id fallback : jsstring)
  : jsstring :=
  let name := default fallback (renames (preferences state) !! id) in
  let n := or_else (trim (or_else name fallback)) fallback in
  if jslength n <=? LIST_ITEM_NAME_MAX_LEN then n
  else slice n 0 (LIST_ITEM_NAME_MAX_LEN - 1) ++ ELLIPSIS.

(** ** List labels ([render/composer.ts]) *)

Definition LABEL_PREVIOUS : jsstring := LEFT_ARROW :: js " Previous".
Definition LABEL_BACK : jsstring := LEFT_ARROW :: js " Back".
Definition LABEL_NEXT : jsstring := js "Next " ++ [RIGHT_ARROW].
Definition LABEL_ALL : jsstring := js "All".

(** The source gives [fallback] the default ['Scene']; callers pass it. *)
Definition truncateName (name fallback : jsstring) : jsstring :=
  let n := or_else name fallback in
  if jslength n <=? LIST_ITEM_NAME_MAX_LEN then n
  else slice n 0 (LIST_ITEM_NAME_MAX_LEN - 1) ++ ELLIPSIS.

Record FavoriteItem := {
  fav_type : FavoriteKind;
  fav_id : jsstring;
  displayName : jsstring;
  fav_device : option DeviceEntry;
  fav_scene : option SceneEntry }.

Definition MAIN_MENU_ITEMS : list MainMenuItem :=
  [MenuScenes; MenuDevices; MenuFavorites].

Definition MAIN_MENU_LABEL (item : MainMenuItem) : jsstring :=
  match item with
  | MenuScenes => js "Scenes"
  | MenuDevices => js "Devices"
  | MenuFavorites => js "Favorites"
  end.

Section Program.

(** [a.localeCompare(b, undefined, { sensitivity: 'base' })] *)
Variable localeCompare : jsstring -> jsstring -> Z.

Definition byName {T} (getName : T -> jsstring) (a b : T) : Z :=
  localeCompare (getName a) (getName b).

(** The loop of [applyOrder] over [customIds]: an id found in [byId] moves
    its entity to [ordered] and leaves the map. *)
Fixpoint customWalk {T} (customIds : list jsstring)
    (byId : list (jsstring * T)) (ordered : list T)
  : list T * list (jsstring * T) :=
  match customIds with
  | [] => (ordered, byId)
  | id :: ids =>
      match JsMap.get id byId with
      | Some item => customWalk ids (JsMap.delete id byId) (ordered ++ [item])
      | None => customWalk ids byId ordered
      end
  end.

Definition applyOrder {T} (items : list T) (getKey getName : T -> jsstring)
    (preference : ListOrderPreference) (customIds : list jsstring) : list T :=
  match preference with
  | Alphabetical => array_sort (byName getName) items
  | Reverse => rev (array_sort (byName getName) items)
  | Custom =>
      let byId := JsMap.of_entries (map (fun item => (getKey item, item)) items) in
      let '(ordered, byId') := customWalk customIds byId [] in
      let rest := array_sort (byName getName) (JsMap.values byId') in
      ordered ++ rest
  end.

Definition getOrderedScenes (state : AppState) : list SceneEntry :=
  applyOrder (scenes state) sceneId sceneName
    (order_scenes (listOrder (preferences state)))
    (custom_scenes (listOrderCustomIds (preferences state))).

Definition getOrderedRooms (state : AppState) : list RoomEntry :=
  applyOrder (rooms state) roomId roomName
    (order_rooms (listOrder (preferences state)))
    (custom_rooms (listOrderCustomIds (preferences state))).

Definition getOrderedDevices (state : AppState) : list DeviceEntry :=
  applyOrder (devices state) deviceId deviceName
    (order_devices (listOrder (preferences state)))
    (custom_devices (listOrderCustomIds (preferences state))).

Definition scenesById (state : AppState) : list (jsstring * SceneEntry) :=
  JsMap.of_entries (map (fun s => (sceneId s, s)) (scenes state)).

Definition devicesById (state : AppState) : list (jsstring * DeviceEntry) :=
  JsMap.of_entries
    (map (fun d => (deviceId d, d)) (allDevices state)
     ++ map (fun d => (deviceId d, d)) (devices state)).

(** The sort key of a favorite: rename, else the entity's name, else ''. *)
Definition favoriteSortName (state : AppState) (a : FavoriteKind * jsstring)
  : jsstring :=
  match renames (preferences state) !! (snd a) with
  | Some r => r
  | None =>
      match fst a with
      | FavScene => default [] (sceneName <$> JsMap.get (snd a) (scenesById state))
      | FavDevice => default [] (deviceName <$> JsMap.get (snd a) (devicesById state))
      end
  end.

Definition favoriteItem (state : AppState) (a : FavoriteKind * jsstring)
  : FavoriteItem :=
  match fst a with
  | FavScene =>
      let scene := JsMap.get (snd a) (scenesById state) in
      {| fav_type := FavScene; fav_id := snd a;
         displayName :=
           getDisplayName state (snd a) (default (js "Scene") (sceneName <$> scene));
         fav_device := None; fav_scene := scene |}
  | FavDevice =>
      let device := JsMap.get (snd a) (devicesById state) in
      {| fav_type := FavDevice; fav_id := snd a;
         displayName :=
           getDisplayName state (snd a) (default (js "Device") (deviceName <$> device));
         fav_device := device; fav_scene := None |}
  end.

Definition getOrderedFavorites (state : AppState) : list FavoriteItem :=
  let ids := favoritesIds (preferences state) in
  let items :=
    match order_favorites (listOrder (preferences state)) with
    | Alphabetical =>
        array_sort (fun a b => localeCompare (favoriteSortName state a)
                                             (favoriteSortName state b)) ids
    | Reverse =>
        array_sort (fun a b => localeCompare (favoriteSortName state b)
                                             (favoriteSortName state a)) ids
    | Custom => ids
    end in
  map (favoriteItem state) items.

(** Ordered main menu items; Favorites is left out when there is none. *)
Definition getMainMenuOrderedItems (state : AppState) : list MainMenuItem :=
  let hasFavorites := 0 <? Z.of_nat (length (favoritesIds (preferences state))) in
  let items :=
    match order_main (listOrder (preferences state)) with
    | Alphabetical =>
        array_sort (fun a b => localeCompare (MAIN_MENU_LABEL a) (MAIN_MENU_LABEL b))
                   MAIN_MENU_ITEMS
    | Reverse =>
        array_sort (fun a b => localeCompare (MAIN_MENU_LABEL b) (MAIN_MENU_LABEL a))
                   MAIN_MENU_ITEMS
    | Custom =>
        let main := custom_main (listOrderCustomIds (preferences state)) in
        if 0 <? Z.of_nat (length main) then main else MAIN_MENU_ITEMS
    end in
  if hasFavorites then items
  else List.filter (fun x => negb (bool_decide (x = MenuFavorites))) items.

Definition getMainMenuOrderedViews (state : AppState) : list ListView :=
  map (fun item =>
         match item with
         | MenuDevices => ViewRooms
         | MenuScenes => ViewScenes
         | MenuFavorites => ViewFavorites
         end)
      (getMainMenuOrderedItems state).

Definition getSceneByIndex (state : AppState) (i : Z) : option SceneEntry :=
  index (getOrderedScenes state) i.

Definition getRoomByIndex (state : AppState) (i : Z) : option RoomEntry :=
  index (getOrderedRooms state) i.

Definition getDeviceByIndex (state : AppState) (i : Z) : option DeviceEntry :=
  index (getOrderedDevices state) i.

Definition getFavoriteByIndex (state : AppState) (i : Z) : option FavoriteItem :=
  index (getOrderedFavorites state) i.

(** [if (!id) return null]: [null] and the empty string select nothing. *)
Definition getSelectedDevice (state : AppState) : option DeviceEntry :=
  match selectedDeviceId state with
  | None | Some [] => None
  | Some id => find (fun d => bool_decide (deviceId d = id)) (devices state)
  end.

Definition truthy (b : option bool) : bool := default false b.

Definition roomHasDimmable (state : AppState) : bool :=
  existsb (fun d => truthy (supportsDimmer d)) (devices state).

Definition roomHasSwitchable (state : AppState) : bool :=
  existsb (fun d => truthy (supportsSwitch d)) (devices state).

(** [-1] for the "All" slot, [-2] for Back / Previous / Next and for a
    slot without a device, else the index of the device. *)
Definition getDeviceIndexFromDevicesList (state : AppState)
    (page listIndex : Z) : Z :=
  let devices := getOrderedDevices state in
  let totalContentItems := 1 + Z.of_nat (length devices) in
  let needNext := DEVICES_PER_PAGE - 1 <? totalContentItems in
  let firstPageContentSlots :=
    if needNext then DEVICES_PER_PAGE - 1 else totalContentItems in
  let firstPageDeviceCount :=
    firstPageContentSlots - 1 - (if needNext then 1 else 0) in
  if page =? 0 then
    if listIndex =? 1 then -1
    else if listIndex <=? 0 then -2
    else
      let deviceIndex := listIndex - 2 in
      if (0 <=? deviceIndex) && (deviceIndex <? firstPageDeviceCount)
      then deviceIndex else -2
  else
    let startIndex := firstPageDeviceCount + (page - 1) * (DEVICES_PER_PAGE - 1) in
    let slotIndex := listIndex - 1 in
    let deviceIndex := startIndex + slotIndex in
    if (0 <=? deviceIndex) && (deviceIndex <? Z.of_nat (length devices))
    then deviceIndex else -2.

Definition isDimView (v : ListView) : bool :=
  match v with ViewDeviceDim | ViewRoomAllDim => true | _ => false end.

Definition getDimLevelByStateAndIndex (state : AppState) (listIndex : Z)
  : option Z :=
  if negb (isDimView (listView state)) then None
  else if listIndex <=? 0 then None
  else
    let page := listPageIndex state in
    let levelIndex :=
      if page =? 0 then listIndex - 1
      else DIM_LEVELS_PER_PAGE + (listIndex - 1) in
    if (levelIndex <? 0) || (Z.of_nat (length DIM_LEVELS) <=? levelIndex)
    then None
    else index DIM_LEVELS levelIndex.

(** *** Page composer ([render/composer.ts]) *)

(** The body shared, word for word up to the names of the constants, by
    [sceneNamesForListView], [roomNamesForListView] and
    [favoriteNamesForListView] once the collection is not empty. *)
Definition pagedNamesForListView {T} (items : list T) (label : T -> jsstring)
    (PER_PAGE listPageIndex : Z) : list jsstring :=
  let n := Z.of_nat (length items) in
  let firstPageSlots := if n <=? PER_PAGE then PER_PAGE else PER_PAGE - 1 in
  let totalPages :=
    if n <=? PER_PAGE then 1
    else 1 + ceil_div (n - firstPageSlots) PER_PAGE in
  let page := Z.min listPageIndex (totalPages - 1) in
  let isFirst := page =? 0 in
  let isLast := page =? totalPages - 1 in
  let contentSlots := if isFirst then firstPageSlots else PER_PAGE in
  let startIndex :=
    if page =? 0 then 0 else firstPageSlots + (page - 1) * PER_PAGE in
  let pageItems := slice items startIndex (startIndex + contentSlots) in
  let names := map label pageItems in
  let padding :=
    if isFirst && isLast then []
    else array_fill (contentSlots - Z.of_nat (length names)) [] in
  let part := names ++ padding in
  let prevLabel := if isFirst then LABEL_BACK else LABEL_PREVIOUS in
  if isFirst && isLast then prevLabel :: part
  else if isFirst then prevLabel :: part ++ [LABEL_NEXT]
  else if isLast then prevLabel :: part
  else prevLabel :: part ++ [LABEL_NEXT].

Definition sceneLabel (state : AppState) (s : SceneEntry) : jsstring :=
  truncateName (getDisplayName state (sceneId s) (sceneName s)) (js "Scene").

Definition roomLabel (state : AppState) (r : RoomEntry) : jsstring :=
  truncateName (getDisplayName state (roomId r) (roomName r)) (js "Room").

Definition deviceLabel (state : AppState) (d : DeviceEntry) : jsstring :=
  truncateName (getDisplayName state (deviceId d) (deviceName d)) (js "Device").

Definition favoriteLabel (f : FavoriteItem) : jsstring :=
  truncateName (displayName f) (js "Scene").

Definition sceneNamesForListView (state : AppState) : list jsstring :=
  let scenes := getOrderedScenes state in
  match scenes with
  | [] =>
      if decide (status state = StatusLoading) then [] else [js "No scenes"]
  | _ =>
      pagedNamesForListView scenes (sceneLabel state) SCENES_PER_PAGE
        (listPageIndex state)
  end.

Definition roomNamesForListView (state : AppState) : list jsstring :=
  let rooms := getOrderedRooms state in
  match rooms with
  | [] =>
      match roomsStatus state with
      | Loading => [js "Loading" ++ ELLIPSIS]
      | LoadError => [js "Failed to load rooms"]
      | _ => [js "No rooms"]
      end
  | _ =>
      pagedNamesForListView rooms (roomLabel state) ROOMS_PER_PAGE
        (listPageIndex state)
  end.

Definition deviceNamesForListView (state : AppState) : list jsstring :=
  let devices := getOrderedDevices state in
  match devices with
  | [] =>
      match devicesStatus state with
      | Loading => [LABEL_BACK; js "Loading" ++ ELLIPSIS]
      | LoadError => [LABEL_BACK; js "Failed to load devices"]
      | _ => [LABEL_BACK; js "No devices"]
      end
  | _ =>
      let n := Z.of_nat (length devices) in
      let totalContentItems := 1 + n in
      let needNext := DEVICES_PER_PAGE - 1 <? totalContentItems in
      let firstPageContentSlots :=
        if needNext then DEVICES_PER_PAGE - 1 else totalContentItems in
      let firstPageDeviceCount :=
        firstPageContentSlots - 1 - (if needNext then 1 else 0) in
      let totalPages :=
        if needNext
        then 1 + ceil_div (n - firstPageDeviceCount) (DEVICES_PER_PAGE - 1)
        else 1 in
      let page := Z.min (listPageIndex state) (Z.max 0 (totalPages - 1)) in
      let isFirst := page =? 0 in
      let isLast := page =? totalPages - 1 in
      if isFirst then
        let firstPageDevices := slice devices 0 firstPageDeviceCount in
        let deviceNames := map (deviceLabel state) firstPageDevices in
        let contentPart := LABEL_ALL :: deviceNames in
        let padding :=
          if isFirst && isLast then []
          else array_fill (firstPageContentSlots - Z.of_nat (length contentPart)) [] in
        let part := contentPart ++ padding in
        let prevLabel := LABEL_BACK in
        if isFirst && isLast then prevLabel :: part
        else prevLabel :: part ++ [LABEL_NEXT]
      else
        let startIndex :=
          firstPageDeviceCount + (page - 1) * (DEVICES_PER_PAGE - 1) in
        let contentSlots :=
          if isLast && (n - startIndex <? DEVICES_PER_PAGE - 1)
          then n - startIndex else DEVICES_PER_PAGE - 1 in
        let pageDevices := slice devices startIndex (startIndex + contentSlots) in
        let deviceNames := map (deviceLabel state) pageDevices in
        let padding :=
          array_fill (contentSlots - Z.of_nat (length deviceNames)) [] in
        let devicePart := deviceNames ++ padding in
        LABEL_PREVIOUS :: devicePart ++ (if isLast then [] else [LABEL_NEXT])
  end.

Definition deviceDetailItemNames (state : AppState) : list jsstring :=
  let device := getSelectedDevice state in
  let base :=
    if truthy (device ≫= supportsSwitch)
    then [LABEL_BACK; js "On"; js "Off"] else [LABEL_BACK] in
  if truthy (device ≫= supportsDimmer) then base ++ [js "Dim"] else base.

Definition roomAllDetailItemNames (state : AppState) : list jsstring :=
  let base :=
    if roomHasSwitchable state
    then [LABEL_BACK; js "On"; js "Off"] else [LABEL_BACK] in
  if roomHasDimmable state then base ++ [js "Dim"] else base.

Definition dimLevelItemNames (state : AppState) : list jsstring :=
  let page := listPageIndex state in
  let totalLevels := Z.of_nat (length DIM_LEVELS) in
  let firstPageSlots := DIM_LEVELS_PER_PAGE in
  let totalPages :=
    if totalLevels <=? firstPageSlots then 1
    else 1 + ceil_div (totalLevels - firstPageSlots) DIM_LEVELS_PER_PAGE in
  let isFirst := page =? 0 in
  let isLast := page =? totalPages - 1 in
  let startIndex :=
    if page =? 0 then 0 else firstPageSlots + (page - 1) * DIM_LEVELS_PER_PAGE in
  let contentSlots :=
    if isFirst then firstPageSlots
    else if page =? totalPages - 1
         then totalLevels - firstPageSlots - (totalPages - 2) * DIM_LEVELS_PER_PAGE
         else DIM_LEVELS_PER_PAGE - 1 in
  let levelNames :=
    map string_of_level (slice DIM_LEVELS startIndex (startIndex + contentSlots)) in
  let padding :=
    if isFirst && isLast then []
    else array_fill (contentSlots - Z.of_nat (length levelNames)) [] in
  let part := levelNames ++ padding in
  let prevLabel := if isFirst then LABEL_BACK else LABEL_PREVIOUS in
  if isFirst && isLast then prevLabel :: part
  else if isFirst then prevLabel :: part ++ [LABEL_NEXT]
  else if isLast then prevLabel :: part
  else prevLabel :: part ++ [LABEL_NEXT].

Definition favoriteNamesForListView (state : AppState) : list jsstring :=
  let favorites := getOrderedFavorites state in
  match favorites with
  | [] => [LABEL_BACK; js "No favorites"]
  | _ =>
      pagedNamesForListView favorites favoriteLabel SCENES_PER_PAGE
        (listPageIndex state)
  end.

Definition listItemNamesForState (state : AppState) : list jsstring :=
  match listView state with
  | ViewMain => map MAIN_MENU_LABEL (getMainMenuOrderedItems state)
  | ViewScenes => sceneNamesForListView state
  | ViewRooms => roomNamesForListView state
  | ViewFavorites => favoriteNamesForListView state
  | ViewDeviceDetail => deviceDetailItemNames state
  | ViewDeviceDim => dimLevelItemNames state
  | ViewRoomAllDetail => roomAllDetailItemNames state
  | ViewRoomAllDim => dimLevelItemNames state
  | ViewDevices => deviceNamesForListView state
  end.

Definition getLastListIndex (state : AppState) : Z :=
  Z.max 0 (Z.of_nat (length (listItemNamesForState state)) - 1).

(** The page count of the scenes / rooms / favorites pattern. *)
Definition pagedTotalPages (n PER_PAGE : Z) : Z :=
  if n =? 0 then 1
  else
    let first := if n <=? PER_PAGE then PER_PAGE else PER_PAGE - 1 in
    if n <=? PER_PAGE then 1 else 1 + ceil_div (n - first) PER_PAGE.

Definition getTotalPages (state : AppState) : Z :=
  match listView state with
  | ViewMain => 1
  | ViewFavorites =>
      pagedTotalPages (Z.of_nat (length (getOrderedFavorites state))) SCENES_PER_PAGE
  | ViewDeviceDetail | ViewRoomAllDetail => 1
  | ViewDeviceDim | ViewRoomAllDim =>
      let totalLevels := Z.of_nat (length DIM_LEVELS) in
      if totalLevels <=? DIM_LEVELS_PER_PAGE then 1
      else 1 + ceil_div (totalLevels - DIM_LEVELS_PER_PAGE) DIM_LEVELS_PER_PAGE
  | ViewScenes =>
      pagedTotalPages (Z.of_nat (length (getOrderedScenes state))) SCENES_PER_PAGE
  | ViewRooms =>
      pagedTotalPages (Z.of_nat (length (getOrderedRooms state))) ROOMS_PER_PAGE
  | ViewDevices =>
      let n := Z.of_nat (length (getOrderedDevices state)) in
      if n =? 0 then 1
      else
        let totalContentItems := 1 + n in
        let needNext := DEVICES_PER_PAGE - 1 <? totalContentItems in
        let firstPageDeviceCount :=
          if needNext then DEVICES_PER_PAGE - 1 - 1 - 1 else n in
        if needNext
        then 1 + ceil_div (n - firstPageDeviceCount) (DEVICES_PER_PAGE - 1)
        else 1
  end.

(** Content slots of the first page; the scenes and rooms branches read
    the raw collections of the state, not the ordered ones. *)
Definition getFirstPageContentSlots (state : AppState) : Z :=
  match listView state with
  | ViewMain => Z.of_nat (length (getMainMenuOrderedItems state))
  | ViewFavorites =>
      let n := Z.of_nat (length (getOrderedFavorites state)) in
      if n <=? SCENES_PER_PAGE then SCENES_PER_PAGE else SCENES_PER_PAGE - 1
  | ViewDeviceDetail => Z.of_nat (length (deviceDetailItemNames state)) - 1
  | ViewRoomAllDetail => Z.of_nat (length (roomAllDetailItemNames state)) - 1
  | ViewDeviceDim | ViewRoomAllDim => DIM_LEVELS_PER_PAGE
  | ViewScenes =>
      let n := Z.of_nat (length (scenes state)) in
      if n <=? SCENES_PER_PAGE then SCENES_PER_PAGE else SCENES_PER_PAGE - 1
  | ViewRooms =>
      let n := Z.of_nat (length (rooms state)) in
      if n <=? ROOMS_PER_PAGE then ROOMS_PER_PAGE else ROOMS_PER_PAGE - 1
  | ViewDevices =>
      let n := Z.of_nat (length (devices state)) in
      if n =? 0 then 1
      else
        let totalContentItems := 1 + n in
        let needNext := DEVICES_PER_PAGE - 1 <? totalContentItems in
        if needNext then DEVICES_PER_PAGE - 1 else totalContentItems
  end.

(** *** Reducer ([state/reducer.ts]), the actions the tap router dispatches *)

Definition isDeviceScoped (v : ListView) : bool :=
  match v with ViewDeviceDetail | ViewDeviceDim => true | _ => false end.

Definition isTopLevel (v : ListView) : bool :=
  match v with
  | ViewMain | ViewScenes | ViewRooms | ViewFavorites => true
  | _ => false
  end.

Definition reduce (state : AppState) (action : Action) : AppState :=
  match action with
  | TAP selectedIndex _ =>
      {| listView := listView state; scenes := scenes state;
         listPageIndex := listPageIndex state; status := status state;
         rooms := rooms state; roomsStatus := roomsStatus state;
         selectedRoomId := selectedRoomId state; devices := devices state;
         devicesStatus := devicesStatus state;
         selectedDeviceId := selectedDeviceId state;
         globalStats := globalStats state; roomStats := roomStats state;
         deviceStats := deviceStats state;
         focusedListIndex := selectedIndex;
         preferences := preferences state; allDevices := allDevices state |}
  | LIST_PAGE pageIndex =>
      {| listView := listView state; scenes := scenes state;
         listPageIndex := pageIndex; status := status state;
         rooms := rooms state; roomsStatus := roomsStatus state;
         selectedRoomId := selectedRoomId state; devices := devices state;
         devicesStatus := devicesStatus state;
         selectedDeviceId := selectedDeviceId state;
         globalStats := globalStats state; roomStats := roomStats state;
         deviceStats := deviceStats state;
         focusedListIndex := focusedListIndex state;
         preferences := preferences state; allDevices := allDevices state |}
  | NAV_VIEW view =>
      {| listView := view; scenes := scenes state;
         listPageIndex := 0; status := status state;
         rooms := rooms state;
         roomsStatus :=
           if decide (view = ViewRooms) then Loading else roomsStatus state;
         selectedRoomId := selectedRoomId state; devices := devices state;
         devicesStatus := devicesStatus state;
         selectedDeviceId :=
           (let afterDevices :=
              if decide (view = ViewDevices) then None else selectedDeviceId state in
            if isDeviceScoped view then afterDevices else None);
         globalStats := globalStats state;
         roomStats := if isTopLevel view then None else roomStats state;
         deviceStats :=
           (let afterDevices :=
              if decide (view = ViewDevices) then None else deviceStats state in
            if isDeviceScoped view then afterDevices else None);
         focusedListIndex := 0;
         preferences := preferences state; allDevices := allDevices state |}
  | NAV_ROOM roomId =>
      {| listView := ViewDevices; scenes := scenes state;
         listPageIndex := 0; status := status state;
         rooms := rooms state; roomsStatus := roomsStatus state;
         selectedRoomId := Some roomId; devices := devices state;
         devicesStatus := Loading;
         selectedDeviceId := selectedDeviceId state;
         globalStats := globalStats state; roomStats := None;
         deviceStats := deviceStats state;
         focusedListIndex := 0;
         preferences := preferences state; allDevices := allDevices state |}
  | NAV_DEVICE deviceId =>
      {| listView := ViewDeviceDetail; scenes := scenes state;
         listPageIndex := 0; status := status state;
         rooms := rooms state; roomsStatus := roomsStatus state;
         selectedRoomId := selectedRoomId state; devices := devices state;
         devicesStatus := devicesStatus state;
         selectedDeviceId := Some deviceId;
         globalStats := globalStats state; roomStats := roomStats state;
         deviceStats := deviceStats state;
         focusedListIndex := 0;
         preferences := preferences state; allDevices := allDevices state |}
  | NAV_FAVORITE_DEVICE deviceId =>
      {| listView := ViewDeviceDetail; scenes := scenes state;
         listPageIndex := 0; status := status state;
         rooms := rooms state; roomsStatus := roomsStatus state;
         selectedRoomId := None; devices := allDevices state;
         devicesStatus := devicesStatus state;
         selectedDeviceId := Some deviceId;
         globalStats := globalStats state; roomStats := roomStats state;
         deviceStats := deviceStats state;
         focusedListIndex := 0;
         preferences := preferences state; allDevices := allDevices state |}
  | NAV_ROOM_ALL =>
      {| listView := ViewRoomAllDetail; scenes := scenes state;
         listPageIndex := 0; status := status state;
         rooms := rooms state; roomsStatus := roomsStatus state;
         selectedRoomId := selectedRoomId state; devices := devices state;
         devicesStatus := devicesStatus state;
         selectedDeviceId := None;
         globalStats := globalStats state; roomStats := roomStats state;
         deviceStats := deviceStats state;
         focusedListIndex := 0;
         preferences := preferences state; allDevices := allDevices state |}
  end.

(** *** Tap router ([commitTap] of [app.ts])

    What one run of [commitTap] does, in order: the actions it dispatches
    to the store and the asynchronous operations it starts.  Every branch
    reads the state captured on entry and dispatches last. *)

Inductive Effect :=
  | Dispatch (a : Action)
  | RefreshPage
  | LoadRooms
  | LoadDevicesForRoom (roomId : jsstring)
  | LoadDeviceStats (deviceId : jsstring)
  | RunExecuteScene (sceneIndex : Z)
  | RunDeviceSwitch (deviceId : jsstring) (on : bool)
  | RunDeviceSetLevel (deviceId : jsstring) (level : Z)
  | RunAllDevicesInRoomSwitch (on : bool)
  | RunAllDimmableDevicesSetLevel (level : Z).

Definition isPaginatedList (v : ListView) : bool :=
  match v with
  | ViewScenes | ViewRooms | ViewDevices | ViewFavorites
  | ViewDeviceDim | ViewRoomAllDetail | ViewRoomAllDim => true
  | _ => false
  end.

(** [if (deviceId)]: a string that is neither [null] nor empty. *)
Definition truthyId (id : option jsstring) : option jsstring :=
  match id with
  | None | Some [] => None
  | Some i => Some i
  end.

(** The index expression repeated by the scenes, favorites and rooms
    branches: [page === 0 ? listIndex - 1 : firstSlots + (page - 1) *
    PER_PAGE + (listIndex - 1)]. *)
Definition actualIndex (firstSlots PER_PAGE page listIndex : Z) : Z :=
  if page =? 0 then listIndex - 1
  else firstSlots + (page - 1) * PER_PAGE + (listIndex - 1).

(** [array.findIndex(p)] *)
Fixpoint findIndex {A} (p : A -> bool) (l : list A) : Z :=
  match l with
  | [] => -1
  | x :: l' =>
      if p x then 0
      else let i := findIndex p l' in if i <? 0 then -1 else 1 + i
  end.

(** The leading Back / Previous slot and the trailing Next slot, handled
    alike by the scenes, favorites, rooms and devices branches. *)
Definition pageControl (state : AppState) (backView : ListView)
    (listIndex : Z) : option (list Effect) :=
  let page := listPageIndex state in
  let totalPages := getTotalPages state in
  let isFirst := page =? 0 in
  let isLast := page =? totalPages - 1 in
  if listIndex =? 0 then
    Some [if isFirst then Dispatch (NAV_VIEW backView)
          else Dispatch (LIST_PAGE (page - 1)); RefreshPage]
  else if negb isLast && (listIndex =? getLastListIndex state) then
    Some [Dispatch (LIST_PAGE (page + 1)); RefreshPage]
  else None.

Definition dimBack (state : AppState) (parent : ListView) : list Effect :=
  [if listPageIndex state =? 0 then Dispatch (NAV_VIEW parent)
   else Dispatch (LIST_PAGE (listPageIndex state - 1)); RefreshPage].

Definition singleTap (state : AppState) (listIndex : Z) : list Effect :=
  let page := listPageIndex state in
  match listView state with
  | ViewDeviceDim =>
      if listIndex =? 0 then dimBack state ViewDeviceDetail
      else
        match truthyId (selectedDeviceId state) with
        | Some deviceId =>
            match getDimLevelByStateAndIndex state listIndex with
            | Some level => [RunDeviceSetLevel deviceId level]
            | None => []
            end
        | None => []
        end
  | ViewRoomAllDim =>
      if listIndex =? 0 then dimBack state ViewRoomAllDetail
      else
        match getDimLevelByStateAndIndex state listIndex with
        | Some level => [RunAllDimmableDevicesSetLevel level]
        | None => []
        end
  | ViewRoomAllDetail =>
      let hasSwitch := roomHasSwitchable state in
      let hasDim := roomHasDimmable state in
      if listIndex =? 0 then [Dispatch (NAV_VIEW ViewDevices); RefreshPage]
      else if hasSwitch && (listIndex =? 1) then [RunAllDevicesInRoomSwitch true]
      else if hasSwitch && (listIndex =? 2) then [RunAllDevicesInRoomSwitch false]
      else if hasDim && (if hasSwitch then listIndex =? 3 else listIndex =? 1)
           then [Dispatch (NAV_VIEW ViewRoomAllDim); RefreshPage]
      else []
  | ViewScenes =>
      match pageControl state ViewMain listIndex with
      | Some effects => effects
      | None =>
          let firstSlots := getFirstPageContentSlots state in
          let actualSceneIndex :=
            actualIndex firstSlots SCENES_PER_PAGE page listIndex in
          if (0 <=? actualSceneIndex)
             && (actualSceneIndex <? Z.of_nat (length (getOrderedScenes state)))
          then [Dispatch (TAP listIndex None); RunExecuteScene actualSceneIndex]
          else []
      end
  | ViewFavorites =>
      match pageControl state ViewMain listIndex with
      | Some effects => effects
      | None =>
          let firstSlots := getFirstPageContentSlots state in
          let actualFavoriteIndex :=
            actualIndex firstSlots SCENES_PER_PAGE page listIndex in
          match getFavoriteByIndex state actualFavoriteIndex with
          | Some favorite =>
              match fav_type favorite with
              | FavScene =>
                  let sceneIndex :=
                    findIndex (fun s => bool_decide (sceneId s = fav_id favorite))
                              (getOrderedScenes state) in
                  if 0 <=? sceneIndex
                  then [Dispatch (TAP listIndex None); RunExecuteScene sceneIndex]
                  else []
              | FavDevice =>
                  [Dispatch (NAV_FAVORITE_DEVICE (fav_id favorite)); RefreshPage;
                   LoadDeviceStats (fav_id favorite)]
              end
          | None => []
          end
      end
  | ViewRooms =>
      match pageControl state ViewMain listIndex with
      | Some effects => effects
      | None =>
          let firstSlots := getFirstPageContentSlots state in
          let actualRoomIndex :=
            actualIndex firstSlots ROOMS_PER_PAGE page listIndex in
          match getRoomByIndex state actualRoomIndex with
          | Some room =>
              [Dispatch (NAV_ROOM (roomId room)); RefreshPage;
               LoadDevicesForRoom (roomId room)]
          | None => []
          end
      end
  | ViewDevices =>
      match pageControl state ViewRooms listIndex with
      | Some effects => effects
      | None =>
          let deviceIndex := getDeviceIndexFromDevicesList state page listIndex in
          if deviceIndex =? -1 then [Dispatch NAV_ROOM_ALL; RefreshPage]
          else if 0 <=? deviceIndex then
            match getDeviceByIndex state deviceIndex with
            | Some device =>
                [Dispatch (NAV_DEVICE (deviceId device)); RefreshPage;
                 LoadDeviceStats (deviceId device)]
            | None => []
            end
          else []
      end
  | _ => []
  end.

(** Where a double tap on the first page leads. *)
Definition parentView (v : ListView) : option ListView :=
  match v with
  | ViewDevices => Some ViewRooms
  | ViewRoomAllDetail => Some ViewDevices
  | ViewRoomAllDim => Some ViewRoomAllDetail
  | ViewRooms => Some ViewMain
  | ViewScenes => Some ViewMain
  | ViewFavorites => Some ViewMain
  | ViewDeviceDim => Some ViewDeviceDetail
  | _ => None
  end.

(** The views whose first page goes back on a double tap at any slot. *)
Definition backOnAnySlot (v : ListView) : bool :=
  match v with
  | ViewScenes | ViewDevices | ViewFavorites | ViewDeviceDim
  | ViewRoomAllDetail | ViewRoomAllDim => true
  | _ => false
  end.

Definition backFromDetail (state : AppState) : list Effect :=
  [Dispatch (NAV_VIEW (match selectedRoomId state with
                       | None => ViewFavorites
                       | Some _ => ViewDevices
                       end)); RefreshPage].

Definition commitTap (state : AppState) (lastTapIndex tapCount : Z)
  : list Effect :=
  let listView := listView state in
  let page := listPageIndex state in
  let totalPages := getTotalPages state in
  let isFirst := page =? 0 in
  let isLast := page =? totalPages - 1 in
  let listIndex := lastTapIndex in
  if decide (listView = ViewMain) then
    if tapCount =? 1 then
      match index (getMainMenuOrderedViews state) listIndex with
      | Some view =>
          [Dispatch (NAV_VIEW view); RefreshPage]
          ++ (if decide (view = ViewRooms) then [LoadRooms] else [])
      | None => []
      end
    else []
  else if isPaginatedList listView then
    if (tapCount =? 2) && negb isFirst then
      [Dispatch (LIST_PAGE (page - 1)); RefreshPage]
    else if (tapCount =? 2) && isFirst
            && ((listIndex =? 0) || backOnAnySlot listView) then
      match parentView listView with
      | Some parent => [Dispatch (NAV_VIEW parent); RefreshPage]
      | None => [RefreshPage]
      end
    else if (3 <=? tapCount) && negb isLast then
      [Dispatch (LIST_PAGE (totalPages - 1)); RefreshPage]
    else if tapCount =? 1 then singleTap state listIndex
    else []
  else if decide (listView = ViewDeviceDetail) then
    if tapCount =? 2 then backFromDetail state
    else if tapCount =? 1 then
      let deviceId := truthyId (selectedDeviceId state) in
      let device := getSelectedDevice state in
      let hasSwitch := truthy (device ≫= supportsSwitch) in
      let hasDim := truthy (device ≫= supportsDimmer) in
      if listIndex =? 0 then backFromDetail state
      else
        match deviceId with
        | Some id =>
            if hasSwitch && (listIndex =? 1) then [RunDeviceSwitch id true]
            else if hasSwitch && (listIndex =? 2) then [RunDeviceSwitch id false]
            else if hasDim && (if hasSwitch then listIndex =? 3 else listIndex =? 1)
            then [Dispatch (NAV_VIEW ViewDeviceDim); RefreshPage; LoadDeviceStats id]
            else []
        | None => []
        end
    else []
  else [].

(** The store after the dispatches of a run of [commitTap]. *)
Definition applyEffects (state : AppState) (effects : list Effect) : AppState :=
  fold_left (fun s e => match e with Dispatch a => reduce s a | _ => s end)
            effects state.

End Program.

(** ** Gesture session (the event handler of [app.ts]) *)

Record GestureConfig := {
  TAP_WINDOW_MS : Z;
  TAP_COMMIT_MS : Z;
  SCROLL_WINDOW_MS : Z }.

Definition gestureConfig (useRealGlasses : bool) : GestureConfig :=
  {| TAP_WINDOW_MS := if useRealGlasses then 800 else 400;
     TAP_COMMIT_MS := if useRealGlasses then 800 else 450;
     SCROLL_WINDOW_MS := 400 |}.

(** The variables closed over by the handler.  [commitTimeoutId] holds the
    time at which the pending [setTimeout(commitTap, TAP_COMMIT_MS)] is due;
    an entry of [recentListIndices] is a pair (index, time). *)
Record GestureSession := {
  lastTapTime : Z;
  lastTapIndex : Z;
  tapCount : Z;
  commitTimeoutId : option Z;
  recentListIndices : list (Z * Z) }.

Definition initialSession : GestureSession :=
  {| lastTapTime := 0; lastTapIndex := -1; tapCount := 0;
     commitTimeoutId := None; recentListIndices := [] |}.

(** [while (first.time < cutoff) recentListIndices.shift()] *)
Fixpoint shiftOld (cutoff : Z) (recent : list (Z * Z)) : list (Z * Z) :=
  match recent with
  | first :: rest =>
      if cutoff <=? snd first then recent else shiftOld cutoff rest
  | [] => []
  end.

(** [new Set(recentListIndices.map(e => e.index)).size] *)
Definition uniqueIndices (recent : list (Z * Z)) : Z :=
  Z.of_nat (length (remove_dups (map fst recent))).

(** The handler on a mapped [TAP] action read at time [now]. *)
Definition handleTap (cfg : GestureConfig) (g : GestureSession)
    (listIndex gestureTaps now : Z) : GestureSession :=
  let recent :=
    shiftOld (now - SCROLL_WINDOW_MS cfg) (recentListIndices g ++ [(listIndex, now)]) in
  let uniqueIndicesInWindow := uniqueIndices recent in
  let likelyScrolling := 2 <=? uniqueIndicesInWindow in
  let isSameItemAgain :=
    (listIndex =? lastTapIndex g) && (now - lastTapTime g <=? TAP_WINDOW_MS cfg) in
  let isNewItemSingleTap := negb isSameItemAgain && (gestureTaps =? 1) in
  let skipCommitForScroll := isNewItemSingleTap && likelyScrolling in
  {| lastTapTime := now;
     lastTapIndex := if isSameItemAgain then lastTapIndex g else listIndex;
     tapCount :=
       if isSameItemAgain then Z.min (tapCount g + gestureTaps) 4
       else Z.min gestureTaps 4;
     commitTimeoutId :=
       if skipCommitForScroll then None else Some (now + TAP_COMMIT_MS cfg);
     recentListIndices := recent |}.

(** The handler on what the input mapper returned: only a [TAP] is
    handled, with [action.gestureTaps ?? 1]. *)
Definition handleAction (cfg : GestureConfig) (g : GestureSession)
    (action : option Action) (now : Z) : GestureSession :=
  match action with
  | Some (TAP listIndex gestureTaps) =>
      handleTap cfg g listIndex (default 1 gestureTaps) now
  | _ => g
  end.

(** What a run of [commitTap] leaves of the session: every path ends with
    [lastTapIndex = -1; tapCount = 0], after [commitTimeoutId = null]. *)
Definition afterCommit (g : GestureSession) : GestureSession :=
  {| lastTapTime := lastTapTime g; lastTapIndex := -1; tapCount := 0;
     commitTimeoutId := None; recentListIndices := recentListIndices g |}.

(** The committed tap: the position and the accumulated count that
    [commitTap] reads. *)
Definition committed (g : GestureSession) : Z * Z := (lastTapIndex g, tapCount g).

(** *** The session over time

    A label is what an observer sees: a tap handled at a time, or a commit
    with its position and count.  The clock only moves forward; the timer
    callback runs no earlier than the time it is due. *)

Inductive Label :=
  | Tapped (listIndex gestureTaps now : Z)
  | Committed (listIndex tapCount : Z).

Inductive step (cfg : GestureConfig)
  : Z * GestureSession -> Label -> Z * GestureSession -> Prop :=
  | step_tap clock g listIndex gestureTaps now :
      clock <= now ->
      step cfg (clock, g) (Tapped listIndex gestureTaps now)
               (now, handleTap cfg g listIndex gestureTaps now)
  | step_commit clock g due now :
      commitTimeoutId g = Some due ->
      clock <= now -> due <= now ->
      step cfg (clock, g) (Committed (lastTapIndex g) (tapCount g))
               (now, afterCommit g).

Inductive run (cfg : GestureConfig)
  : Z * GestureSession -> list Label -> Z * GestureSession -> Prop :=
  | run_nil s : run cfg s [] s
  | run_cons s l s' ls s'' :
      step cfg s l s' -> run cfg s' ls s'' -> run cfg s (l :: ls) s''.

Definition isCommit (l : Label) : bool :=
  match l with Committed _ _ => true | _ => false end.

Definition tapsOf (ls : list Label) : list Label :=
  List.filter (fun l => negb (isCommit l)) ls.

(** A scroll: single taps, each at another position than the one before
    and no later than [window] after it. *)
Fixpoint scrollFrom (window : Z) (prevIndex prevTime : Z)
    (taps : list (Z * Z)) : Prop :=
  match taps with
  | [] => True
  | (i, t) :: rest =>
      prevIndex < i /\ prevTime <= t /\ t - prevTime <= window
      /\ scrollFrom window i t rest
  end.

Definition scroll (window : Z) (taps : list (Z * Z)) : Prop :=
  match taps with
  | [] => True
  | (i, t) :: rest => scrollFrom window i t rest
  end.

Definition singleTaps (taps : list (Z * Z)) : list Label :=
  map (fun e => Tapped (fst e) 1 (snd e)) taps.

(** ** Input mapper ([input/actions.ts]) *)

(** What a call into the SDK does: it returns or it throws. *)
Inductive Outcome (A : Type) := Returns (a : A) | Throws.
Arguments Returns {A} a.
Arguments Throws {A}.

(** The two payloads of a raw event the mapper looks at; the event type is
    the numeric code of the wire, absent when the field is missing. *)
Record ListEvent := {
  list_eventType : option Z;
  currentSelectItemIndex : option Z }.

Record SysEvent := { sys_eventType : option Z }.

Record EvenHubEvent := {
  sysEvent : option SysEvent;
  listEvent : option ListEvent }.

Section InputMapper.

(** The members of [OsEventTypeList] and its [fromJson] belong to the
    vendor SDK and are parameters here. *)
Variables CLICK_EVENT SCROLL_TOP_EVENT SCROLL_BOTTOM_EVENT DOUBLE_CLICK_EVENT : Z.
Variable fromJson : Z -> Outcome (option Z).

(** [rawType != null ? OsEventTypeList.fromJson(rawType) ?? Number(rawType)
    : null] *)
Definition normalizeEventType (rawType : option Z) : Outcome (option Z) :=
  match rawType with
  | Some raw =>
      match fromJson raw with
      | Returns (Some e) => Returns (Some e)
      | Returns None => Returns (Some raw)
      | Throws => Throws
      end
  | None => Returns None
  end.

(** An exception is caught by the mapper, which then returns [null]. *)
Definition mapListEvent (le : ListEvent) : option Action :=
  let rawType := list_eventType le in
  let rawDoubleClick := bool_decide (rawType = Some 3) in
  match normalizeEventType rawType with
  | Throws => None
  | Returns eventType =>
      let index := default 0 (currentSelectItemIndex le) in
      if rawDoubleClick || bool_decide (eventType = Some DOUBLE_CLICK_EVENT)
      then Some (TAP index (Some 2))
      else if bool_decide (eventType = Some CLICK_EVENT)
              || bool_decide (eventType = None)
      then Some (TAP index (Some 1))
      else if negb (bool_decide (eventType = Some SCROLL_TOP_EVENT))
              && negb (bool_decide (eventType = Some SCROLL_BOTTOM_EVENT))
      then Some (TAP index (Some 1))
      else None
  end.

Definition mapEvenHubEvent (event : option EvenHubEvent)
    (state : option AppState) : option Action :=
  match event with
  | None => None
  | Some event =>
      let fromSys :=
        match sysEvent event with
        | Some se =>
            if bool_decide (sys_eventType se = Some 3)
            then Some (TAP (default 0 (focusedListIndex <$> state)) (Some 2))
            else None
        | None => None
        end in
      match fromSys with
      | Some action => Some action
      | None =>
          match listEvent event with
          | Some le => mapListEvent le
          | None => None
          end
      end
  end.

End InputMapper.

(** The event codes of the SDK's [OsEventTypeList], as its type
    declarations publish them, for closed examples; [fromJson] returns the
    member for a known code and [undefined] otherwise. *)
Module EvenHubSdk.
Definition CLICK_EVENT : Z := 0.
Definition SCROLL_TOP_EVENT : Z := 1.
Definition SCROLL_BOTTOM_EVENT : Z := 2.
Definition DOUBLE_CLICK_EVENT : Z := 3.
Definition FOREGROUND_ENTER_EVENT : Z := 4.
Definition FOREGROUND_EXIT_EVENT : Z := 5.
Definition ABNORMAL_EXIT_EVENT : Z := 6.

Definition fromJson (raw : Z) : Outcome (option Z) :=
  Returns (if (0 <=? raw) && (raw <=? 6) then Some raw else None).

Definition mapEvenHubEvent :=
  mapEvenHubEvent CLICK_EVENT SCROLL_TOP_EVENT SCROLL_BOTTOM_EVENT
                  DOUBLE_CLICK_EVENT fromJson.
End EvenHubSdk.

(** ** Batches of per-device commands ([runAllDevicesInRoomSwitch])

    [ok d] tells whether the command sent to [d] succeeded (a rejected call
    counts as a failure). *)
Definition countSuccesses {A} (ok : A -> bool) (targets : list A) : Z :=
  fold_left (fun successCount d => if ok d then successCount + 1 else successCount)
            targets 0.

Definition runAllDevicesInRoomSwitch (state : AppState)
    (ok : DeviceEntry -> bool) : ConfirmationResult :=
  let devices := List.filter (fun d => truthy (supportsSwitch d)) (devices state) in
  if Z.of_nat (length devices) =? 0 then Failure
  else confirmationResultFromCounts (countSuccesses ok devices)
                                    (Z.of_nat (length devices)).

(** ** A reference collation for closed examples

    The collation of the runtime is a parameter of the development.  The
    examples below run the program with this one: code units compared in
    order, letters of the basic Latin alphabet without regard to case. *)
Definition foldCase (c : code_unit) : code_unit :=
  if ((65 <=? c) && (c <=? 90))%N then (c + 32)%N else c.

Fixpoint codeUnitCompare (a b : jsstring) : Z :=
  match a, b with
  | [], [] => 0
  | [], _ :: _ => -1
  | _ :: _, [] => 1
  | x :: a', y :: b' =>
      if (foldCase x <? foldCase y)%N then -1
      else if (foldCase y <? foldCase x)%N then 1
      else codeUnitCompare a' b'
  end.

(** ** Example states *)

Module Examples.

Definition defaultPreferences : Preferences :=
  {| listOrder :=
       {| order_scenes := Alphabetical; order_rooms := Alphabetical;
          order_devices := Alphabetical; order_favorites := Alphabetical;
          order_main := Alphabetical |};
     listOrderCustomIds :=
       {| custom_scenes := []; custom_rooms := []; custom_devices := [];
          custom_favorites := [];
          custom_main := [MenuScenes; MenuDevices; MenuFavorites] |};
     favoritesIds := [];
     renames := ∅ |}.

(** [buildInitialState()] *)
Definition initialState : AppState :=
  {| listView := ViewMain; scenes := []; listPageIndex := 0;
     status := StatusLoading; rooms := []; roomsStatus := Idle;
     selectedRoomId := None; devices := []; devicesStatus := Idle;
     selectedDeviceId := None; globalStats := None; roomStats := None;
     deviceStats := None; focusedListIndex := 0;
     preferences := defaultPreferences; allDevices := [] |}.

Definition inView (v : ListView) (page : Z) (s : AppState) : AppState :=
  {| listView := v; scenes := scenes s; listPageIndex := page;
     status := status s; rooms := rooms s; roomsStatus := roomsStatus s;
     selectedRoomId := selectedRoomId s; devices := devices s;
     devicesStatus := devicesStatus s; selectedDeviceId := selectedDeviceId s;
     globalStats := globalStats s; roomStats := roomStats s;
     deviceStats := deviceStats s; focusedListIndex := focusedListIndex s;
     preferences := preferences s; allDevices := allDevices s |}.

Definition withDevices (ds : list DeviceEntry) (sel : option jsstring)
    (s : AppState) : AppState :=
  {| listView := listView s; scenes := scenes s;
     listPageIndex := listPageIndex s;
     status := status s; rooms := rooms s; roomsStatus := roomsStatus s;
     selectedRoomId := selectedRoomId s; devices := ds;
     devicesStatus := Ready; selectedDeviceId := sel;
     globalStats := globalStats s; roomStats := roomStats s;
     deviceStats := deviceStats s; focusedListIndex := focusedListIndex s;
     preferences := preferences s; allDevices := allDevices s |}.

Definition device (n : Z) : DeviceEntry :=
  {| deviceId := js "device-" ++ string_of_level n;
     deviceName := js "Lamp " ++ string_of_level (100 + n);
     deviceType := Some (js "Light"); deviceProtocol := Some (js "Zigbee");
     supportsSwitch := Some true; supportsDimmer := Some false |}.

(** Twenty-five devices shown in the devices view. *)
Definition devices25 : list DeviceEntry :=
  map (fun n => device (Z.of_nat n)) (seq 0 25).

Definition state25 (page : Z) : AppState :=
  inView ViewDevices page (withDevices devices25 None initialState).

Definition emptyFavorites : AppState := inView ViewFavorites 0 initialState.

(** A list event whose type code is none of the SDK's. *)
Definition unknownListEvent : EvenHubEvent :=
  {| sysEvent := None;
     listEvent := Some {| list_eventType := Some 99;
                          currentSelectItemIndex := Some 2 |} |}.

(** A list event without a type code. *)
Definition untypedListEvent : EvenHubEvent :=
  {| sysEvent := None;
     listEvent := Some {| list_eventType := None;
                          currentSelectItemIndex := Some 2 |} |}.

(** A list event that reports that the app came to the foreground. *)
Definition foregroundListEvent : EvenHubEvent :=
  {| sysEvent := None;
     listEvent := Some {| list_eventType := Some 4;
                          currentSelectItemIndex := Some 2 |} |}.

(** A device whose name has seventy code units. *)
Definition longNamedDevice : DeviceEntry :=
  {| deviceId := js "device-long";
     deviceName := repeat 97%N 70;
     deviceType := None; deviceProtocol := None;
     supportsSwitch := Some true; supportsDimmer := None |}.

Definition scene (id name : string) : SceneEntry :=
  {| sceneId := js id; sceneName := js name |}.

Definition threeScenes : list SceneEntry :=
  [scene "s1" "Movie night"; scene "s2" "Away"; scene "s3" "bedtime"].

(** An explicit order with an unknown id, a repeated id, and two scenes
    left out. *)
Definition partialOrder : list jsstring := [js "zz"; js "s3"; js "s3"].

(** Forty scenes, shown on the second of their three pages. *)
Definition scenes40 : list SceneEntry :=
  map (fun n => {| sceneId := js "scene-" ++ string_of_level (Z.of_nat n);
                   sceneName := js "Scene " ++ string_of_level (100 + Z.of_nat n) |})
      (seq 0 40).

Definition stateScenes40 : AppState :=
  {| listView := ViewScenes; scenes := scenes40; listPageIndex := 1;
     status := StatusReady; rooms := []; roomsStatus := Idle;
     selectedRoomId := None; devices := []; devicesStatus := Idle;
     selectedDeviceId := None; globalStats := None; roomStats := None;
     deviceStats := None; focusedListIndex := 0;
     preferences := defaultPreferences; allDevices := [] |}.

End Examples.

(** ** Predicates of the statements *)

(** A label that the list widget accepts: at most 64 code units. *)
Definition fits (label : jsstring) : Prop :=
  jslength label <= LIST_ITEM_NAME_MAX_LEN.

(** [a] may stand before [b] in an array sorted with [cmp]. *)
Definition before {A} (cmp : A -> A -> Z) (a b : A) : Prop := cmp a b <= 0.

(** *** Where the page composers put the entities

    The window of the ordered collection that a page shows, by the
    arithmetic of the composers: the index of its first entity and the
    number of content slots of the page.  The layout lemmas below show
    that the composed labels are these windows, after the leading
    controls. *)

Definition pagedFirstSlots (n PER_PAGE : Z) : Z :=
  if n <=? PER_PAGE then PER_PAGE else PER_PAGE - 1.

Definition pagedPageStart (n PER_PAGE page : Z) : Z :=
  if page =? 0 then 0 else pagedFirstSlots n PER_PAGE + (page - 1) * PER_PAGE.

Definition pagedPageSlots (n PER_PAGE page : Z) : Z :=
  if page =? 0 then pagedFirstSlots n PER_PAGE else PER_PAGE.

Definition pagedPageItems {T} (items : list T) (PER_PAGE page : Z) : list T :=
  let n := Z.of_nat (length items) in
  slice items (pagedPageStart n PER_PAGE page)
        (pagedPageStart n PER_PAGE page + pagedPageSlots n PER_PAGE page).

Definition pagedLead (page : Z) : list jsstring :=
  [if page =? 0 then LABEL_BACK else LABEL_PREVIOUS].

Definition devicesFirstCount (n : Z) : Z :=
  if DEVICES_PER_PAGE - 1 <? 1 + n then DEVICES_PER_PAGE - 1 - 1 - 1 else n.

Definition devicesTotalPages (n : Z) : Z :=
  if n =? 0 then 1
  else if DEVICES_PER_PAGE - 1 <? 1 + n
       then 1 + ceil_div (n - devicesFirstCount n) (DEVICES_PER_PAGE - 1)
       else 1.

Definition devicesPageStart (n page : Z) : Z :=
  if page =? 0 then 0
  else devicesFirstCount n + (page - 1) * (DEVICES_PER_PAGE - 1).

Definition devicesPageSlots (n page : Z) : Z :=
  if page =? 0 then devicesFirstCount n else DEVICES_PER_PAGE - 1.

Definition devicesPageItems (devices : list DeviceEntry) (page : Z)
  : list DeviceEntry :=
  let n := Z.of_nat (length devices) in
  slice devices (devicesPageStart n page)
        (devicesPageStart n page + devicesPageSlots n page).

Definition devicesLead (page : Z) : list jsstring :=
  if page =? 0 then [LABEL_BACK; LABEL_ALL] else [LABEL_PREVIOUS].

(** What follows the entities on a page: empty padding slots, then Next
    unless the page is the last one. *)
Definition pageTail (padding : nat) (page totalPages : Z) : list jsstring :=
  repeat [] padding ++ (if page =? totalPages - 1 then [] else [LABEL_NEXT]).

(** The router's index arithmetic inverts the placement of a paged view.
    The labels of the page are exactly the leading control, the labels of
    the entities of the window in order, empty padding slots, and Next
    unless the page is the last one, so the composer places an entity at
    the slots [1 + j] of the window's entities and nowhere else; the
    arithmetic maps the slot of each of them to the index of that entity in
    the collection; and every index of the collection is in the window of a
    page. *)
Definition routerInvertsPlacement {T} (labels : list jsstring)
    (items : list T) (label : T -> jsstring)
    (PER_PAGE firstSlots page totalPages : Z) : Prop :=
  let n := Z.of_nat (length items) in
  let shown := pagedPageItems items PER_PAGE page in
  (exists padding,
      labels = pagedLead page ++ map label shown
                 ++ pageTail padding page totalPages)
  /\ (forall j x, index shown j = Some x ->
        let slot := 1 + j in
        let i := actualIndex firstSlots PER_PAGE page slot in
        index labels slot = Some (label x)
        /\ i = pagedPageStart n PER_PAGE page + j /\ index items i = Some x)
  /\ (forall i, 0 <= i < n ->
        exists p j, 0 <= p < totalPages
                    /\ 0 <= j < pagedPageSlots n PER_PAGE p
                    /\ i = pagedPageStart n PER_PAGE p + j).

(** A session whose recorded positions are no later than its last tap,
    as in every session the handler has produced. *)
Definition wellTimed (g : GestureSession) : Prop :=
  Forall (fun e => snd e <= lastTapTime g) (recentListIndices g).

(** What holds of the clock and the session in every run from the initial
    session: the last tap is not in the future, the recorded positions are
    no later than it, and a pending commit is due [TAP_COMMIT_MS] after
    it. *)
Definition sessionInv (cfg : GestureConfig) (s : Z * GestureSession) : Prop :=
  lastTapTime (snd s) <= fst s
  /\ wellTimed (snd s)
  /\ forall due, commitTimeoutId (snd s) = Some due ->
                 due = lastTapTime (snd s) + TAP_COMMIT_MS cfg.

(** The page indices of a view with [totalPages] pages: 0, 1, ...,
    [totalPages - 1]. *)
Definition pageNumbers (totalPages : Z) : list Z :=
  map Z.of_nat (seq 0 (Z.to_nat totalPages)).

(** A page index that names a page of the current view. *)
Definition validPage (localeCompare : jsstring -> jsstring -> Z)
    (state : AppState) : Prop :=
  0 <= listPageIndex state < getTotalPages localeCompare state.

(** The navigation actions: those that change the view. *)
Definition isNavigation (a : Action) : bool :=
  match a with
  | NAV_VIEW _ | NAV_ROOM _ | NAV_DEVICE _ | NAV_FAVORITE_DEVICE _
  | NAV_ROOM_ALL => true
  | _ => false
  end.

Definition isDispatch (e : Effect) : bool :=
  match e with Dispatch _ => true | _ => false end.

(** The number of entities of the collection that a collection view
    pages through, in display order; [None] on the other views. *)
Definition collectionViewSize (localeCompare : jsstring -> jsstring -> Z)
    (state : AppState) : option Z :=
  match listView state with
  | ViewScenes => Some (Z.of_nat (length (getOrderedScenes localeCompare state)))
  | ViewRooms => Some (Z.of_nat (length (getOrderedRooms localeCompare state)))
  | ViewDevices => Some (Z.of_nat (length (getOrderedDevices localeCompare state)))
  | ViewFavorites =>
      Some (Z.of_nat (length (getOrderedFavorites localeCompare state)))
  | _ => None
  end.

(** The view that a main menu item opens. *)
Definition mainMenuView (item : MainMenuItem) : ListView :=
  match item with
  | MenuDevices => ViewRooms
  | MenuScenes => ViewScenes
  | MenuFavorites => ViewFavorites
  end.

(** ** The data cases of the reducer ([state/reducer.ts])

    The cases of [reduce] that store what the loaders fetched and what the
    settings form saved: with the navigation cases above, every case of
    the reducer.  The fields [errorMessage] of the state and
    [statsVisibility] of the preferences are read by none of the functions
    of this development and are not fields of the records above; what
    [SCENES_LOADED], [SCENES_ERROR], [EXECUTE_END] and
    [SET_STATS_VISIBILITY] write to them is therefore not recorded, and the
    other fields are as these cases leave them. *)

(** [keyof Preferences['listOrder']], and the identifiers a custom order
    of that list holds: menu items for the main menu, entity identifiers
    for the other lists. *)
Inductive ListKey := ListScenes | ListRooms | ListDevices | ListFavorites | ListMain.

Definition CustomIds (key : ListKey) : Type :=
  match key with
  | ListMain => list MainMenuItem
  | _ => list jsstring
  end.

(** The keys of [StatsVisibility]. *)
Inductive StatKey :=
  | StatEnabled | StatTotalDevices | StatOnline | StatOffline | StatDeviceType
  | StatProtocol | StatOnlineStatus | StatSwitchStatus | StatBrightness
  | StatCapabilityReadings.

Inductive DataAction :=
  | SCENES_LOADED (scenes : list SceneEntry)
  | SCENES_ERROR (message : jsstring)
  | ROOMS_LOADING
  | ROOMS_LOADED (rooms : list RoomEntry)
  | ROOMS_ERROR (message : jsstring)
  | DEVICES_LOADING
  | DEVICES_LOADED (devices : list DeviceEntry)
  | DEVICES_ERROR (message : jsstring)
  | ALL_DEVICES_LOADED (devices : list DeviceEntry)
  | EXECUTE_START
  | EXECUTE_END (success : bool) (errorMessage : option jsstring)
  | STATS_GLOBAL (stats : GlobalStats)
  | STATS_ROOM (stats : option GlobalStats)
  | STATS_DEVICE (stats : option DeviceStats)
  | PREFERENCES_LOADED (preferences : Preferences)
  | SET_LIST_ORDER (key : ListKey) (preference : ListOrderPreference)
                   (customIds : option (CustomIds key))
  | SET_FAVORITES (favoritesIds : list (FavoriteKind * jsstring))
  | SET_STATS_VISIBILITY (statsVisibility : StatKey -> option bool)
  | SET_RENAMES (renames : gmap jsstring jsstring).

(** [{ ...listOrder, [list]: preference }] *)
Definition setListOrder (o : ListOrder) (key : ListKey)
    (preference : ListOrderPreference) : ListOrder :=
  {| order_scenes := match key with ListScenes => preference | _ => order_scenes o end;
     order_rooms := match key with ListRooms => preference | _ => order_rooms o end;
     order_devices := match key with ListDevices => preference | _ => order_devices o end;
     order_favorites :=
       match key with ListFavorites => preference | _ => order_favorites o end;
     order_main := match key with ListMain => preference | _ => order_main o end |}.

(** [{ ...listOrderCustomIds, [list]: customIds }] *)
Definition setCustomIds (c : ListOrderCustomIds) (key : ListKey)
  : CustomIds key -> ListOrderCustomIds :=
  match key with
  | ListScenes => fun ids =>
      {| custom_scenes := ids; custom_rooms := custom_rooms c;
         custom_devices := custom_devices c;
         custom_favorites := custom_favorites c; custom_main := custom_main c |}
  | ListRooms => fun ids =>
      {| custom_scenes := custom_scenes c; custom_rooms := ids;
         custom_devices := custom_devices c;
         custom_favorites := custom_favorites c; custom_main := custom_main c |}
  | ListDevices => fun ids =>
      {| custom_scenes := custom_scenes c; custom_rooms := custom_rooms c;
         custom_devices := ids;
         custom_favorites := custom_favorites c; custom_main := custom_main c |}
  | ListFavorites => fun ids =>
      {| custom_scenes := custom_scenes c; custom_rooms := custom_rooms c;
         custom_devices := custom_devices c;
         custom_favorites := ids; custom_main := custom_main c |}
  | ListMain => fun ids =>
      {| custom_scenes := custom_scenes c; custom_rooms := custom_rooms c;
         custom_devices := custom_devices c;
         custom_favorites := custom_favorites c; custom_main := ids |}
  end.

Section DataReducer.

Variable localeCompare : jsstring -> jsstring -> Z.

Definition withPreferences (state : AppState) (p : Preferences) : AppState :=
  {| listView := listView state; scenes := scenes state;
     listPageIndex := listPageIndex state; status := status state;
     rooms := rooms state; roomsStatus := roomsStatus state;
     selectedRoomId := selectedRoomId state; devices := devices state;
     devicesStatus := devicesStatus state;
     selectedDeviceId := selectedDeviceId state;
     globalStats := globalStats state; roomStats := roomStats state;
     deviceStats := deviceStats state;
     focusedListIndex := focusedListIndex state;
     preferences := p; allDevices := allDevices state |}.

Definition reduceData (state : AppState) (action : DataAction) : AppState :=
  match action with
  | SCENES_LOADED loaded =>
      let sorted := array_sort (byName localeCompare sceneName) loaded in
      {| listView := listView state; scenes := sorted;
         listPageIndex := 0; status := StatusReady;
         rooms := rooms state; roomsStatus := roomsStatus state;
         selectedRoomId := selectedRoomId state; devices := devices state;
         devicesStatus := devicesStatus state;
         selectedDeviceId := selectedDeviceId state;
         globalStats := globalStats state; roomStats := roomStats state;
         deviceStats := deviceStats state;
         focusedListIndex := focusedListIndex state;
         preferences := preferences state; allDevices := allDevices state |}
  | ROOMS_LOADED loaded =>
      let sorted := array_sort (byName localeCompare roomName) loaded in
      {| listView := listView state; scenes := scenes state;
         listPageIndex := 0; status := status state;
         rooms := sorted; roomsStatus := Ready;
         selectedRoomId := selectedRoomId state; devices := devices state;
         devicesStatus := devicesStatus state;
         selectedDeviceId := selectedDeviceId state;
         globalStats := globalStats state; roomStats := roomStats state;
         deviceStats := deviceStats state;
         focusedListIndex := focusedListIndex state;
         preferences := preferences state; allDevices := allDevices state |}
  | DEVICES_LOADED loaded =>
      let sorted := array_sort (byName localeCompare deviceName) loaded in
      {| listView := listView state; scenes := scenes state;
         listPageIndex := 0; status := status state;
         rooms := rooms state; roomsStatus := roomsStatus state;
         selectedRoomId := selectedRoomId state; devices := sorted;
         devicesStatus := Ready;
         selectedDeviceId := selectedDeviceId state;
         globalStats := globalStats state; roomStats := roomStats state;
         deviceStats := deviceStats state;
         focusedListIndex := focusedListIndex state;
         preferences := preferences state; allDevices := allDevices state |}
  | ALL_DEVICES_LOADED loaded =>
      let sorted := array_sort (byName localeCompare deviceName) loaded in
      {| listView := listView state; scenes := scenes state;
         listPageIndex := listPageIndex state; status := status state;
         rooms := rooms state; roomsStatus := roomsStatus state;
         selectedRoomId := selectedRoomId state; devices := devices state;
         devicesStatus := devicesStatus state;
         selectedDeviceId := selectedDeviceId state;
         globalStats := globalStats state; roomStats := roomStats state;
         deviceStats := deviceStats state;
         focusedListIndex := focusedListIndex state;
         preferences := preferences state; allDevices := sorted |}
  | ROOMS_LOADING | ROOMS_ERROR _ =>
      {| listView := listView state; scenes := scenes state;
         listPageIndex := listPageIndex state; status := status state;
         rooms := rooms state;
         roomsStatus :=
           match action with ROOMS_LOADING => Loading | _ => LoadError end;
         selectedRoomId := selectedRoomId state; devices := devices state;
         devicesStatus := devicesStatus state;
         selectedDeviceId := selectedDeviceId state;
         globalStats := globalStats state; roomStats := roomStats state;
         deviceStats := deviceStats state;
         focusedListIndex := focusedListIndex state;
         preferences := preferences state; allDevices := allDevices state |}
  | DEVICES_LOADING | DEVICES_ERROR _ =>
      {| listView := listView state; scenes := scenes state;
         listPageIndex := listPageIndex state; status := status state;
         rooms := rooms state; roomsStatus := roomsStatus state;
         selectedRoomId := selectedRoomId state; devices := devices state;
         devicesStatus :=
           match action with DEVICES_LOADING => Loading | _ => LoadError end;
         selectedDeviceId := selectedDeviceId state;
         globalStats := globalStats state; roomStats := roomStats state;
         deviceStats := deviceStats state;
         focusedListIndex := focusedListIndex state;
         preferences := preferences state; allDevices := allDevices state |}
  | SCENES_ERROR _ | EXECUTE_START | EXECUTE_END _ _ =>
      {| listView := listView state; scenes := scenes state;
         listPageIndex := listPageIndex state;
         status :=
           match action with
           | EXECUTE_START => StatusExecuting
           | EXECUTE_END true _ => StatusDone
           | _ => StatusError
           end;
         rooms := rooms state; roomsStatus := roomsStatus state;
         selectedRoomId := selectedRoomId state; devices := devices state;
         devicesStatus := devicesStatus state;
         selectedDeviceId := selectedDeviceId state;
         globalStats := globalStats state; roomStats := roomStats state;
         deviceStats := deviceStats state;
         focusedListIndex := focusedListIndex state;
         preferences := preferences state; allDevices := allDevices state |}
  | STATS_GLOBAL stats =>
      {| listView := listView state; scenes := scenes state;
         listPageIndex := listPageIndex state; status := status state;
         rooms := rooms state; roomsStatus := roomsStatus state;
         selectedRoomId := selectedRoomId state; devices := devices state;
         devicesStatus := devicesStatus state;
         selectedDeviceId := selectedDeviceId state;
         globalStats := Some stats; roomStats := roomStats state;
         deviceStats := deviceStats state;
         focusedListIndex := focusedListIndex state;
         preferences := preferences state; allDevices := allDevices state |}
  | STATS_ROOM stats =>
      {| listView := listView state; scenes := scenes state;
         listPageIndex := listPageIndex state; status := status state;
         rooms := rooms state; roomsStatus := roomsStatus state;
         selectedRoomId := selectedRoomId state; devices := devices state;
         devicesStatus := devicesStatus state;
         selectedDeviceId := selectedDeviceId state;
         globalStats := globalStats state; roomStats := stats;
         deviceStats := deviceStats state;
         focusedListIndex := focusedListIndex state;
         preferences := preferences state; allDevices := allDevices state |}
  | STATS_DEVICE stats =>
      {| listView := listView state; scenes := scenes state;
         listPageIndex := listPageIndex state; status := status state;
         rooms := rooms state; roomsStatus := roomsStatus state;
         selectedRoomId := selectedRoomId state; devices := devices state;
         devicesStatus := devicesStatus state;
         selectedDeviceId := selectedDeviceId state;
         globalStats := globalStats state; roomStats := roomStats state;
         deviceStats := stats;
         focusedListIndex := focusedListIndex state;
         preferences := preferences state; allDevices := allDevices state |}
  | PREFERENCES_LOADED p => withPreferences state p
  | SET_LIST_ORDER key preference customIds =>
      withPreferences state
        {| listOrder := setListOrder (listOrder (preferences state)) key preference;
           listOrderCustomIds :=
             match customIds with
             | Some ids => setCustomIds (listOrderCustomIds (preferences state)) key ids
             | None => listOrderCustomIds (preferences state)
             end;
           favoritesIds := favoritesIds (preferences state);
           renames := renames (preferences state) |}
  | SET_STATS_VISIBILITY _ =>
      withPreferences state
        {| listOrder := listOrder (preferences state);
           listOrderCustomIds := listOrderCustomIds (preferences state);
           favoritesIds := favoritesIds (preferences state);
           renames := renames (preferences state) |}
  | SET_FAVORITES ids =>
      withPreferences state
        {| listOrder := listOrder (preferences state);
           listOrderCustomIds := listOrderCustomIds (preferences state);
           favoritesIds := ids;
           renames := renames (preferences state) |}
  | SET_RENAMES names =>
      withPreferences state
        {| listOrder := listOrder (preferences state);
           listOrderCustomIds := listOrderCustomIds (preferences state);
           favoritesIds := favoritesIds (preferences state);
           renames := names |}
  end.

End DataReducer.

(** [cmp a b === 0] for a consistent comparator: neither of the two has to
    stand after the other. *)
Definition collatesEqual {A} (cmp : A -> A -> Z) (a b : A) : bool :=
  (cmp a b <=? 0) && (cmp b a <=? 0).

(** *** Predicates on runs of the session *)

(** Every tap of the run carries at least one tap, as the taps of the
    input mapper do. *)
Definition positiveTaps (labels : list Label) : Prop :=
  List.Forall (fun l => match l with
                        | Tapped _ gestureTaps _ => 1 <= gestureTaps
                        | Committed _ _ => True
                        end) labels.

(** The handler on taps at one position; a tap is a pair
    (gestureTaps, time). *)
Definition tapAll (cfg : GestureConfig) (g : GestureSession) (position : Z)
    (taps : list (Z * Z)) : GestureSession :=
  fold_left (fun g e => handleTap cfg g position (fst e) (snd e)) taps g.

(** Each tap is no later than [window] after the one before. *)
Fixpoint closeTaps (window prevTime : Z) (taps : list (Z * Z)) : Prop :=
  match taps with
  | [] => True
  | (_, t) :: rest => t - prevTime <= window /\ closeTaps window t rest
  end.

Definition sumTaps (taps : list (Z * Z)) : Z :=
  fold_right Z.add 0 (map fst taps).

(** The recorded positions are in the order of their times and none is
    older than the scroll window of the last tap. *)
Definition recentInWindow (cfg : GestureConfig) (g : GestureSession) : Prop :=
  StronglySorted (fun a b => snd a <= snd b) (recentListIndices g)
  /\ List.Forall (fun e => lastTapTime g - SCROLL_WINDOW_MS cfg <= snd e
                           /\ snd e <= lastTapTime g)
                 (recentListIndices g).

(** What is known of a session after the labels [seen]: the count is
    between 0 and 4, and a pending commit was scheduled by the last label,
    a tap at the position the session holds. *)
Definition tracked (seen : list Label) (g : GestureSession) : Prop :=
  0 <= tapCount g <= 4
  /\ (commitTimeoutId g <> None ->
      1 <= tapCount g
      /\ exists before gestureTaps now,
           seen = before ++ [Tapped (lastTapIndex g) gestureTaps now]).

(** [runAllDimmableDevicesSetLevel]: the same batch over the dimmable
    devices of the room. *)
Definition runAllDimmableDevicesSetLevel (state : AppState)
    (ok : DeviceEntry -> bool) : ConfirmationResult :=
  let devices := List.filter (fun d => truthy (supportsDimmer d)) (devices state) in
  if Z.of_nat (length devices) =? 0 then Failure
  else confirmationResultFromCounts (countSuccesses ok devices)
                                    (Z.of_nat (length devices)).

(** ** Scene execution ([runExecuteScene] of [app.ts])

    What [client.scenes.execute] resolved to: an overall status and the
    statuses of the actions of the scene, either of which may be missing;
    the call may also resolve to nothing, or be rejected. *)
Record SceneResult := {
  result_status : option jsstring;
  result_results : option (list (option jsstring)) }.

Definition isAccepted (status : option jsstring) : bool :=
  bool_decide (status = Some (js "ACCEPTED"))
  || bool_decide (status = Some (js "COMPLETED")).

(** The confirmation shown for what the call resolved to. *)
Definition sceneConfirmation (result : option SceneResult) : ConfirmationResult :=
  let status := result ≫= result_status in
  let success := bool_decide (status = Some (js "success")) in
  match result ≫= result_results with
  | Some ((_ :: _) as results) =>
      let successCount := Z.of_nat (length (List.filter isAccepted results)) in
      confirmationResultFromCounts successCount (Z.of_nat (length results))
  | _ =>
      if success then Success
      else if bool_decide (status = Some (js "partial"))
              || bool_decide (status = Some (js "completed_with_errors"))
           then Partial
      else Failure
  end.

(** A run of [runExecuteScene]: nothing when there is no scene at the
    index or an execution is in progress; else the [success] flag that
    [EXECUTE_END] stores and the confirmation shown. *)
Definition runExecuteScene (localeCompare : jsstring -> jsstring -> Z)
    (state : AppState) (selectedIndex : Z)
    (execute : jsstring -> Outcome (option SceneResult))
  : option (bool * ConfirmationResult) :=
  match getSceneByIndex localeCompare state selectedIndex with
  | None => None
  | Some scene =>
      if decide (status state = StatusExecuting) then None
      else
        match execute (sceneId scene) with
        | Returns result =>
            let success :=
              bool_decide (result ≫= result_status = Some (js "success")) in
            Some (success, sceneConfirmation result)
        | Throws => Some (false, Failure)
        end
  end.

(** What an effect of the router refers to exists in the state the router
    read: the scene to run, the room or device to open, the device to
    command. *)
Definition targetExists (localeCompare : jsstring -> jsstring -> Z)
    (state : AppState) (e : Effect) : Prop :=
  match e with
  | RunExecuteScene sceneIndex =>
      exists scene, getSceneByIndex localeCompare state sceneIndex = Some scene
  | Dispatch (NAV_ROOM r) | LoadDevicesForRoom r =>
      exists room, In room (getOrderedRooms localeCompare state) /\ roomId room = r
  | Dispatch (NAV_DEVICE d) =>
      exists device,
        In device (getOrderedDevices localeCompare state) /\ deviceId device = d
  | Dispatch (NAV_FAVORITE_DEVICE d) =>
      exists favorite,
        In favorite (getOrderedFavorites localeCompare state)
        /\ fav_type favorite = FavDevice /\ fav_id favorite = d
  | RunDeviceSwitch d _ => selectedDeviceId state = Some d /\ d <> []
  | RunDeviceSetLevel d level =>
      (selectedDeviceId state = Some d /\ d <> []) /\ In level DIM_LEVELS
  | RunAllDevicesInRoomSwitch _ => roomHasSwitchable state = true
  | RunAllDimmableDevicesSetLevel level => In level DIM_LEVELS
  | Dispatch (LIST_PAGE _) | Dispatch (NAV_VIEW _) | Dispatch NAV_ROOM_ALL
  | Dispatch (TAP _ _) | RefreshPage | LoadRooms | LoadDeviceStats _ => True
  end.

(** ** One-bit bitmaps ([render/composer.ts], [unnamed/part_001])

    The numbers are integers; [x >> k] and [x & 0xff] read bits of the
    two's complement of [x], which [Z.shiftr] and [Z.land] read as well. *)

Definition BMP_FILE_HEADER_SIZE : Z := 14.
Definition BMP_DIB_HEADER_SIZE : Z := 40.
Definition BMP_COLOR_TABLE_SIZE : Z := 8.
Definition BMP_HEADER_SIZE : Z :=
  BMP_FILE_HEADER_SIZE + BMP_DIB_HEADER_SIZE + BMP_COLOR_TABLE_SIZE.
Definition BMP_PPM : Z := 2835.

Definition getBmpRowBytes (width : Z) : Z := ceil_div width 8.

Definition getBmpRowStride (width : Z) : Z :=
  let rowBytes := ceil_div width 8 in
  ceil_div rowBytes 4 * 4.

Definition getBmpPixelDataSize (width height : Z) : Z :=
  getBmpRowStride width * height.

Definition getBmpFileSize (width height : Z) : Z :=
  BMP_HEADER_SIZE + getBmpPixelDataSize width height.

(** The four writes [n & 0xff], [(n >> 8) & 0xff], [(n >> 16) & 0xff],
    [(n >> 24) & 0xff]. *)
Definition le32 (n : Z) : list Z :=
  [Z.land n 255; Z.land (Z.shiftr n 8) 255; Z.land (Z.shiftr n 16) 255;
   Z.land (Z.shiftr n 24) 255].

(** The 62 writes before the pixel rows. *)
Definition bmpHeader (width height : Z) : list Z :=
  let rowStride := getBmpRowStride width in
  let pixelDataSize := rowStride * height in
  let fileSize := BMP_HEADER_SIZE + pixelDataSize in
  [66; 77] ++ le32 fileSize ++ [0; 0; 0; 0]
  ++ [BMP_HEADER_SIZE; 0; 0; 0] ++ [40; 0; 0; 0]
  ++ le32 width ++ le32 height
  ++ [1; 0; 1; 0] ++ [0; 0; 0; 0]
  ++ le32 pixelDataSize ++ le32 BMP_PPM ++ le32 BMP_PPM
  ++ [2; 0; 0; 0] ++ [2; 0; 0; 0]
  ++ [0; 0; 0; 0] ++ [255; 255; 255; 0].

(** The body of the loop over [col]: one byte of a row, the leftmost of
    its eight pixels in the highest bit. *)
Definition bmpByte (data : list Z) (width y col : Z) : Z :=
  fold_left
    (fun byte bit =>
       let x := col * 8 + (7 - bit) in
       if x <? width then
         let g := default 0 (index data (y * width + x)) in
         if 128 <=? g then Z.lor byte (Z.shiftl 1 bit) else byte
       else byte)
    [0; 1; 2; 3; 4; 5; 6; 7] 0.

(** [for (let i = 0; i < n; i++)]: the values of [i]. *)
Definition upto (n : Z) : list Z := map Z.of_nat (seq 0 (Z.to_nat n)).

(** The rows, the last row of the image first. *)
Definition bmpRows (data : list Z) (width height : Z) : list Z :=
  flat_map (fun y => map (bmpByte data width y) (upto (getBmpRowStride width)))
           (rev (upto height)).

(** [grayToBmp]: [new Array(fileSize)] throws on a size that is negative
    or above [2^32 - 1]; the writes fill the array from index 0 and
    lengthen it when it is too short; an entry never written is a hole,
    [None]. *)
Definition grayToBmp (data : list Z) (width height : Z)
  : Outcome (list (option Z)) :=
  let fileSize := BMP_HEADER_SIZE + getBmpRowStride width * height in
  if (fileSize <? 0) || (4294967295 <? fileSize) then Throws
  else
    let written := bmpHeader width height ++ bmpRows data width height in
    Returns (map Some written
             ++ repeat None (Z.to_nat (fileSize - Z.of_nat (length written)))).

(** A number read from four bytes, the lowest first. *)
Definition readLe32 (bytes : list Z) (offset : Z) : option Z :=
  match slice bytes offset (offset + 4) with
  | [b0; b1; b2; b3] => Some (b0 + 256 * b1 + 65536 * b2 + 16777216 * b3)
  | _ => None
  end.

(** A state on the favorites view, with a scene and a device saved. *)
Definition favoritesState : AppState :=
  {| listView := ViewFavorites; scenes := Examples.threeScenes;
     listPageIndex := 0; status := StatusReady; rooms := [];
     roomsStatus := Idle; selectedRoomId := None; devices := [];
     devicesStatus := Idle; selectedDeviceId := None; globalStats := None;
     roomStats := None; deviceStats := None; focusedListIndex := 0;
     preferences :=
       {| listOrder := listOrder Examples.defaultPreferences;
          listOrderCustomIds := listOrderCustomIds Examples.defaultPreferences;
          favoritesIds := [(FavDevice, deviceId (Examples.device 1));
                           (FavScene, js "s2")];
          renames := ∅ |};
     allDevices := [Examples.device 1] |}.

(** After the navigation [a], a single tap on slot 0, the Back slot of
    page 0, shows the view that [a] left. *)
Definition backReturns (localeCompare : jsstring -> jsstring -> Z)
    (state : AppState) (a : Action) : Prop :=
  let there := reduce state a in
  listView (applyEffects there (commitTap localeCompare there 0 1))
  = listView state.

(** ** The event callback ([hub.subscribeEvents] in [app.ts])

    The callback maps the event with the state of the store; a [TAP] is
    dispatched to the store and handled by the gesture session; anything
    else is ignored. *)
Section EventCallback.

Variables CLICK_EVENT SCROLL_TOP_EVENT SCROLL_BOTTOM_EVENT DOUBLE_CLICK_EVENT : Z.
Variable fromJson : Z -> Outcome (option Z).

Definition onEvent (cfg : GestureConfig) (s : AppState * GestureSession)
    (event : option EvenHubEvent) (now : Z) : AppState * GestureSession :=
  let action :=
    mapEvenHubEvent CLICK_EVENT SCROLL_TOP_EVENT SCROLL_BOTTOM_EVENT
      DOUBLE_CLICK_EVENT fromJson event (Some (fst s)) in
  match action with
  | Some (TAP listIndex gestureTaps) =>
      (reduce (fst s) (TAP listIndex gestureTaps),
       handleTap cfg (snd s) listIndex (default 1 gestureTaps) now)
  | _ => s
  end.

End EventCallback.

(** ** The order lists of the settings page ([getOrderedIdsForCustomList]
    of [app.ts])

    A row of the list is an identifier and a display name.  For the
    devices the function walks the saved identifiers over the map of all
    the devices of the location itself, instead of calling a selector. *)
Definition OrderRow : Type := jsstring * jsstring.

Fixpoint settingsWalk (state : AppState) (customIds : list jsstring)
    (byId : list (jsstring * DeviceEntry)) (ordered : list OrderRow)
  : list OrderRow * list (jsstring * DeviceEntry) :=
  match customIds with
  | [] => (ordered, byId)
  | id :: ids =>
      match JsMap.get id byId with
      | Some d =>
          settingsWalk state ids (JsMap.delete id byId)
            (ordered ++ [(id, getDisplayName state id (deviceName d))])
      | None => settingsWalk state ids byId ordered
      end
  end.

Definition deviceRow (state : AppState) (d : DeviceEntry) : OrderRow :=
  (deviceId d, getDisplayName state (deviceId d) (deviceName d)).

Definition getOrderedIdsForCustomDevices
    (localeCompare : jsstring -> jsstring -> Z) (state : AppState)
  : list OrderRow :=
  let customIds := custom_devices (listOrderCustomIds (preferences state)) in
  let byId := JsMap.of_entries (map (fun d => (deviceId d, d)) (allDevices state)) in
  let '(ordered, byId') := settingsWalk state customIds byId [] in
  let rest := array_sort (byName localeCompare deviceName) (JsMap.values byId') in
  ordered ++ map (deviceRow state) rest.

(** ** Room statistics ([loadRoomStats] of [app.ts])

    [health d] is what [client.devices.getHealth] resolved to for [d], the
    [state] of the response, or a rejection; the two states the loader
    looks for are members of the SDK's [DeviceHealthState]. *)
Section RoomStats.

Variables ONLINE OFFLINE : jsstring.

Definition countHealth (health : DeviceEntry -> Outcome jsstring)
    (devices : list DeviceEntry) : Z * Z :=
  fold_left
    (fun counts d =>
       let '(online, offline) := counts in
       match health d with
       | Returns state =>
           if bool_decide (state = ONLINE) then (online + 1, offline)
           else if bool_decide (state = OFFLINE) then (online, offline + 1)
           else (online, offline)
       | Throws => (online, offline + 1)
       end)
    devices (0, 0).

(** The action that the loader dispatches. *)
Definition loadRoomStats (state : AppState)
    (health : DeviceEntry -> Outcome jsstring) : DataAction :=
  let devices := devices state in
  if Z.of_nat (length devices) =? 0 then STATS_ROOM None
  else
    let '(online, offline) := countHealth health devices in
    STATS_ROOM (Some {| total := Z.of_nat (length devices);
                        online := online; offline := offline |}).

End RoomStats.

(** A device that the loader counts as on line, and one that it counts as
    off line: a failed health check counts as off line. *)
Definition isOnline (ONLINE : jsstring) (health : DeviceEntry -> Outcome jsstring)
    (d : DeviceEntry) : bool :=
  match health d with
  | Returns state => bool_decide (state = ONLINE)
  | Throws => false
  end.

Definition isOffline (ONLINE OFFLINE : jsstring)
    (health : DeviceEntry -> Outcome jsstring) (d : DeviceEntry) : bool :=
  match health d with
  | Returns state =>
      negb (bool_decide (state = ONLINE)) && bool_decide (state = OFFLINE)
  | Throws => true
  end.

(** ** The list container ([buildListContainers] of [render/composer.ts])

    Of the container handed to the SDK, the fields computed from the
    state: the height, the number of items and their names. *)
Definition DISPLAY_HEIGHT : Z := 288.
Definition LIST_ITEM_HEIGHT : Z := 48.

Record ListContainer := {
  container_height : Z;
  itemCount : Z;
  itemName : list jsstring }.

Definition buildListContainers (localeCompare : jsstring -> jsstring -> Z)
    (state : AppState) : ListContainer :=
  let itemNames := listItemNamesForState localeCompare state in
  let listHeight :=
    Z.min DISPLAY_HEIGHT (Z.max 1 (Z.of_nat (length itemNames)) * LIST_ITEM_HEIGHT) in
  {| container_height := listHeight;
     itemCount := Z.of_nat (length itemNames);
     itemName := itemNames |}.

(** ** Other truncations ([truncateSceneName] of [state/selectors.ts],
    [truncateStatsName] of [render/composer.ts]) *)

Definition STATS_NAME_MAX_LEN : Z := 28.

Definition truncateSceneName (name : jsstring) (maxLen : Z) : jsstring :=
  if jslength name <=? maxLen then name
  else slice name 0 (maxLen - 1) ++ ELLIPSIS.

Definition truncateStatsName (name fallback : jsstring) : jsstring :=
  let n := or_else name fallback in
  if jslength n <=? STATS_NAME_MAX_LEN then n
  else slice n 0 (STATS_NAME_MAX_LEN - 3) ++ js "...".

(** The pages of a view partition its collection: there is one window of
    the collection for each page, the windows taken in page order
    concatenate to the collection, and the labels composed for page [p]
    are exactly the leading controls, the labels of the entities of the
    window of [p] in order, empty padding slots, and Next unless the page
    is the last one. *)
Definition pagesPartition {T} (items : list T) (label : T -> jsstring)
    (lead : Z -> list jsstring) (totalPages : Z)
    (labelsOf : Z -> list jsstring) : Prop :=
  exists windows : list (list T),
    Z.of_nat (length windows) = totalPages
    /\ concat windows = items
    /\ forall p window, index windows p = Some window ->
         exists padding,
           labelsOf p
           = lead p ++ map label window ++ pageTail padding p totalPages.

(** ** A state the router reaches after a visit to a room

    From the initial state a tap on the first entry of the main menu opens
    the rooms list; the rooms arrive; a tap on the room opens its devices;
    the devices arrive; a double tap leads back to the rooms list. *)

Definition exampleRoom : RoomEntry :=
  {| roomId := js "room-1"; roomName := js "Kitchen" |}.

Definition afterRoomVisit : AppState :=
  let tap state slot count :=
    applyEffects state (commitTap codeUnitCompare state slot count) in
  let roomsList := tap Examples.initialState 0 1 in
  let roomsLoaded := reduceData codeUnitCompare roomsList (ROOMS_LOADED [exampleRoom]) in
  let devicesList := tap roomsLoaded 1 1 in
  let devicesLoaded :=
    reduceData codeUnitCompare devicesList (DEVICES_LOADED [Examples.device 1]) in
  tap devicesLoaded 0 2.

(** *** Gestures at one position *)

(** The taps of a gesture at [position] as labels; a tap is a pair
    (gestureTaps, time). *)
Definition tapsAt (position : Z) (taps : list (Z * Z)) : list Label :=
  map (fun e => Tapped position (fst e) (snd e)) taps.

(** Each tap arrives before the commit that the tap before it scheduled
    is due. *)
Fixpoint beforeCommit (commitWindow prevTime : Z) (taps : list (Z * Z)) : Prop :=
  match taps with
  | [] => True
  | (_, t) :: rest =>
      t < prevTime + commitWindow /\ beforeCommit commitWindow t rest
  end.

(** The gesture [taps] at [position], whose last tap is handled at
    [lastTime], commits as [count] from the session [g].  In every run of
    the session whose taps are these, the taps are handled one after the
    other with nothing committed in between, and then either the commit of
    [position] with [count] is pending, due [TAP_COMMIT_MS] after the last
    tap, or it has been made, once, no earlier than that, and has left the
    session idle; a run that goes on to that time or beyond has made it. *)
Definition commitsAs (cfg : GestureConfig) (g : GestureSession)
    (position : Z) (taps : list (Z * Z)) (lastTime count : Z) : Prop :=
  forall (clock : Z) (labels : list Label) (s' : Z * GestureSession),
    run cfg (clock, g) labels s' ->
    tapsOf labels = tapsAt position taps ->
    ((labels = tapsAt position taps
      /\ fst s' = lastTime
      /\ commitTimeoutId (snd s') = Some (lastTime + TAP_COMMIT_MS cfg)
      /\ committed (snd s') = (position, count))
     \/ (labels = tapsAt position taps ++ [Committed position count]
         /\ lastTime + TAP_COMMIT_MS cfg <= fst s'
         /\ lastTapIndex (snd s') = -1 /\ tapCount (snd s') = 0
         /\ commitTimeoutId (snd s') = None))
    /\ (lastTime + TAP_COMMIT_MS cfg <= fst s' ->
        labels = tapsAt position taps ++ [Committed position count]).

(** A device is selected only on the two device screens: on every other
    screen the selected device identifier is [null]. *)
Definition deviceOnlyOnDeviceScreens (state : AppState) : Prop :=
  isDeviceScoped (listView state) = false -> selectedDeviceId state = None.

(** * Properties *)

(** ** Batch outcome *)

Lemma countSuccesses_from {A} (ok : A -> bool) (targets : list A) (k : Z) :
  fold_left (fun successCount d => if ok d then successCount + 1 else successCount)
            targets k
  = k + Z.of_nat (length (List.filter ok targets)).
Proof.
  revert k; induction targets as [|d targets IH]; intros k; simpl.
  - lia.
  - rewrite IH. destruct (ok d); simpl; lia.
Qed.

(** The batch runner classifies with the number of targets and the number
    of those that succeeded. *)
Lemma runAllDevicesInRoomSwitch_counts (state : AppState) (ok : DeviceEntry -> bool) :
  let targets := List.filter (fun d => truthy (supportsSwitch d)) (devices state) in
  targets <> [] ->
  runAllDevicesInRoomSwitch state ok
  = confirmationResultFromCounts (Z.of_nat (length (List.filter ok targets)))
                                 (Z.of_nat (length targets)).
Proof.
  intros targets Hne. unfold runAllDevicesInRoomSwitch. fold targets.
  destruct targets as [|d ds]; [congruence|].
  replace (Z.of_nat (length (d :: ds)) =? 0) with false
    by (symmetry; apply Z.eqb_neq; simpl; lia).
  unfold countSuccesses. rewrite countSuccesses_from. reflexivity.
Qed.

(** C7. A batch of [n >= 1] per-device actions of which [k] succeeded is
    classified as a success exactly when [k = n], as a failure exactly
    when [k = 0], and as partial in every other case. *)
Theorem batch_outcome_classification (k n : Z) :
  1 <= n ->
  (confirmationResultFromCounts k n = Success <-> k = n)
  /\ (confirmationResultFromCounts k n = Failure <-> k = 0)
  /\ (confirmationResultFromCounts k n = Partial <-> k <> n /\ k <> 0).
Proof.
  intros Hn. unfold confirmationResultFromCounts.
  destruct (Z.eqb_spec n 0) as [->|Hn0]; [lia|].
  destruct (Z.eqb_spec k 0) as [->|Hk0]; simpl;
    [|destruct (Z.eqb_spec k n) as [->|Hkn]];
    (split; [|split]); split; intros H;
    try discriminate; try reflexivity; try lia; try tauto.
Qed.

Lemma batch_outcome_classification_witness :
  1 <= 3
  /\ (confirmationResultFromCounts 2 3 = Success <-> 2 = 3)
  /\ (confirmationResultFromCounts 2 3 = Failure <-> 2 = 0)
  /\ (confirmationResultFromCounts 2 3 = Partial <-> 2 <> 3 /\ 2 <> 0).
Proof. split; [lia | apply (batch_outcome_classification 2 3); lia]. Defined.

(** ** Input mapper *)

(** The claim of C6 fails on list events that are neither a click nor a
    double click: one without a type code, one with the code of another
    member of the SDK's enumeration, and one with a code the SDK knows no
    member for are all answered with a single tap at the event's
    position. *)
Lemma unrecognized_list_event_is_a_tap :
  EvenHubSdk.mapEvenHubEvent (Some Examples.untypedListEvent) None
  = Some (TAP 2 (Some 1))
  /\ EvenHubSdk.mapEvenHubEvent (Some Examples.foregroundListEvent) None
     = Some (TAP 2 (Some 1))
  /\ EvenHubSdk.fromJson 99 = Returns None
  /\ EvenHubSdk.mapEvenHubEvent (Some Examples.unknownListEvent) None
     = Some (TAP 2 (Some 1)).
Proof. repeat split. Qed.

(** A list event without a type code is a tap whatever the SDK does. *)
Lemma untyped_list_event_is_a_tap
    (CLICK_EVENT SCROLL_TOP_EVENT SCROLL_BOTTOM_EVENT DOUBLE_CLICK_EVENT : Z)
    (fromJson : Z -> Outcome (option Z)) (state : option AppState) :
  mapEvenHubEvent CLICK_EVENT SCROLL_TOP_EVENT SCROLL_BOTTOM_EVENT
                  DOUBLE_CLICK_EVENT fromJson
                  (Some Examples.untypedListEvent) state
  = Some (TAP 2 (Some 1)).
Proof.
  unfold mapEvenHubEvent, mapListEvent. simpl.
  destruct (bool_decide (None = Some DOUBLE_CLICK_EVENT)) eqn:Hdouble.
  - apply bool_decide_eq_true in Hdouble. discriminate Hdouble.
  - destruct (bool_decide (None = Some CLICK_EVENT)); reflexivity.
Qed.

Section InputMapperProperties.

Variables CLICK_EVENT SCROLL_TOP_EVENT SCROLL_BOTTOM_EVENT DOUBLE_CLICK_EVENT : Z.
Variable fromJson : Z -> Outcome (option Z).

Local Abbreviation mapEvent :=
  (mapEvenHubEvent CLICK_EVENT SCROLL_TOP_EVENT SCROLL_BOTTOM_EVENT
                   DOUBLE_CLICK_EVENT fromJson).

Lemma mapListEvent_taps (le : ListEvent) (a : Action) :
  mapListEvent CLICK_EVENT SCROLL_TOP_EVENT SCROLL_BOTTOM_EVENT
               DOUBLE_CLICK_EVENT fromJson le = Some a ->
  exists i t, a = TAP i (Some t) /\ (t = 1 \/ t = 2).
Proof.
  unfold mapListEvent.
  destruct (normalizeEventType fromJson (list_eventType le)) as [e|];
    [|discriminate].
  repeat match goal with
         | |- context [if ?b then _ else _] => destruct b
         end; intros H; inversion H; eauto.
Qed.

(** What the mapper makes of a list event: a tap at the position of the
    event (0 when it carries none), counted twice exactly when the raw
    code is 3 or the SDK reads the code as a double click, else once. *)
Lemma mapListEvent_exact (le : ListEvent) (a : Action) :
  mapListEvent CLICK_EVENT SCROLL_TOP_EVENT SCROLL_BOTTOM_EVENT
               DOUBLE_CLICK_EVENT fromJson le = Some a ->
  exists t,
    a = TAP (default 0 (currentSelectItemIndex le)) (Some t)
    /\ (t = 1 \/ t = 2)
    /\ (t = 2 <->
        list_eventType le = Some 3
        \/ normalizeEventType fromJson (list_eventType le)
           = Returns (Some DOUBLE_CLICK_EVENT)).
Proof.
  unfold mapListEvent.
  destruct (normalizeEventType fromJson (list_eventType le)) as [e|];
    [|discriminate]. cbv zeta.
  destruct (bool_decide_reflect (list_eventType le = Some 3)) as [Hraw|Hraw];
    [intros [= <-]; exists 2; repeat split; auto|].
  destruct (bool_decide_reflect (e = Some DOUBLE_CLICK_EVENT)) as [Hdouble|Hdouble];
    [intros [= <-]; exists 2; subst e; repeat split; auto|].
  cbn [orb].
  assert (Hsingle : forall t, t = 1 ->
            t = 2 <-> list_eventType le = Some 3
                      \/ Returns e = Returns (Some DOUBLE_CLICK_EVENT)).
  { intros t ->. split; [discriminate|]. intros [H|H]; [contradiction|].
    injection H as ->. contradiction. }
  destruct (_ || _); [intros [= <-]; exists 1; repeat split; auto; apply Hsingle; reflexivity|].
  destruct (_ && _); [|discriminate].
  intros [= <-]. exists 1. repeat split; auto; apply Hsingle; reflexivity.
Qed.

(** C6 (amended). The mapper returns no action exactly when the event is
    absent, or when it is not a system double tap (code 3) and either has
    no list payload, or the SDK fails on its type code, or its list
    payload is a scroll-top or scroll-bottom event (and neither a click
    nor a double click).  Every other list event - a click, a double
    click, one without a type code, one with any other type code - is
    mapped to a tap, counted once or twice: a tap at the position the event
    carries (0 when it carries none), counted twice exactly for a double
    click.  A system event with code 3 is mapped to a double tap at the
    focused index of the state (0 when no state is given), whatever list
    payload the event has. *)
Theorem mapper_drops_only_scrolls (event : option EvenHubEvent)
    (state : option AppState) :
  (mapEvent event state = None <->
   match event with
   | None => True
   | Some ev =>
       (forall se, sysEvent ev = Some se -> sys_eventType se <> Some 3)
       /\ match listEvent ev with
          | None => True
          | Some le =>
              match normalizeEventType fromJson (list_eventType le) with
              | Throws => True
              | Returns eventType =>
                  list_eventType le <> Some 3
                  /\ eventType <> Some DOUBLE_CLICK_EVENT
                  /\ eventType <> Some CLICK_EVENT
                  /\ eventType <> None
                  /\ (eventType = Some SCROLL_TOP_EVENT
                      \/ eventType = Some SCROLL_BOTTOM_EVENT)
              end
          end
   end)
  /\ (forall a, mapEvent event state = Some a ->
                exists i t, a = TAP i (Some t) /\ (t = 1 \/ t = 2))
  /\ (forall ev se,
         event = Some ev -> sysEvent ev = Some se -> sys_eventType se = Some 3 ->
         mapEvent event state
         = Some (TAP (default 0 (focusedListIndex <$> state)) (Some 2)))
  /\ (forall ev le a,
         event = Some ev ->
         (forall se, sysEvent ev = Some se -> sys_eventType se <> Some 3) ->
         listEvent ev = Some le ->
         mapEvent event state = Some a ->
         exists t,
           a = TAP (default 0 (currentSelectItemIndex le)) (Some t)
           /\ (t = 1 \/ t = 2)
           /\ (t = 2 <->
               list_eventType le = Some 3
               \/ normalizeEventType fromJson (list_eventType le)
                  = Returns (Some DOUBLE_CLICK_EVENT))).
Proof.
  split; [|split; [|split]].
  - destruct event as [ev|]; simpl; [|tauto].
    destruct (sysEvent ev) as [se|] eqn:Hsys.
    + destruct (bool_decide_reflect (sys_eventType se = Some 3)) as [H3|H3].
      * split; [discriminate|]. intros [Hno _]. destruct (Hno se eq_refl H3).
      * transitivity
          (match listEvent ev with
           | Some le =>
               mapListEvent CLICK_EVENT SCROLL_TOP_EVENT SCROLL_BOTTOM_EVENT
                            DOUBLE_CLICK_EVENT fromJson le = None
           | None => True
           end).
        { destruct (listEvent ev); tauto. }
        destruct (listEvent ev) as [le|].
        2:{ split; [|tauto]. intros _. split; [|exact I].
            intros se' Hse'. inversion Hse'; subst. exact H3. }
        unfold mapListEvent.
        destruct (normalizeEventType fromJson (list_eventType le)) as [e|].
        2:{ split; [|tauto]. intros _. split; [|exact I].
            intros se' Hse'. inversion Hse'; subst. exact H3. }
        repeat match goal with
               | |- context [bool_decide ?P] =>
                   destruct (bool_decide_reflect P)
               end; simpl; split; try discriminate; try tauto;
          intros _; (split; [intros se' Hse'; inversion Hse'; subst; exact H3|]);
          tauto.
    + destruct (listEvent ev) as [le|].
      2:{ split; [|tauto]. intros _. split; [discriminate|exact I]. }
      unfold mapListEvent.
      destruct (normalizeEventType fromJson (list_eventType le)) as [e|].
      2:{ split; [|tauto]. intros _. split; [discriminate|exact I]. }
      repeat match goal with
             | |- context [bool_decide ?P] =>
                 destruct (bool_decide_reflect P)
             end; simpl; split; try discriminate; try tauto;
        intros _; (split; [discriminate|]); tauto.
  - intros a. destruct event as [ev|]; simpl; [|discriminate].
    destruct (sysEvent ev) as [se|].
    + destruct (bool_decide (sys_eventType se = Some 3)).
      * intros H; inversion H; eauto.
      * destruct (listEvent ev) as [le|]; [|discriminate].
        apply mapListEvent_taps.
    + destruct (listEvent ev) as [le|]; [|discriminate].
      apply mapListEvent_taps.
  - intros ev se -> Hsys Hcode. simpl. rewrite Hsys.
    rewrite bool_decide_eq_true_2 by exact Hcode. reflexivity.
  - intros ev le a -> Hnot Hlist. simpl. rewrite Hlist.
    destruct (sysEvent ev) as [se|].
    + rewrite bool_decide_eq_false_2 by (apply Hnot; reflexivity).
      apply mapListEvent_exact.
    + apply mapListEvent_exact.
Qed.

End InputMapperProperties.

(** An instance of the theorem on the SDK's codes: a scroll-bottom list
    event is dropped. *)
Lemma mapper_drops_only_scrolls_witness :
  EvenHubSdk.mapEvenHubEvent
    (Some {| sysEvent := None;
             listEvent := Some {| list_eventType := Some 2;
                                  currentSelectItemIndex := Some 5 |} |})
    None = None.
Proof.
  apply (mapper_drops_only_scrolls
           EvenHubSdk.CLICK_EVENT EvenHubSdk.SCROLL_TOP_EVENT
           EvenHubSdk.SCROLL_BOTTOM_EVENT EvenHubSdk.DOUBLE_CLICK_EVENT
           EvenHubSdk.fromJson).
  simpl. split; [discriminate|].
  repeat split; try discriminate. right. reflexivity.
Defined.

(** A system double tap on the glasses is mapped to a double tap at the
    focused slot, and without a state at slot 0. *)
Example system_double_tap_at_focused_index :
  let event := Some {| sysEvent := Some {| sys_eventType := Some 3 |};
                       listEvent := None |} in
  EvenHubSdk.mapEvenHubEvent event
    (Some (reduce Examples.initialState (TAP 4 (Some 1))))
  = Some (TAP 4 (Some 2))
  /\ EvenHubSdk.mapEvenHubEvent event None = Some (TAP 0 (Some 2)).
Proof. split; reflexivity. Qed.

(** ** Slices, padding and label widths *)

Lemma slice_In {A} (l : list A) (a b : Z) (x : A) :
  In x (slice l a b) -> In x l.
Proof.
  unfold slice. intros H.
  set (k := Z.to_nat (rel_index (Z.of_nat (length l)) a)) in *.
  rewrite <- (firstn_skipn k l). apply in_or_app. right.
  set (m := Z.to_nat _) in H.
  rewrite <- (firstn_skipn m (skipn k l)). apply in_or_app. left. exact H.
Qed.

(** A slice whose bounds lie inside the list. *)
Lemma slice_inside {A} (l : list A) (a b : Z) :
  0 <= a <= b -> b <= Z.of_nat (length l) ->
  slice l a b = firstn (Z.to_nat (b - a)) (skipn (Z.to_nat a) l).
Proof.
  intros Ha Hb. unfold slice, rel_index.
  destruct (Z.ltb_spec a 0); [lia|]. destruct (Z.ltb_spec b 0); [lia|].
  rewrite !Z.min_l by lia. reflexivity.
Qed.

(** A slice that starts inside the list and would end past it. *)
Lemma slice_to_end {A} (l : list A) (a b : Z) :
  0 <= a <= Z.of_nat (length l) -> Z.of_nat (length l) <= b ->
  slice l a b = skipn (Z.to_nat a) l.
Proof.
  intros Ha Hb. unfold slice, rel_index.
  destruct (Z.ltb_spec a 0); [lia|]. destruct (Z.ltb_spec b 0); [lia|].
  rewrite (Z.min_l a) by lia. rewrite (Z.min_r b) by lia.
  apply firstn_all2. rewrite length_skipn. lia.
Qed.

Lemma slice_length_inside {A} (l : list A) (a b : Z) :
  0 <= a <= b -> b <= Z.of_nat (length l) ->
  Z.of_nat (length (slice l a b)) = b - a.
Proof.
  intros Ha Hb. rewrite slice_inside by lia.
  rewrite length_firstn, length_skipn. lia.
Qed.

Lemma slice_length_to_end {A} (l : list A) (a b : Z) :
  0 <= a <= Z.of_nat (length l) -> Z.of_nat (length l) <= b ->
  Z.of_nat (length (slice l a b)) = Z.of_nat (length l) - a.
Proof.
  intros Ha Hb. rewrite slice_to_end by lia. rewrite length_skipn. lia.
Qed.

(** A slice of width [w] holds at most [w] elements, wherever it starts. *)
Lemma slice_width {A} (l : list A) (a w : Z) :
  0 <= w -> Z.of_nat (length (slice l a (a + w))) <= w.
Proof.
  intros Hw. unfold slice, rel_index. rewrite length_firstn, length_skipn.
  destruct (Z.ltb_spec a 0); destruct (Z.ltb_spec (a + w) 0); lia.
Qed.

Lemma jslength_app (a b : jsstring) : jslength (a ++ b) = jslength a + jslength b.
Proof. unfold jslength. rewrite length_app. lia. Qed.

(** The cut of a name that is too long: 63 code units and the ellipsis. *)
Lemma cut_long_name (n : jsstring) :
  LIST_ITEM_NAME_MAX_LEN < jslength n ->
  slice n 0 (LIST_ITEM_NAME_MAX_LEN - 1) ++ ELLIPSIS = firstn 63 n ++ ELLIPSIS
  /\ jslength (slice n 0 (LIST_ITEM_NAME_MAX_LEN - 1) ++ ELLIPSIS)
     = LIST_ITEM_NAME_MAX_LEN.
Proof.
  unfold LIST_ITEM_NAME_MAX_LEN, jslength. intros Hlen.
  rewrite slice_inside by lia.
  change (Z.to_nat (64 - 1 - 0)) with 63%nat.
  change (skipn (Z.to_nat 0) n) with n. split; [reflexivity|].
  rewrite length_app, length_firstn. change (length ELLIPSIS) with 1%nat. lia.
Qed.

Lemma truncateName_length (name fallback : jsstring) :
  jslength (truncateName name fallback) <= LIST_ITEM_NAME_MAX_LEN.
Proof.
  unfold truncateName.
  destruct (Z.leb_spec (jslength (or_else name fallback)) LIST_ITEM_NAME_MAX_LEN).
  - assumption.
  - destruct (cut_long_name (or_else name fallback)) as [_ ->]; lia.
Qed.

Lemma getDisplayName_length (state : AppState) (id fallback : jsstring) :
  jslength (getDisplayName state id fallback) <= LIST_ITEM_NAME_MAX_LEN.
Proof.
  unfold getDisplayName.
  set (n := or_else _ fallback).
  destruct (Z.leb_spec (jslength n) LIST_ITEM_NAME_MAX_LEN).
  - assumption.
  - destruct (cut_long_name n) as [_ ->]; lia.
Qed.

(** A name that fits is placed as it is (unless it is empty). *)
Lemma truncateName_fits (name fallback : jsstring) :
  name <> [] -> jslength name <= LIST_ITEM_NAME_MAX_LEN ->
  truncateName name fallback = name.
Proof.
  intros Hne Hlen. unfold truncateName.
  destruct name; [congruence|]. simpl or_else.
  destruct (Z.leb_spec (jslength (n :: name)) LIST_ITEM_NAME_MAX_LEN); [reflexivity|lia].
Qed.

Lemma fits_padding (n : Z) : Forall fits (array_fill n ([] : jsstring)).
Proof.
  unfold array_fill. apply List.Forall_forall. intros x Hx.
  apply repeat_spec in Hx. subst. unfold fits, jslength, LIST_ITEM_NAME_MAX_LEN. simpl. lia.
Qed.

Lemma fits_back : fits LABEL_BACK.
Proof. unfold fits, LIST_ITEM_NAME_MAX_LEN. vm_compute. discriminate. Qed.

Lemma fits_previous : fits LABEL_PREVIOUS.
Proof. unfold fits, LIST_ITEM_NAME_MAX_LEN. vm_compute. discriminate. Qed.

Lemma fits_next : fits LABEL_NEXT.
Proof. unfold fits, LIST_ITEM_NAME_MAX_LEN. vm_compute. discriminate. Qed.

Lemma fits_all : fits LABEL_ALL.
Proof. unfold fits, LIST_ITEM_NAME_MAX_LEN. vm_compute. discriminate. Qed.

Lemma fits_slice_map {T} (items : list T) (label : T -> jsstring) (a b : Z) :
  (forall x, fits (label x)) -> Forall fits (map label (slice items a b)).
Proof.
  intros H. apply List.Forall_forall. intros x Hx.
  apply in_map_iff in Hx. destruct Hx as (y & <- & _). apply H.
Qed.

Lemma fits_string_of_level (n : Z) : fits (string_of_level n).
Proof.
  unfold fits, string_of_level, jslength, LIST_ITEM_NAME_MAX_LEN.
  destruct (n <? 10); [simpl; lia|]. destruct (n <? 100); simpl; lia.
Qed.

Lemma fits_menu_label (item : MainMenuItem) : fits (MAIN_MENU_LABEL item).
Proof. unfold fits, LIST_ITEM_NAME_MAX_LEN. destruct item; vm_compute; discriminate. Qed.

Lemma fits_nil : fits [].
Proof. unfold fits, LIST_ITEM_NAME_MAX_LEN. vm_compute. discriminate. Qed.

Lemma fits_js (s : string) :
  (length (list_ascii_of_string s) <= 64)%nat -> fits (js s).
Proof.
  unfold fits, js, jslength, LIST_ITEM_NAME_MAX_LEN. rewrite length_map. lia.
Qed.

Lemma fits_loading : fits (js "Loading" ++ ELLIPSIS).
Proof. unfold fits, LIST_ITEM_NAME_MAX_LEN. vm_compute. discriminate. Qed.

Create HintDb fits.

#[local] Hint Resolve fits_padding fits_slice_map fits_string_of_level
  fits_menu_label fits_nil fits_loading truncateName_length
  getDisplayName_length : fits.

Ltac fits_list :=
  repeat first
    [ apply List.Forall_nil
    | apply List.Forall_cons
    | apply List.Forall_app; split
    | apply fits_padding
    | apply fits_back
    | apply fits_previous
    | apply fits_next
    | apply fits_all
    | apply fits_loading
    | apply fits_js; simpl; lia
    | apply fits_slice_map; intros; auto with fits ].

Lemma fits_paged {T} (items : list T) (label : T -> jsstring) (PER_PAGE page : Z) :
  (forall x, fits (label x)) ->
  Forall fits (pagedNamesForListView items label PER_PAGE page).
Proof.
  intros Hlabel. unfold pagedNamesForListView.
  repeat match goal with
         | |- context [if ?b then _ else _] => destruct b
         end; simpl; fits_list.
Qed.

Section LabelWidth.

Variable localeCompare : jsstring -> jsstring -> Z.

Lemma fits_scene_label st s : fits (sceneLabel st s).
Proof. apply truncateName_length. Qed.

Lemma fits_room_label st r : fits (roomLabel st r).
Proof. apply truncateName_length. Qed.

Lemma fits_device_label st d : fits (deviceLabel st d).
Proof. apply truncateName_length. Qed.

Lemma fits_favorite_label f : fits (favoriteLabel f).
Proof. apply truncateName_length. Qed.

Lemma fits_devices_view st : Forall fits (deviceNamesForListView localeCompare st).
Proof.
  unfold deviceNamesForListView.
  destruct (getOrderedDevices localeCompare st) as [|d ds].
  - destruct (devicesStatus st); fits_list.
  - set (devices := d :: ds).
    repeat match goal with
           | |- context [if ?b then _ else _] => destruct b
           end; simpl; fits_list; try apply fits_device_label.
Qed.

Lemma fits_dim_view st : Forall fits (dimLevelItemNames st).
Proof.
  unfold dimLevelItemNames.
  repeat match goal with
         | |- context [if ?b then _ else _] => destruct b
         end; simpl; fits_list.
Qed.


End LabelWidth.


(** ** Empty collections *)

(** The claim of C8 fails for favorites: the page of an empty favorites
    collection is not a single informational slot; it has two slots and
    its slot 0 is the Back control. *)
Lemma empty_favorites_page_has_two_slots :
  ~ (forall state : AppState,
        listView state = ViewFavorites ->
        getOrderedFavorites codeUnitCompare state = [] ->
        exists info, listItemNamesForState codeUnitCompare state = [info]).
Proof.
  intros H.
  destruct (H Examples.emptyFavorites eq_refl eq_refl) as [info Hinfo].
  vm_compute in Hinfo. discriminate Hinfo.
Qed.

Section Pages.

Variable localeCompare : jsstring -> jsstring -> Z.

(** C8 (amended). When the collection of a list view is empty the view
    has one page, and its labels are: for scenes, nothing while loading
    and the single slot "No scenes" otherwise; for rooms, a single
    informational slot chosen by the load status; for devices, Back
    followed by one informational slot chosen by the load status; for
    favorites, exactly Back and "No favorites". *)
Theorem empty_collection_page (state : AppState) :
  match listView state with
  | ViewScenes =>
      getOrderedScenes localeCompare state = [] ->
      listItemNamesForState localeCompare state
      = (if decide (status state = StatusLoading) then [] else [js "No scenes"])
      /\ getTotalPages localeCompare state = 1
  | ViewRooms =>
      getOrderedRooms localeCompare state = [] ->
      listItemNamesForState localeCompare state
      = [match roomsStatus state with
         | Loading => js "Loading" ++ ELLIPSIS
         | LoadError => js "Failed to load rooms"
         | _ => js "No rooms"
         end]
      /\ getTotalPages localeCompare state = 1
  | ViewDevices =>
      getOrderedDevices localeCompare state = [] ->
      listItemNamesForState localeCompare state
      = [LABEL_BACK;
         match devicesStatus state with
         | Loading => js "Loading" ++ ELLIPSIS
         | LoadError => js "Failed to load devices"
         | _ => js "No devices"
         end]
      /\ getTotalPages localeCompare state = 1
  | ViewFavorites =>
      getOrderedFavorites localeCompare state = [] ->
      listItemNamesForState localeCompare state = [LABEL_BACK; js "No favorites"]
      /\ getTotalPages localeCompare state = 1
  | _ => True
  end.
Proof.
  unfold listItemNamesForState, getTotalPages.
  destruct (listView state); try exact I; intros Hempty.
  - unfold sceneNamesForListView. rewrite Hempty. split; reflexivity.
  - unfold roomNamesForListView. rewrite Hempty.
    split; [destruct (roomsStatus state)|]; reflexivity.
  - unfold deviceNamesForListView. rewrite Hempty.
    split; [destruct (devicesStatus state)|]; reflexivity.
  - unfold favoriteNamesForListView. rewrite Hempty. split; reflexivity.
Qed.

(** C1 (amended). With 25 ordered devices the devices view has two
    pages.  Page 0 shows Back, "All", the first 15 devices, one empty
    padding slot and Next (19 slots); page 1 shows Previous and the
    devices 15 to 24, and no Next (11 slots). *)
Theorem devices_view_with_25_devices (state : AppState) :
  listView state = ViewDevices ->
  length (getOrderedDevices localeCompare state) = 25%nat ->
  let devices := getOrderedDevices localeCompare state in
  getTotalPages localeCompare state = 2
  /\ (listPageIndex state = 0 ->
      listItemNamesForState localeCompare state
      = [LABEL_BACK; LABEL_ALL]
          ++ map (deviceLabel state) (firstn 15 devices)
          ++ [[]; LABEL_NEXT])
  /\ (listPageIndex state = 1 ->
      listItemNamesForState localeCompare state
      = LABEL_PREVIOUS :: map (deviceLabel state) (skipn 15 devices)).
Proof.
  intros Hview Hlen. cbv zeta.
  unfold listItemNamesForState, getTotalPages, deviceNamesForListView.
  rewrite Hview.
  destruct (getOrderedDevices localeCompare state) as [|d0 devices];
    [discriminate Hlen|].
  do 24 (destruct devices as [|? devices]; [discriminate Hlen|]).
  destruct devices; [|discriminate Hlen].
  split; [reflexivity|]. split; intros ->; reflexivity.
Qed.

End Pages.

Lemma empty_collection_page_witness :
  listItemNamesForState codeUnitCompare Examples.emptyFavorites
  = [LABEL_BACK; js "No favorites"]
  /\ getTotalPages codeUnitCompare Examples.emptyFavorites = 1.
Proof.
  apply (empty_collection_page codeUnitCompare Examples.emptyFavorites).
  reflexivity.
Defined.

(** The claim of C1 fails on the first page: it does not hold the first
    17 devices between "All" and Next, and it has 19 slots, not 20. *)
Lemma devices_first_page_is_not_17_devices :
  length (getOrderedDevices codeUnitCompare (Examples.state25 0)) = 25%nat
  /\ listItemNamesForState codeUnitCompare (Examples.state25 0)
     <> [LABEL_BACK; LABEL_ALL]
          ++ map (deviceLabel (Examples.state25 0))
                 (firstn 17 (getOrderedDevices codeUnitCompare (Examples.state25 0)))
          ++ [LABEL_NEXT]
  /\ length (listItemNamesForState codeUnitCompare (Examples.state25 0)) = 19%nat.
Proof. vm_compute. repeat split. discriminate. Qed.

Lemma devices_view_with_25_devices_witness :
  listItemNamesForState codeUnitCompare (Examples.state25 1)
  = LABEL_PREVIOUS
      :: map (deviceLabel (Examples.state25 1))
             (skipn 15 (getOrderedDevices codeUnitCompare (Examples.state25 1))).
Proof.
  apply (devices_view_with_25_devices codeUnitCompare (Examples.state25 1));
    vm_compute; reflexivity.
Defined.

(** ** Sorting *)

Section Sorting.

Context {A : Type} (cmp : A -> A -> Z).

Lemma sort_insert_Permutation (x : A) (l : list A) :
  Permutation (sort_insert cmp x l) (x :: l).
Proof.
  induction l as [|y l IH]; simpl.
  - reflexivity.
  - destruct (cmp x y <=? 0).
    + reflexivity.
    + rewrite IH. apply perm_swap.
Qed.

Lemma array_sort_Permutation (l : list A) : Permutation (array_sort cmp l) l.
Proof.
  induction l as [|x l IH]; simpl.
  - reflexivity.
  - rewrite sort_insert_Permutation. apply perm_skip, IH.
Qed.

Lemma array_sort_length (l : list A) : length (array_sort cmp l) = length l.
Proof. apply Permutation_length, array_sort_Permutation. Qed.

Hypothesis cmp_total : forall a b, cmp a b <= 0 \/ cmp b a <= 0.
Hypothesis cmp_trans : forall a b c, cmp a b <= 0 -> cmp b c <= 0 -> cmp a c <= 0.

Lemma sort_insert_sorted (x : A) (l : list A) :
  StronglySorted (before cmp) l -> StronglySorted (before cmp) (sort_insert cmp x l).
Proof.
  induction 1 as [|y l Hl IH Hy]; simpl.
  - constructor; constructor.
  - destruct (Z.leb_spec (cmp x y) 0) as [Hxy|Hxy].
    + constructor; [constructor; assumption|].
      constructor; [exact Hxy|].
      eapply List.Forall_impl; [|exact Hy]. intros z Hz. eapply cmp_trans; eassumption.
    + constructor; [exact IH|].
      eapply Permutation_Forall; [symmetry; apply sort_insert_Permutation|].
      constructor; [|exact Hy].
      destruct (cmp_total x y); [lia|assumption].
Qed.

Lemma array_sort_sorted (l : list A) : StronglySorted (before cmp) (array_sort cmp l).
Proof.
  induction l as [|x l IH]; simpl.
  - constructor.
  - apply sort_insert_sorted, IH.
Qed.

End Sorting.

(** ** Insertion-ordered maps *)

Section MapFacts.

Context {V : Type}.
Implicit Types (m : list (jsstring * V)) (k : jsstring) (v : V).

Lemma set_fresh k v m :
  ~ In k (JsMap.keys m) -> JsMap.set k v m = m ++ [(k, v)].
Proof.
  induction m as [|[k' v'] m IH]; simpl; intros Hk.
  - reflexivity.
  - destruct (decide (k = k')) as [->|Hne]; [tauto|].
    rewrite IH by tauto. reflexivity.
Qed.

Lemma set_length k v m : (length (JsMap.set k v m) <= S (length m))%nat.
Proof.
  induction m as [|[k' v'] m IH]; simpl; [lia|].
  destruct (decide (k = k')); simpl; lia.
Qed.

Lemma fold_set_fresh (l acc : list (jsstring * V)) :
  List.NoDup (map fst (acc ++ l)) ->
  fold_left (fun m kv => JsMap.set (fst kv) (snd kv) m) l acc = acc ++ l.
Proof.
  revert acc; induction l as [|[k v] l IH]; intros acc Hnd; simpl.
  - rewrite app_nil_r. reflexivity.
  - rewrite set_fresh.
    + rewrite IH; rewrite <- app_assoc; [reflexivity|exact Hnd].
    + rewrite map_app in Hnd. simpl in Hnd.
      apply NoDup_remove_2 in Hnd. intros Hin. apply Hnd.
      apply in_or_app. left. exact Hin.
Qed.

(** A collection with unique keys is loaded as it is. *)
Lemma of_entries_unique (l : list (jsstring * V)) :
  List.NoDup (map fst l) -> JsMap.of_entries l = l.
Proof. intros H. unfold JsMap.of_entries. rewrite fold_set_fresh; [reflexivity|exact H]. Qed.

Lemma fold_set_length (l acc : list (jsstring * V)) :
  (length (fold_left (fun m kv => JsMap.set (fst kv) (snd kv) m) l acc)
   <= length acc + length l)%nat.
Proof.
  revert acc; induction l as [|[k v] l IH]; intros acc; simpl; [lia|].
  specialize (IH (JsMap.set k v acc)). pose proof (set_length k v acc). lia.
Qed.

Lemma of_entries_length (l : list (jsstring * V)) :
  (length (JsMap.of_entries l) <= length l)%nat.
Proof. unfold JsMap.of_entries. pose proof (fold_set_length l []). simpl in *. lia. Qed.

Lemma get_None k m : JsMap.get k m = None -> ~ In k (JsMap.keys m).
Proof.
  induction m as [|[k' v'] m IH]; simpl; [tauto|].
  destruct (decide (k = k')); [discriminate|].
  intros H [?|?]; [congruence|]. apply IH; assumption.
Qed.

Lemma get_Some k v m :
  JsMap.get k m = Some v -> Permutation m ((k, v) :: JsMap.delete k m).
Proof.
  induction m as [|[k' v'] m IH]; simpl; [discriminate|].
  destruct (decide (k = k')) as [->|Hne].
  - intros [= ->]. reflexivity.
  - intros H. rewrite (IH H) at 1. apply perm_swap.
Qed.

Lemma delete_keys k m :
  List.NoDup (JsMap.keys m) ->
  List.NoDup (JsMap.keys (JsMap.delete k m)) /\ ~ In k (JsMap.keys (JsMap.delete k m))
  /\ (forall k', In k' (JsMap.keys (JsMap.delete k m)) -> In k' (JsMap.keys m)).
Proof.
  induction m as [|[k' v'] m IH]; simpl; intros Hnd.
  - split; [constructor|]. split; auto.
  - inversion Hnd as [|? ? Hk' Hm]; subst.
    destruct (decide (k = k')) as [->|Hne]; simpl.
    + repeat split; auto.
    + destruct (IH Hm) as (H1 & H2 & H3). repeat split.
      * constructor; [|exact H1]. intros Hin. apply Hk', H3, Hin.
      * intros [?|?]; [congruence|tauto].
      * intros k'' [?|?]; [left; assumption|right; apply H3; assumption].
Qed.

End MapFacts.

(** ** Custom order *)

Lemma customWalk_spec {T} (customIds : list jsstring)
    (byId : list (jsstring * T)) (ordered : list T) :
  List.NoDup (JsMap.keys byId) ->
  exists moved,
    fst (customWalk customIds byId ordered) = ordered ++ JsMap.values moved
    /\ Permutation byId (moved ++ snd (customWalk customIds byId ordered))
    /\ (forall e, In e moved -> In (fst e) customIds)
    /\ (forall e, In e (snd (customWalk customIds byId ordered)) ->
                  ~ In (fst e) customIds).
Proof.
  revert byId ordered.
  induction customIds as [|id ids IH]; intros byId ordered Hnd; simpl.
  - exists []. simpl. rewrite app_nil_r. repeat split; auto; tauto.
  - destruct (JsMap.get id byId) as [item|] eqn:Hget.
    + destruct (delete_keys id byId Hnd) as (Hnd' & Hid & Hsub).
      destruct (IH (JsMap.delete id byId) (ordered ++ [item]) Hnd')
        as (moved & Hfst & Hperm & Hmoved & Hrest).
      exists ((id, item) :: moved). repeat split.
      * rewrite Hfst. rewrite <- app_assoc. reflexivity.
      * etransitivity; [apply get_Some; exact Hget|]. simpl. apply perm_skip, Hperm.
      * intros e [<-|He]; [left; reflexivity|right; apply Hmoved, He].
      * intros e He Hin. destruct Hin as [Heq|Hin].
        2:{ exact (Hrest e He Hin). }
        subst id. apply Hid.
        apply in_map. eapply Permutation_in; [symmetry; exact Hperm|].
        apply in_or_app. right. exact He.
    + destruct (IH byId ordered Hnd) as (moved & Hfst & Hperm & Hmoved & Hrest).
      exists moved. repeat split; auto.
      intros e He Hin. destruct Hin as [Heq|Hin].
      2:{ exact (Hrest e He Hin). }
      subst id. apply (get_None _ _ Hget).
      apply in_map. eapply Permutation_in; [symmetry; exact Hperm|].
      apply in_or_app. right. exact He.
Qed.

Lemma customWalk_length {T} (customIds : list jsstring)
    (byId : list (jsstring * T)) (ordered : list T) :
  (length (fst (customWalk customIds byId ordered))
   + length (snd (customWalk customIds byId ordered))
   <= length ordered + length byId)%nat.
Proof.
  revert byId ordered.
  induction customIds as [|id ids IH]; intros byId ordered; simpl; [lia|].
  destruct (JsMap.get id byId) as [item|] eqn:Hget.
  - specialize (IH (JsMap.delete id byId) (ordered ++ [item])).
    apply get_Some, Permutation_length in Hget. simpl in Hget.
    rewrite length_app in IH. simpl in IH. lia.
  - apply IH.
Qed.

Section OrderingProperties.

Variable localeCompare : jsstring -> jsstring -> Z.

(** No ordering makes a collection longer. *)
Lemma applyOrder_length {T} (items : list T) (getKey getName : T -> jsstring)
    (preference : ListOrderPreference) (customIds : list jsstring) :
  (length (applyOrder localeCompare items getKey getName preference customIds)
   <= length items)%nat.
Proof.
  unfold applyOrder. destruct preference.
  - rewrite array_sort_length. lia.
  - rewrite length_rev, array_sort_length. lia.
  - set (byId := JsMap.of_entries _).
    pose proof (customWalk_length customIds byId []) as Hwalk.
    destruct (customWalk customIds byId []) as [ordered byId'].
    simpl in Hwalk. rewrite length_app, array_sort_length.
    unfold JsMap.values. rewrite length_map.
    pose proof (of_entries_length (map (fun item => (getKey item, item)) items)) as Hload.
    fold byId in Hload. rewrite length_map in Hload. lia.
Qed.

(** C3. Under the custom preference, a collection with unique identifiers
    is permuted: the output holds exactly the entities of the collection,
    each identifier once, whatever the explicit list holds.  The output is
    the entities the list refers to followed by the others, and these are
    in alphabetical order (for a collation that is a total preorder). *)
Theorem custom_order_is_permutation {T} (items : list T)
    (getKey getName : T -> jsstring) (customIds : list jsstring) :
  List.NoDup (map getKey items) ->
  let ordered := applyOrder localeCompare items getKey getName Custom customIds in
  Permutation ordered items
  /\ List.NoDup (map getKey ordered)
  /\ (forall id, In id (map getKey ordered) <-> In id (map getKey items))
  /\ exists referenced rest,
       ordered = referenced ++ rest
       /\ (forall x, In x referenced <-> In x items /\ In (getKey x) customIds)
       /\ (forall x, In x rest <-> In x items /\ ~ In (getKey x) customIds)
       /\ ((forall a b, localeCompare a b <= 0 \/ localeCompare b a <= 0) ->
           (forall a b c, localeCompare a b <= 0 -> localeCompare b c <= 0 ->
                          localeCompare a c <= 0) ->
           StronglySorted (before (byName localeCompare getName)) rest).
Proof.
  intros Hnd ordered. subst ordered. unfold applyOrder.
  set (entries := map (fun item => (getKey item, item)) items).
  assert (Hkeys : map fst entries = map getKey items).
  { unfold entries. rewrite map_map. reflexivity. }
  assert (Hvalues : JsMap.values entries = items).
  { unfold JsMap.values, entries. rewrite map_map. apply map_id. }
  assert (Hentry : forall e, In e entries -> fst e = getKey (snd e) /\ In (snd e) items).
  { intros e He. apply in_map_iff in He. destruct He as (x & <- & Hx). auto. }
  rewrite of_entries_unique by (rewrite Hkeys; exact Hnd).
  assert (Hnd' : List.NoDup (JsMap.keys entries))
    by (unfold JsMap.keys; rewrite Hkeys; exact Hnd).
  destruct (customWalk_spec customIds entries [] Hnd')
    as (moved & Hfst & Hperm & Hmoved & Hrest).
  destruct (customWalk customIds entries []) as [referenced byId'].
  simpl in Hfst, Hperm, Hrest. subst referenced.
  set (rest := array_sort (byName localeCompare getName) (JsMap.values byId')).
  assert (Hrest_perm : Permutation rest (JsMap.values byId'))
    by apply array_sort_Permutation.
  assert (Hall : Permutation (JsMap.values moved ++ rest) items).
  { rewrite Hrest_perm. unfold JsMap.values. rewrite <- map_app.
    rewrite <- Hperm. fold (JsMap.values entries). rewrite Hvalues. reflexivity. }
  split; [exact Hall|].
  split; [eapply Permutation_NoDup; [|exact Hnd];
          symmetry; apply Permutation_map, Hall|].
  split.
  { intros id. split; apply Permutation_in;
      [|symmetry]; apply Permutation_map, Hall. }
  exists (JsMap.values moved), rest. split; [reflexivity|].
  assert (Hin_entries : forall x, In x items -> In (getKey x, x) (moved ++ byId')).
  { intros x Hx. eapply Permutation_in; [exact Hperm|].
    unfold entries. apply in_map_iff. exists x. auto. }
  assert (Hof : forall e, In e (moved ++ byId') ->
                          fst e = getKey (snd e) /\ In (snd e) items).
  { intros e He. apply Hentry. eapply Permutation_in; [symmetry; exact Hperm|exact He]. }
  split; [|split].
  - intros x. split.
    + intros Hx. apply in_map_iff in Hx. destruct Hx as (e & <- & He).
      destruct (Hof e) as [Hk Hi]; [apply in_or_app; left; exact He|].
      split; [exact Hi|]. rewrite <- Hk. apply Hmoved, He.
    + intros [Hx Hk]. apply Hin_entries, in_app_or in Hx.
      destruct Hx as [Hx|Hx].
      * apply in_map_iff. exists (getKey x, x). auto.
      * destruct (Hrest _ Hx Hk).
  - intros x. split.
    + intros Hx. eapply Permutation_in in Hx; [|exact Hrest_perm].
      apply in_map_iff in Hx. destruct Hx as (e & <- & He).
      destruct (Hof e) as [Hk Hi]; [apply in_or_app; right; exact He|].
      split; [exact Hi|]. rewrite <- Hk. apply Hrest, He.
    + intros [Hx Hk]. apply Hin_entries, in_app_or in Hx.
      eapply Permutation_in; [symmetry; exact Hrest_perm|].
      destruct Hx as [Hx|Hx].
      * destruct Hk. apply (Hmoved _ Hx).
      * apply in_map_iff. exists (getKey x, x). auto.
  - intros Htotal Htrans. apply array_sort_sorted.
    + intros a b. apply Htotal.
    + intros a b c. apply Htrans.
Qed.

End OrderingProperties.

(** The reference collation is a total preorder. *)
Lemma codeUnitCompare_total (a b : jsstring) :
  codeUnitCompare a b <= 0 \/ codeUnitCompare b a <= 0.
Proof.
  revert b; induction a as [|x a IH]; intros [|y b]; simpl; try lia.
  destruct (N.ltb_spec (foldCase x) (foldCase y));
    destruct (N.ltb_spec (foldCase y) (foldCase x)); try lia. apply IH.
Qed.

Lemma codeUnitCompare_trans (a b c : jsstring) :
  codeUnitCompare a b <= 0 -> codeUnitCompare b c <= 0 -> codeUnitCompare a c <= 0.
Proof.
  revert b c; induction a as [|x a IH]; intros [|y b] [|z c]; simpl; try lia.
  destruct (N.ltb_spec (foldCase x) (foldCase y));
    destruct (N.ltb_spec (foldCase y) (foldCase x));
    destruct (N.ltb_spec (foldCase y) (foldCase z));
    destruct (N.ltb_spec (foldCase z) (foldCase y));
    destruct (N.ltb_spec (foldCase x) (foldCase z));
    destruct (N.ltb_spec (foldCase z) (foldCase x)); try lia.
  apply IH.
Qed.

Lemma threeScenes_unique : List.NoDup (map sceneId Examples.threeScenes).
Proof.
  repeat constructor; simpl; intros H;
    repeat (destruct H as [H|H]; [discriminate H|]); exact H.
Qed.

Lemma custom_order_is_permutation_witness :
  let ordered :=
    applyOrder codeUnitCompare Examples.threeScenes sceneId sceneName Custom
               Examples.partialOrder in
  Permutation ordered Examples.threeScenes
  /\ exists referenced rest,
       ordered = referenced ++ rest
       /\ StronglySorted (before (byName codeUnitCompare sceneName)) rest.
Proof.
  destruct (custom_order_is_permutation codeUnitCompare Examples.threeScenes
              sceneId sceneName Examples.partialOrder threeScenes_unique)
    as (Hperm & _ & _ & referenced & rest & Hsplit & _ & _ & Hsorted).
  split; [exact Hperm|].
  exists referenced, rest. split; [exact Hsplit|].
  apply Hsorted; [apply codeUnitCompare_total|apply codeUnitCompare_trans].
Defined.

(** ** Slot placement and its inverse *)

Lemma slice_index {A} (l : list A) (start stop j : Z) (x : A) :
  0 <= start -> 0 <= stop ->
  index (slice l start stop) j = Some x ->
  0 <= j /\ start + j < stop /\ index l (start + j) = Some x.
Proof.
  intros Hstart Hstop. unfold index, slice, rel_index.
  destruct (Z.ltb_spec j 0) as [|Hj]; [discriminate|].
  destruct (Z.ltb_spec start 0); [lia|]. destruct (Z.ltb_spec stop 0); [lia|].
  destruct (Z.ltb_spec (start + j) 0); [lia|].
  rewrite nth_error_firstn.
  destruct (Nat.ltb_spec (Z.to_nat j)
              (Z.to_nat (Z.min stop (Z.of_nat (length l))
                         - Z.min start (Z.of_nat (length l))))) as [Hlt|];
    [|discriminate].
  rewrite nth_error_skipn. intros Hx.
  assert (Hin : (Z.to_nat (Z.min start (Z.of_nat (length l))) + Z.to_nat j
                 < length l)%nat).
  { apply nth_error_Some. rewrite Hx. discriminate. }
  assert (Hle : start <= Z.of_nat (length l)) by lia.
  rewrite (Z.min_l start) in Hx, Hlt by lia.
  repeat split; [lia|lia|].
  rewrite Z2Nat.inj_add by lia. exact Hx.
Qed.

(** The slot of an entity of the window, after the leading controls. *)
Lemma index_placed {A B} (lead : list B) (f : A -> B) (shown : list A)
    (tail : list B) (j : Z) (x : A) :
  index shown j = Some x ->
  index (lead ++ map f shown ++ tail) (Z.of_nat (length lead) + j) = Some (f x).
Proof.
  unfold index. destruct (Z.ltb_spec j 0) as [|Hj]; [discriminate|]. intros Hx.
  destruct (Z.ltb_spec (Z.of_nat (length lead) + j) 0); [lia|].
  replace (Z.to_nat (Z.of_nat (length lead) + j))
    with (length lead + Z.to_nat j)%nat by lia.
  rewrite nth_error_app2 by lia.
  replace (length lead + Z.to_nat j - length lead)%nat with (Z.to_nat j) by lia.
  rewrite nth_error_app1.
  - rewrite nth_error_map, Hx. reflexivity.
  - rewrite length_map. apply nth_error_Some. rewrite Hx. discriminate.
Qed.

Lemma ceil_div_bounds (a b : Z) :
  0 < b -> b * (ceil_div a b - 1) < a <= b * ceil_div a b.
Proof.
  intros Hb. unfold ceil_div.
  pose proof (Z.div_mod (- a) b) as Hdm.
  pose proof (Z.mod_pos_bound (- a) b Hb). lia.
Qed.

Section Placement.

Variable localeCompare : jsstring -> jsstring -> Z.

Lemma paged_total_pages_positive (n PER_PAGE : Z) :
  0 < PER_PAGE -> 1 <= pagedTotalPages n PER_PAGE.
Proof.
  intros Hper. unfold pagedTotalPages.
  destruct (Z.eqb_spec n 0); [lia|].
  destruct (Z.leb_spec n PER_PAGE); [lia|].
  pose proof (ceil_div_bounds (n - (PER_PAGE - 1)) PER_PAGE Hper). nia.
Qed.

(** The labels of a page of the scenes / rooms / favorites pattern. *)
Lemma paged_layout {T} (items : list T) (label : T -> jsstring)
    (PER_PAGE page : Z) :
  items <> [] ->
  0 <= page < pagedTotalPages (Z.of_nat (length items)) PER_PAGE ->
  exists padding,
    pagedNamesForListView items label PER_PAGE page
    = pagedLead page ++ map label (pagedPageItems items PER_PAGE page)
        ++ pageTail padding page
             (pagedTotalPages (Z.of_nat (length items)) PER_PAGE).
Proof.
  intros Hne Hpage. unfold pagedNamesForListView, pagedPageItems, pagedLead,
    pageTail, pagedPageStart, pagedPageSlots, pagedFirstSlots.
  unfold pagedTotalPages in *.
  set (n := Z.of_nat (length items)) in *.
  assert (Hn : n <> 0) by (destruct items; [congruence|subst n; simpl; lia]).
  destruct (Z.eqb_spec n 0); [lia|].
  set (totalPages := if n <=? PER_PAGE then 1 else _) in *.
  rewrite Z.min_l by lia.
  destruct (page =? 0); destruct (page =? totalPages - 1); cbn [andb];
    first [ exists 0%nat; cbn [repeat app]; rewrite ?app_nil_r; reflexivity
          | eexists; unfold array_fill; cbn [app];
            rewrite ?app_nil_r, <- ?app_assoc; reflexivity ].
Qed.

(** Every index is shown on a page. *)
Lemma paged_coverage (n PER_PAGE i : Z) :
  1 < PER_PAGE -> 0 <= i < n ->
  exists p j, 0 <= p < pagedTotalPages n PER_PAGE
              /\ 0 <= j < pagedPageSlots n PER_PAGE p
              /\ i = pagedPageStart n PER_PAGE p + j.
Proof.
  intros Hper Hi. unfold pagedTotalPages, pagedPageSlots, pagedPageStart,
    pagedFirstSlots.
  destruct (Z.eqb_spec n 0); [lia|].
  destruct (Z.leb_spec n PER_PAGE) as [Hfit|Hmore].
  - exists 0, i. simpl. lia.
  - destruct (Z.ltb_spec i (PER_PAGE - 1)) as [Hfirst|Hlater].
    + exists 0, i. simpl.
      pose proof (ceil_div_bounds (n - (PER_PAGE - 1)) PER_PAGE). nia.
    + set (r := i - (PER_PAGE - 1)).
      exists (1 + r / PER_PAGE), (r mod PER_PAGE).
      pose proof (Z.div_mod r PER_PAGE) as Hdm.
      pose proof (Z.mod_pos_bound r PER_PAGE) as Hmod.
      pose proof (Z.div_pos r PER_PAGE) as Hdiv.
      pose proof (ceil_div_bounds (n - (PER_PAGE - 1)) PER_PAGE) as Hceil.
      destruct (Z.eqb_spec (1 + r / PER_PAGE) 0); [subst r; lia|].
      subst r. repeat split; try lia; nia.
Qed.

(** The index arithmetic of the router on a slot of the window. *)
Lemma paged_inverse {T} (items : list T) (PER_PAGE firstSlots page j : Z) (x : T) :
  1 < PER_PAGE -> 0 <= page ->
  (page <> 0 -> firstSlots = pagedFirstSlots (Z.of_nat (length items)) PER_PAGE) ->
  index (pagedPageItems items PER_PAGE page) j = Some x ->
  actualIndex firstSlots PER_PAGE page (1 + j)
  = pagedPageStart (Z.of_nat (length items)) PER_PAGE page + j
  /\ index items (actualIndex firstSlots PER_PAGE page (1 + j)) = Some x.
Proof.
  intros Hper Hpage Hfirst Hx. unfold pagedPageItems in Hx.
  assert (Hslots : 0 <= pagedPageSlots (Z.of_nat (length items)) PER_PAGE page).
  { unfold pagedPageSlots, pagedFirstSlots.
    destruct (page =? 0); [destruct (_ <=? _)|]; lia. }
  assert (Hstart : 0 <= pagedPageStart (Z.of_nat (length items)) PER_PAGE page).
  { unfold pagedPageStart, pagedFirstSlots.
    destruct (Z.eqb_spec page 0); [lia|]. destruct (_ <=? _); nia. }
  apply slice_index in Hx; [|lia|lia]. destruct Hx as (Hj & _ & Hx).
  assert (Heq : actualIndex firstSlots PER_PAGE page (1 + j)
                = pagedPageStart (Z.of_nat (length items)) PER_PAGE page + j).
  { unfold actualIndex, pagedPageStart.
    destruct (Z.eqb_spec page 0); [lia|]. rewrite Hfirst by assumption. lia. }
  rewrite Heq. split; [reflexivity|exact Hx].
Qed.

Lemma devicesFirstCount_alt (n : Z) :
  (if DEVICES_PER_PAGE - 1 <? 1 + n then DEVICES_PER_PAGE - 1 else 1 + n)
  - 1 - (if DEVICES_PER_PAGE - 1 <? 1 + n then 1 else 0)
  = devicesFirstCount n.
Proof. unfold devicesFirstCount. destruct (_ <? _); lia. Qed.

Lemma getTotalPages_devices (state : AppState) :
  listView state = ViewDevices ->
  getTotalPages localeCompare state
  = devicesTotalPages (Z.of_nat (length (getOrderedDevices localeCompare state))).
Proof.
  intros Hview. unfold getTotalPages, devicesTotalPages, devicesFirstCount.
  rewrite Hview. destruct (_ =? 0); [reflexivity|].
  destruct (_ <? _); reflexivity.
Qed.

Lemma devices_page_start_inside (n page : Z) :
  0 < n -> 0 <= page < devicesTotalPages n ->
  0 <= devicesPageStart n page < n /\ 0 <= devicesPageSlots n page.
Proof.
  intros Hn Hpage. unfold devicesTotalPages in Hpage.
  unfold devicesPageStart, devicesPageSlots, devicesFirstCount in *.
  unfold DEVICES_PER_PAGE, SCENES_PER_PAGE, LIST_MAX_ITEMS in *.
  destruct (Z.eqb_spec n 0); [lia|].
  destruct (Z.ltb_spec (20 - 2 - 1) (1 + n)).
  - pose proof (ceil_div_bounds (n - (20 - 2 - 1 - 1 - 1)) (20 - 2 - 1)).
    destruct (Z.eqb_spec page 0); lia.
  - destruct (Z.eqb_spec page 0); lia.
Qed.

(** The labels of a page of the devices view. *)
Lemma devices_layout (state : AppState) :
  let devices := getOrderedDevices localeCompare state in
  devices <> [] ->
  0 <= listPageIndex state < devicesTotalPages (Z.of_nat (length devices)) ->
  exists padding,
    deviceNamesForListView localeCompare state
    = devicesLead (listPageIndex state)
        ++ map (deviceLabel state) (devicesPageItems devices (listPageIndex state))
        ++ pageTail padding (listPageIndex state)
             (devicesTotalPages (Z.of_nat (length devices))).
Proof.
  intros devices Hne Hpage. subst devices. unfold deviceNamesForListView, pageTail.
  destruct (getOrderedDevices localeCompare state) as [|d0 ds]; [congruence|].
  assert (Hn : 0 < Z.of_nat (length (d0 :: ds))) by (simpl; lia).
  remember (d0 :: ds) as devices eqn:Hdevices. clear Hne Hdevices d0 ds.
  set (page := listPageIndex state) in *.
  set (n := Z.of_nat (length devices)) in *.
  destruct (devices_page_start_inside n page Hn Hpage) as [Hstart Hslots].
  rewrite devicesFirstCount_alt.
  unfold devicesTotalPages in *.
  destruct (Z.eqb_spec n 0); [lia|].
  set (totalPages := if DEVICES_PER_PAGE - 1 <? 1 + n then _ else 1) in *.
  rewrite Z.max_r by lia. rewrite Z.min_l by lia.
  unfold devicesLead, devicesPageItems. fold n.
  unfold devicesPageStart, devicesPageSlots in *.
  destruct (Z.eqb_spec page 0) as [Hp|Hp].
  - destruct (page =? totalPages - 1); cbn [andb];
      first [ exists 0%nat; cbn [repeat app]; rewrite ?app_nil_r; reflexivity
            | eexists; unfold array_fill; cbn [app];
              rewrite ?app_nil_r, <- ?app_assoc; reflexivity ].
  - set (start := devicesFirstCount n + (page - 1) * (DEVICES_PER_PAGE - 1)) in *.
    assert (Hsame :
      slice devices start
        (start + (if (page =? totalPages - 1) && (n - start <? DEVICES_PER_PAGE - 1)
                  then n - start else DEVICES_PER_PAGE - 1))
      = slice devices start (start + (DEVICES_PER_PAGE - 1))).
    { destruct ((page =? totalPages - 1) && (n - start <? DEVICES_PER_PAGE - 1))
        eqn:Hshort; [|reflexivity].
      apply andb_prop in Hshort. destruct Hshort as [_ Hshort].
      apply Z.ltb_lt in Hshort.
      rewrite !slice_to_end by (fold n; lia). reflexivity. }
    rewrite Hsame. eexists. unfold array_fill. cbn [app].
    rewrite <- ?app_assoc. reflexivity.
Qed.

(** The index mapping of the devices view on a slot of the window. *)
Lemma devices_inverse (state : AppState) (page j : Z) (d : DeviceEntry) :
  let devices := getOrderedDevices localeCompare state in
  let n := Z.of_nat (length devices) in
  0 <= page ->
  index (devicesPageItems devices page) j = Some d ->
  getDeviceIndexFromDevicesList localeCompare state page
    (Z.of_nat (length (devicesLead page)) + j)
  = devicesPageStart n page + j
  /\ index devices (devicesPageStart n page + j) = Some d.
Proof.
  intros devices n Hpage Hd. unfold devicesPageItems in Hd. fold n in Hd.
  assert (Hfirst : 0 <= devicesFirstCount n).
  { unfold devicesFirstCount, DEVICES_PER_PAGE, SCENES_PER_PAGE, LIST_MAX_ITEMS.
    destruct (_ <? _); lia. }
  assert (Hbounds : 0 <= devicesPageStart n page /\ 0 <= devicesPageSlots n page).
  { unfold devicesPageStart, devicesPageSlots, DEVICES_PER_PAGE,
      SCENES_PER_PAGE, LIST_MAX_ITEMS.
    destruct (Z.eqb_spec page 0); nia. }
  apply slice_index in Hd; [|lia|lia]. destruct Hd as (Hj & Hlt & Hd).
  split; [|exact Hd].
  assert (Hin : devicesPageStart n page + j < n).
  { unfold index in Hd. destruct (_ <? 0); [discriminate|].
    assert (Hsome : nth_error devices (Z.to_nat (devicesPageStart n page + j)) <> None)
      by (rewrite Hd; discriminate).
    apply nth_error_Some in Hsome. subst n. lia. }
  unfold getDeviceIndexFromDevicesList. fold devices. fold n.
  rewrite devicesFirstCount_alt.
  unfold devicesLead, devicesPageStart, devicesPageSlots in *.
  destruct (Z.eqb_spec page 0) as [Hp|Hp].
  - change (Z.of_nat (length [LABEL_BACK; LABEL_ALL])) with 2.
    destruct (Z.eqb_spec (2 + j) 1); [lia|].
    destruct (Z.leb_spec (2 + j) 0); [lia|].
    replace (2 + j - 2) with j by lia.
    destruct (Z.leb_spec 0 j); [|lia].
    destruct (Z.ltb_spec j (devicesFirstCount n)); [simpl; lia|lia].
  - change (Z.of_nat (length [LABEL_PREVIOUS])) with 1.
    replace (1 + j - 1) with j by lia.
    destruct (Z.leb_spec 0 (devicesFirstCount n + (page - 1) * (DEVICES_PER_PAGE - 1) + j));
      [|lia].
    destruct (Z.ltb_spec (devicesFirstCount n + (page - 1) * (DEVICES_PER_PAGE - 1) + j) n);
      [reflexivity|lia].
Qed.

(** Every device index is shown on a page of the devices view. *)
Lemma devices_coverage (n i : Z) :
  0 <= i < n ->
  exists p j, 0 <= p < devicesTotalPages n
              /\ 0 <= j < devicesPageSlots n p
              /\ i = devicesPageStart n p + j.
Proof.
  intros Hi. unfold devicesTotalPages, devicesPageSlots, devicesPageStart,
    devicesFirstCount, DEVICES_PER_PAGE, SCENES_PER_PAGE, LIST_MAX_ITEMS.
  destruct (Z.eqb_spec n 0); [lia|].
  destruct (Z.ltb_spec (20 - 2 - 1) (1 + n)) as [Hnext|Hfit].
  - pose proof (ceil_div_bounds (n - (20 - 2 - 1 - 1 - 1)) (20 - 2 - 1)) as Hceil.
    destruct (Z.ltb_spec i 15) as [Hfirst|Hlater].
    + exists 0, i. simpl. lia.
    + set (r := i - 15).
      exists (1 + r / 17), (r mod 17).
      pose proof (Z.div_mod r 17) as Hdm.
      pose proof (Z.mod_pos_bound r 17) as Hmod.
      pose proof (Z.div_pos r 17) as Hdiv.
      destruct (Z.eqb_spec (1 + r / 17) 0); [subst r; lia|].
      subst r. repeat split; lia.
  - exists 0, i. simpl. lia.
Qed.

Lemma paged_router_inverts {T} (items : list T) (label : T -> jsstring)
    (PER_PAGE firstSlots page : Z) :
  1 < PER_PAGE -> items <> [] ->
  0 <= page < pagedTotalPages (Z.of_nat (length items)) PER_PAGE ->
  (page <> 0 -> firstSlots = pagedFirstSlots (Z.of_nat (length items)) PER_PAGE) ->
  routerInvertsPlacement
    (pagedNamesForListView items label PER_PAGE page) items label
    PER_PAGE firstSlots page (pagedTotalPages (Z.of_nat (length items)) PER_PAGE).
Proof.
  intros Hper Hne Hpage Hfirst. unfold routerInvertsPlacement.
  destruct (paged_layout items label PER_PAGE page Hne Hpage) as [padding Hlayout].
  split; [|split].
  - exists padding. exact Hlayout.
  - intros j x Hx. cbv zeta. split.
    + rewrite Hlayout.
      change (1 + j) with (Z.of_nat (length (pagedLead page)) + j).
      apply index_placed. exact Hx.
    + apply paged_inverse; [assumption|lia|assumption|assumption].
  - intros i Hi. apply paged_coverage; assumption.
Qed.

(** On a page after the first the collection has more than a page of
    entities, and so has the raw collection it was ordered from. *)
Lemma later_page_first_slots (ordered raw page : Z) :
  ordered <= raw -> 0 < page < pagedTotalPages ordered SCENES_PER_PAGE ->
  (if raw <=? SCENES_PER_PAGE then SCENES_PER_PAGE else SCENES_PER_PAGE - 1)
  = pagedFirstSlots ordered SCENES_PER_PAGE.
Proof.
  intros Hle Hpage. unfold pagedTotalPages, pagedFirstSlots in *.
  destruct (Z.eqb_spec ordered 0); [lia|].
  destruct (Z.leb_spec ordered SCENES_PER_PAGE); [lia|].
  destruct (Z.leb_spec raw SCENES_PER_PAGE); [lia|reflexivity].
Qed.

(** C2. The index mapping inverts the slot placement.  On every valid
    page of the devices view the composed labels are exactly the leading
    controls (Back and "All", or Previous), the labels of the devices of
    the page's window in order, empty padding slots, and Next unless the
    page is the last one: the composer places a device at the slots of the
    window's devices and at no other slot.  At each of these slots the
    label is that of the device, and [getDeviceIndexFromDevicesList] maps
    the page and the slot to the index of that device in the ordered
    collection; and every device index is in the window of a page.  The
    same holds for the scenes, rooms and favorites views with the index
    arithmetic of the tap router. *)
Theorem index_mapping_inverts_slot_placement (state : AppState) :
  0 <= listPageIndex state < getTotalPages localeCompare state ->
  let page := listPageIndex state in
  let labels := listItemNamesForState localeCompare state in
  let totalPages := getTotalPages localeCompare state in
  let firstSlots := getFirstPageContentSlots localeCompare state in
  match listView state with
  | ViewDevices =>
      let devices := getOrderedDevices localeCompare state in
      let n := Z.of_nat (length devices) in
      let shown := devicesPageItems devices page in
      devices <> [] ->
      (exists padding,
          labels = devicesLead page ++ map (deviceLabel state) shown
                     ++ pageTail padding page totalPages)
      /\ (forall j d, index shown j = Some d ->
            let slot := Z.of_nat (length (devicesLead page)) + j in
            let i := getDeviceIndexFromDevicesList localeCompare state page slot in
            index labels slot = Some (deviceLabel state d)
            /\ i = devicesPageStart n page + j /\ index devices i = Some d)
      /\ (forall i, 0 <= i < n ->
            exists p j, 0 <= p < totalPages
                        /\ 0 <= j < devicesPageSlots n p
                        /\ i = devicesPageStart n p + j)
  | ViewScenes =>
      getOrderedScenes localeCompare state <> [] ->
      routerInvertsPlacement labels (getOrderedScenes localeCompare state)
        (sceneLabel state) SCENES_PER_PAGE firstSlots page totalPages
  | ViewRooms =>
      getOrderedRooms localeCompare state <> [] ->
      routerInvertsPlacement labels (getOrderedRooms localeCompare state)
        (roomLabel state) ROOMS_PER_PAGE firstSlots page totalPages
  | ViewFavorites =>
      getOrderedFavorites localeCompare state <> [] ->
      routerInvertsPlacement labels (getOrderedFavorites localeCompare state)
        favoriteLabel SCENES_PER_PAGE firstSlots page totalPages
  | _ => True
  end.
Proof.
  intros Hpage. cbv zeta.
  unfold listItemNamesForState, getFirstPageContentSlots.
  destruct (listView state) eqn:Hview; try exact I; intros Hne.
  - (* scenes *)
    unfold getTotalPages in *. rewrite Hview in *.
    unfold sceneNamesForListView.
    destruct (getOrderedScenes localeCompare state) as [|s ss] eqn:Hordered;
      [congruence|].
    rewrite <- Hordered in *.
    apply paged_router_inverts; try assumption; [reflexivity|].
    intros Hp. apply (later_page_first_slots _ _ (listPageIndex state)); [|lia].
    apply inj_le. unfold getOrderedScenes. apply applyOrder_length.
  - (* rooms *)
    unfold getTotalPages in *. rewrite Hview in *.
    unfold roomNamesForListView.
    destruct (getOrderedRooms localeCompare state) as [|r rs] eqn:Hordered;
      [congruence|].
    rewrite <- Hordered in *.
    apply paged_router_inverts; try assumption; [reflexivity|].
    intros Hp. apply (later_page_first_slots _ _ (listPageIndex state));
      [|unfold ROOMS_PER_PAGE in *; lia].
    apply inj_le. unfold getOrderedRooms. apply applyOrder_length.
  - (* devices *)
    rewrite (getTotalPages_devices state Hview) in *.
    destruct (devices_layout state Hne Hpage) as [padding Hlayout].
    split; [|split].
    + exists padding. exact Hlayout.
    + intros j d Hd. cbv zeta.
      destruct (devices_inverse state (listPageIndex state) j d) as [Hi Hd'];
        [lia|exact Hd|].
      rewrite Hi. split; [|split; [reflexivity|exact Hd']].
      rewrite Hlayout. apply index_placed. exact Hd.
    + intros i Hi. apply devices_coverage. exact Hi.
  - (* favorites *)
    unfold getTotalPages in *. rewrite Hview in *.
    unfold favoriteNamesForListView.
    destruct (getOrderedFavorites localeCompare state) as [|f fs] eqn:Hordered;
      [congruence|].
    rewrite <- Hordered in *.
    apply paged_router_inverts; try assumption; [reflexivity|].
    intros Hp. unfold pagedFirstSlots. reflexivity.
Qed.

End Placement.

Lemma index_mapping_inverts_slot_placement_witness :
  getDeviceIndexFromDevicesList codeUnitCompare (Examples.state25 1) 1
    (Z.of_nat (length (devicesLead 1)) + 3)
  = devicesPageStart 25 1 + 3.
Proof.
  assert (Hpage : 0 <= listPageIndex (Examples.state25 1)
                  < getTotalPages codeUnitCompare (Examples.state25 1))
    by (vm_compute; split; [discriminate|reflexivity]).
  pose proof (index_mapping_inverts_slot_placement codeUnitCompare
                (Examples.state25 1) Hpage) as H.
  cbv zeta in H. change (listView (Examples.state25 1)) with ViewDevices in H.
  cbv iota in H. destruct H as (_ & Hinv & _); [discriminate|].
  destruct (Hinv 3 (Examples.device 18)) as (_ & Hindex & _);
    [vm_compute; reflexivity|exact Hindex].
Defined.

(** ** Gesture accumulation *)

Lemma shiftOld_stale (cutoff : Z) (recent : list (Z * Z)) (x : Z * Z) :
  Forall (fun e => snd e < cutoff) recent -> cutoff <= snd x ->
  shiftOld cutoff (recent ++ [x]) = [x].
Proof.
  intros Hold Hx. induction Hold as [|e recent He Hold IH]; simpl.
  - destruct (Z.leb_spec cutoff (snd x)); [reflexivity|lia].
  - destruct (Z.leb_spec cutoff (snd e)); [lia|exact IH].
Qed.

Lemma uniqueIndices_singleton (x : Z * Z) : uniqueIndices [x] = 1.
Proof. reflexivity. Qed.

Lemma gestureConfig_windows (useRealGlasses : bool) :
  let cfg := gestureConfig useRealGlasses in
  0 <= SCROLL_WINDOW_MS cfg /\ SCROLL_WINDOW_MS cfg < TAP_COMMIT_MS cfg
  /\ SCROLL_WINDOW_MS cfg <= TAP_WINDOW_MS cfg.
Proof. destruct useRealGlasses; simpl; lia. Qed.

Section Router.

Variable localeCompare : jsstring -> jsstring -> Z.

Lemma single_page_views (state : AppState) :
  isPaginatedList (listView state) = false -> getTotalPages localeCompare state = 1.
Proof. unfold getTotalPages. destruct (listView state); simpl; congruence. Qed.

(** What the router does with a committed count on a paginated list. *)
Lemma commitTap_paginated (state : AppState) (listIndex : Z) :
  let page := listPageIndex state in
  let totalPages := getTotalPages localeCompare state in
  isPaginatedList (listView state) = true ->
  commitTap localeCompare state listIndex 1 = singleTap localeCompare state listIndex
  /\ (page <> 0 ->
      commitTap localeCompare state listIndex 2
      = [Dispatch (LIST_PAGE (page - 1)); RefreshPage])
  /\ (page = 0 -> listIndex = 0 \/ backOnAnySlot (listView state) = true ->
      exists parent,
        parentView (listView state) = Some parent
        /\ commitTap localeCompare state listIndex 2
           = [Dispatch (NAV_VIEW parent); RefreshPage])
  /\ (page <> totalPages - 1 ->
      commitTap localeCompare state listIndex 3
      = [Dispatch (LIST_PAGE (totalPages - 1)); RefreshPage]
      /\ listPageIndex (applyEffects state (commitTap localeCompare state listIndex 3))
         = totalPages - 1).
Proof.
  intros page totalPages Hpaginated. unfold commitTap. fold page totalPages.
  destruct (decide (listView state = ViewMain)) as [Hmain|_];
    [rewrite Hmain in Hpaginated; discriminate|].
  rewrite Hpaginated. split; [|split; [|split]].
  - simpl. destruct (3 <=? 1) eqn:H31; [discriminate|reflexivity].
  - intros Hp. destruct (Z.eqb_spec page 0); [contradiction|]. reflexivity.
  - intros Hp Hslot. rewrite Hp. simpl.
    assert (Hcond : (listIndex =? 0) || backOnAnySlot (listView state) = true).
    { destruct Hslot as [Hzero | Hany];
      [rewrite Hzero; reflexivity | rewrite Hany; apply orb_true_r]. }
    rewrite Hcond.
    destruct (listView state); try discriminate; eexists; split; reflexivity.
  - intros Hp. destruct (Z.eqb_spec page (totalPages - 1)); [contradiction|].
    simpl. split; reflexivity.
Qed.

End Router.

(** A pending commit fires once it is due, with the position and the
    count of the session. *)
Lemma commit_fires (cfg : GestureConfig) (clock : Z) (g : GestureSession)
    (due now position count : Z) :
  commitTimeoutId g = Some due -> committed g = (position, count) ->
  clock <= now -> due <= now ->
  run cfg (clock, g) [Committed position count] (now, afterCommit g).
Proof.
  intros Htimer Hcommitted Hclock Hdue. unfold committed in Hcommitted.
  injection Hcommitted as <- <-.
  eapply run_cons; [eapply step_commit; eassumption|apply run_nil].
Qed.

(** ** Scroll suppression *)

Lemma shiftOld_suffix (cutoff : Z) (recent rest : list (Z * Z)) (y : Z * Z) :
  cutoff <= snd y ->
  exists kept, shiftOld cutoff (recent ++ y :: rest) = kept ++ y :: rest.
Proof.
  intros Hy. induction recent as [|e recent IH]; simpl.
  - exists []. destruct (Z.leb_spec cutoff (snd y)); [reflexivity|lia].
  - destruct (cutoff <=? snd e).
    + exists (e :: recent). reflexivity.
    + exact IH.
Qed.

Lemma shiftOld_In (cutoff : Z) (recent : list (Z * Z)) (e : Z * Z) :
  In e (shiftOld cutoff recent) -> In e recent.
Proof.
  induction recent as [|x recent IH]; simpl; [tauto|].
  destruct (cutoff <=? snd x); simpl; tauto.
Qed.

Lemma uniqueIndices_two (recent : list (Z * Z)) (p t i t' : Z) :
  In (p, t) recent -> In (i, t') recent -> p <> i -> 2 <= uniqueIndices recent.
Proof.
  intros Hp Hi Hne. unfold uniqueIndices.
  assert (Hp' : p ∈ remove_dups (map fst recent)).
  { apply elem_of_remove_dups, list_elem_of_In.
    change p with (fst (p, t)). apply in_map, Hp. }
  assert (Hi' : i ∈ remove_dups (map fst recent)).
  { apply elem_of_remove_dups, list_elem_of_In.
    change i with (fst (i, t')). apply in_map, Hi. }
  destruct (remove_dups (map fst recent)) as [|x [|y l]].
  - inversion Hp'.
  - apply list_elem_of_singleton in Hp'. apply list_elem_of_singleton in Hi'.
    congruence.
  - simpl. lia.
Qed.

Section ScrollSuppression.

Variable cfg : GestureConfig.
Hypothesis window_nonneg : 0 <= SCROLL_WINDOW_MS cfg.
Hypothesis commit_after_window : SCROLL_WINDOW_MS cfg < TAP_COMMIT_MS cfg.

(** What every handled tap leaves behind. *)
Lemma handleTap_records (g : GestureSession) (i taps now : Z) :
  let g' := handleTap cfg g i taps now in
  lastTapIndex g' = i
  /\ (exists kept, recentListIndices g' = kept ++ [(i, now)])
  /\ (commitTimeoutId g' = None
      \/ commitTimeoutId g' = Some (now + TAP_COMMIT_MS cfg)).
Proof.
  unfold handleTap. cbn [lastTapIndex recentListIndices commitTimeoutId].
  split; [|split].
  - destruct ((i =? lastTapIndex g) && _) eqn:Hsame; [|reflexivity].
    apply andb_prop in Hsame. destruct Hsame as [Hi _].
    apply Z.eqb_eq in Hi. congruence.
  - apply shiftOld_suffix. simpl. lia.
  - destruct (_ && _); [left|right]; reflexivity.
Qed.

(** A single tap on another position, no later than the scroll window
    after the tap before it, schedules nothing. *)
Lemma handleTap_scrolling (g : GestureSession) (p t i t' : Z) (kept : list (Z * Z)) :
  lastTapIndex g = p -> recentListIndices g = kept ++ [(p, t)] ->
  p <> i -> t' - t <= SCROLL_WINDOW_MS cfg ->
  commitTimeoutId (handleTap cfg g i 1 t') = None.
Proof.
  intros Hlast Hrecent Hne Hclose. unfold handleTap. cbn [commitTimeoutId].
  rewrite Hlast, Hrecent.
  destruct (Z.eqb_spec i p) as [|_]; [congruence|]. simpl.
  rewrite <- app_assoc. simpl.
  destruct (shiftOld_suffix (t' - SCROLL_WINDOW_MS cfg) kept [(i, t')] (p, t))
    as [kept' Hkept]; [simpl; lia|].
  rewrite Hkept.
  destruct (Z.leb_spec 2 (uniqueIndices (kept' ++ [(p, t); (i, t')])))
    as [_|Hfew]; [reflexivity|].
  pose proof (uniqueIndices_two (kept' ++ [(p, t); (i, t')]) p t i t') as Htwo.
  assert (2 <= uniqueIndices (kept' ++ [(p, t); (i, t')])); [|lia].
  apply Htwo; [| |exact Hne]; apply in_or_app; right; simpl; auto.
Qed.

Lemma run_without_timer (clock : Z) (g : GestureSession) (labels : list Label)
    (s' : Z * GestureSession) :
  run cfg (clock, g) labels s' -> commitTimeoutId g = None ->
  match labels with
  | [] => s' = (clock, g)
  | Tapped i taps now :: rest =>
      clock <= now /\ run cfg (now, handleTap cfg g i taps now) rest s'
  | Committed _ _ :: _ => False
  end.
Proof.
  intros Hrun Htimer. inversion Hrun as [|s l s1 ls s2 Hstep Hrest]; subst.
  - reflexivity.
  - inversion Hstep; subst.
    + split; assumption.
    + congruence.
Qed.

Lemma run_quiet (clock : Z) (g : GestureSession) (labels : list Label)
    (s' : Z * GestureSession) :
  run cfg (clock, g) labels s' -> commitTimeoutId g = None ->
  tapsOf labels = [] -> labels = [] /\ s' = (clock, g).
Proof.
  intros Hrun Htimer Htaps.
  pose proof (run_without_timer _ _ _ _ Hrun Htimer) as H.
  destruct labels as [|[i taps now|i count] rest].
  - split; [reflexivity|exact H].
  - discriminate Htaps.
  - destruct H.
Qed.

(** While the scroll goes on no commit fires, and after its second tap
    none is pending. *)
Lemma scroll_suppressed (rest : list (Z * Z)) :
  forall (p t : Z) (g : GestureSession) (labels : list Label)
         (s' : Z * GestureSession),
    scrollFrom (SCROLL_WINDOW_MS cfg) p t rest ->
    lastTapIndex g = p ->
    (exists kept, recentListIndices g = kept ++ [(p, t)]) ->
    commitTimeoutId g = None \/ commitTimeoutId g = Some (t + TAP_COMMIT_MS cfg) ->
    run cfg (t, g) labels s' ->
    tapsOf labels = singleTaps rest ->
    rest <> [] ->
    labels = singleTaps rest /\ commitTimeoutId (snd s') = None.
Proof.
  induction rest as [|[i t'] rest IH];
    intros p t g labels s' Hscroll Hlast [kept Hrecent] Htimer Hrun Htaps Hne;
    [congruence|].
  simpl in Hscroll. destruct Hscroll as (Hmove & Hlater & Hclose & Hscroll).
  assert (Hnext : forall ls,
             run cfg (t', handleTap cfg g i 1 t') ls s' ->
             tapsOf ls = singleTaps rest ->
             ls = singleTaps rest /\ commitTimeoutId (snd s') = None).
  { intros ls Hls Hlstaps.
    assert (Hquiet : commitTimeoutId (handleTap cfg g i 1 t') = None)
      by (eapply handleTap_scrolling; eauto; lia).
    destruct (handleTap_records g i 1 t') as (Hlast' & Hrecent' & _).
    destruct rest as [|e rest'].
    - destruct (run_quiet _ _ _ _ Hls Hquiet Hlstaps) as [-> ->].
      split; [reflexivity|exact Hquiet].
    - apply (IH i t' (handleTap cfg g i 1 t')); auto; discriminate. }
  inversion Hrun as [|s l s1 ls s2 Hstep Hrest]; subst; [discriminate Htaps|].
  inversion Hstep as [? ? idx taps now Hclock|? ? due now Hdue Hclock Hnow]; subst.
  - simpl in Htaps. injection Htaps as -> -> -> Hlstaps.
    destruct (Hnext ls Hrest Hlstaps) as [-> Hnone].
    split; [reflexivity|exact Hnone].
  - exfalso. simpl in Htaps.
    assert (Hdue' : due = t + TAP_COMMIT_MS cfg)
      by (destruct Htimer as [Hn|Hs]; congruence).
    pose proof (run_without_timer _ _ _ _ Hrest eq_refl) as Hfirst.
    destruct ls as [|[idx taps now'|idx count] ls'].
    + discriminate Htaps.
    + simpl in Htaps. injection Htaps as -> -> -> _.
      destruct Hfirst as [Hclock' _]. lia.
    + destruct Hfirst.
Qed.

End ScrollSuppression.

(** C5. A scroll - single taps at increasing positions, each within the
    scroll window of the one before - produces no committed action: in
    every run of a session without a pending commit whose taps are those of
    the scroll, all the taps are handled before anything is committed, and
    from the second tap on no commit is even pending.  A double tap always
    schedules a commit, and so does a repeat of the current position
    (within the tap window, or at any time in a session the handler has
    produced). *)
Theorem scroll_suppression (useRealGlasses : bool) :
  let cfg := gestureConfig useRealGlasses in
  (forall (clock : Z) (g : GestureSession) (taps : list (Z * Z))
          (labels : list Label) (s' : Z * GestureSession),
      commitTimeoutId g = None ->
      scroll (SCROLL_WINDOW_MS cfg) taps ->
      run cfg (clock, g) labels s' ->
      tapsOf labels = singleTaps taps ->
      exists post,
        labels = singleTaps taps ++ post
        /\ ((2 <= length taps)%nat ->
            post = [] /\ commitTimeoutId (snd s') = None))
  /\ (forall (g : GestureSession) (position gestureTaps now : Z),
         gestureTaps = 2
         \/ (position = lastTapIndex g
             /\ (now - lastTapTime g <= TAP_WINDOW_MS cfg \/ wellTimed g)) ->
         commitTimeoutId (handleTap cfg g position gestureTaps now)
         = Some (now + TAP_COMMIT_MS cfg)).
Proof.
  intros cfg.
  destruct (gestureConfig_windows useRealGlasses) as (Hnonneg & Hcommit & Htap).
  fold cfg in Hnonneg, Hcommit, Htap. split.
  - intros clock g taps labels s' Htimer Hscroll Hrun Htaps.
    destruct taps as [|[p t] rest].
    + exists labels. split; [reflexivity|simpl; lia].
    + pose proof (run_without_timer cfg _ _ _ _ Hrun Htimer) as Hfirst.
      destruct labels as [|[i taps now|i count] ls]; [discriminate Htaps| |destruct Hfirst].
      simpl in Htaps. injection Htaps as -> -> -> Hlstaps.
      destruct Hfirst as [_ Hrest].
      destruct (handleTap_records cfg Hnonneg g p 1 t) as (Hlast & Hrecent & Hdue).
      destruct rest as [|e rest'].
      * exists ls. split; [reflexivity|simpl; lia].
      * exists []. rewrite app_nil_r.
        destruct (scroll_suppressed cfg Hnonneg Hcommit (e :: rest') p t
                    (handleTap cfg g p 1 t) ls s' Hscroll Hlast Hrecent Hdue
                    Hrest Hlstaps ltac:(discriminate)) as [-> Hnone].
        split; [reflexivity|]. intros _. split; [reflexivity|exact Hnone].
  - intros g position gestureTaps now Hcase.
    unfold handleTap. cbn [commitTimeoutId].
    destruct Hcase as [->|[-> [Hwindow|Htimed]]].
    + rewrite andb_false_r. reflexivity.
    + rewrite Z.eqb_refl.
      destruct (Z.leb_spec (now - lastTapTime g) (TAP_WINDOW_MS cfg)); [|lia].
      reflexivity.
    + rewrite Z.eqb_refl.
      destruct (Z.leb_spec (now - lastTapTime g) (TAP_WINDOW_MS cfg)) as [|Hlate];
        [reflexivity|].
      rewrite shiftOld_stale.
      * rewrite uniqueIndices_singleton. simpl. rewrite andb_false_r. reflexivity.
      * eapply List.Forall_impl; [|exact Htimed]. cbv beta. intros e He. lia.
      * cbn [snd]. lia.
Qed.

Lemma scroll_suppression_witness :
  let cfg := gestureConfig false in
  let taps := [(1, 1000); (2, 1200); (3, 1400)] in
  let final :=
    handleTap cfg (handleTap cfg (handleTap cfg initialSession 1 1 1000) 2 1 1200)
              3 1 1400 in
  (exists post,
      singleTaps taps = singleTaps taps ++ post
      /\ ((2 <= length taps)%nat ->
          post = [] /\ commitTimeoutId (snd (1400, final)) = None))
  /\ commitTimeoutId
       (handleTap cfg (handleTap cfg initialSession 3 1 1000) 3 1 1300)
     = Some (1300 + TAP_COMMIT_MS cfg).
Proof.
  intros cfg taps final. split.
  - apply (proj1 (scroll_suppression false) 0 initialSession taps
                 (singleTaps taps) (1400, final)).
    + reflexivity.
    + simpl. lia.
    + unfold taps, final, singleTaps. cbn [map fst snd].
      repeat (eapply run_cons; [apply step_tap; lia|]). apply run_nil.
    + reflexivity.
  - apply (proj2 (scroll_suppression false)).
    right. split; [reflexivity|]. left. simpl. lia.
Defined.

(** ** Gesture accumulation over every run *)

Section Accumulation.

Variable cfg : GestureConfig.
Variable position : Z.
Hypothesis window_nonneg : 0 <= SCROLL_WINDOW_MS cfg.
Hypothesis commit_window_positive : 0 < TAP_COMMIT_MS cfg.

(** The first tap of a gesture, in an idle session. *)
Lemma handleTap_fresh (g : GestureSession) (t : Z) :
  lastTapIndex g = -1 -> tapCount g = 0 ->
  Forall (fun e => snd e < t - SCROLL_WINDOW_MS cfg) (recentListIndices g) ->
  let one := handleTap cfg g position 1 t in
  lastTapIndex one = position /\ lastTapTime one = t /\ tapCount one = 1
  /\ commitTimeoutId one = Some (t + TAP_COMMIT_MS cfg).
Proof.
  intros Hidle Hcount Hstale. unfold handleTap.
  cbn [commitTimeoutId lastTapIndex tapCount lastTapTime].
  rewrite Hidle, Hcount.
  rewrite shiftOld_stale; [|exact Hstale|simpl; lia].
  rewrite uniqueIndices_singleton.
  destruct ((position =? -1) && _) eqn:Hsame; simpl.
  - apply andb_prop in Hsame. destruct Hsame as [Hpos _].
    apply Z.eqb_eq in Hpos. repeat split; congruence.
  - repeat split; reflexivity.
Qed.

(** A repeat of the position within the tap window adds to the count and
    schedules the commit anew. *)
Lemma handleTap_repeat (g : GestureSession) (k t : Z) :
  lastTapIndex g = position -> t - lastTapTime g <= TAP_WINDOW_MS cfg ->
  let g' := handleTap cfg g position k t in
  lastTapIndex g' = position /\ lastTapTime g' = t
  /\ tapCount g' = Z.min (tapCount g + k) 4
  /\ commitTimeoutId g' = Some (t + TAP_COMMIT_MS cfg).
Proof.
  intros Hlast Hclose. unfold handleTap.
  cbn [commitTimeoutId lastTapIndex tapCount lastTapTime].
  rewrite Hlast, Z.eqb_refl.
  destruct (Z.leb_spec (t - lastTapTime g) (TAP_WINDOW_MS cfg)); [|lia].
  cbn [andb negb]. repeat split; reflexivity.
Qed.

(** After close taps at the position the commit of the position is
    pending, due the commit window after the last tap. *)
Lemma tapAll_pending (rest : list (Z * Z)) :
  forall g : GestureSession,
    lastTapIndex g = position ->
    commitTimeoutId g = Some (lastTapTime g + TAP_COMMIT_MS cfg) ->
    closeTaps (TAP_WINDOW_MS cfg) (lastTapTime g) rest ->
    let final := tapAll cfg g position rest in
    lastTapIndex final = position
    /\ commitTimeoutId final = Some (lastTapTime final + TAP_COMMIT_MS cfg).
Proof.
  induction rest as [|[k t] rest IH]; intros g Hlast Htimer Hclose.
  - split; assumption.
  - destruct Hclose as [Hclose Hrest].
    destruct (handleTap_repeat g k t Hlast Hclose) as (Hl & Ht & _ & Htm).
    apply (IH (handleTap cfg g position k t)).
    + exact Hl.
    + cbn [fst snd]. rewrite Ht. exact Htm.
    + cbn [fst snd]. rewrite Ht. exact Hrest.
Qed.

(** With the commit of the position pending, close taps at the position
    that each arrive before the pending commit is due are handled one
    after the other, and only then is one commit made. *)
Lemma pending_gesture_commits (rest : list (Z * Z)) :
  forall (g : GestureSession) (labels : list Label) (s' : Z * GestureSession),
    lastTapIndex g = position ->
    commitTimeoutId g = Some (lastTapTime g + TAP_COMMIT_MS cfg) ->
    closeTaps (TAP_WINDOW_MS cfg) (lastTapTime g) rest ->
    beforeCommit (TAP_COMMIT_MS cfg) (lastTapTime g) rest ->
    run cfg (lastTapTime g, g) labels s' ->
    tapsOf labels = tapsAt position rest ->
    let final := tapAll cfg g position rest in
    (labels = tapsAt position rest /\ s' = (lastTapTime final, final))
    \/ (exists now,
          labels = tapsAt position rest ++ [Committed position (tapCount final)]
          /\ lastTapTime final + TAP_COMMIT_MS cfg <= now
          /\ s' = (now, afterCommit final)).
Proof.
  induction rest as [|[k t] rest IH];
    intros g labels s' Hlast Htimer Hclose Hbefore Hrun Htaps.
  - cbn [tapAll fold_left tapsAt map app] in *. revert Hlast.
    inversion Hrun as [|s l s1 ls s2 Hstep Hrest]; subst;
      [left; split; reflexivity|].
    inversion Hstep as [? ? idx taps now Hclock|? ? due now Hdue Hclock Hnow];
      subst; intros Hlast; [discriminate Htaps|].
    right. simpl in Htaps.
    destruct (run_quiet cfg _ _ _ _ Hrest eq_refl Htaps) as [-> ->].
    exists now. rewrite Hlast. split; [reflexivity|].
    split; [|reflexivity]. rewrite Htimer in Hdue. injection Hdue as <-. exact Hnow.
  - destruct Hclose as [Hclose Hclose']. destruct Hbefore as [Hbefore Hbefore'].
    revert Hlast.
    inversion Hrun as [|s l s1 ls s2 Hstep Hrest]; subst; [discriminate Htaps|].
    inversion Hstep as [? ? idx taps now Hclock|? ? due now Hdue Hclock Hnow];
      subst; intros Hlast.
    + simpl in Htaps. injection Htaps as -> -> -> Hlstaps.
      destruct (handleTap_repeat g k t Hlast Hclose) as (Hl & Ht & _ & Htm).
      destruct (IH (handleTap cfg g position k t) ls s') as [[-> ->]|Hdone].
      * exact Hl.
      * rewrite Ht. exact Htm.
      * rewrite Ht. exact Hclose'.
      * rewrite Ht. exact Hbefore'.
      * rewrite Ht. exact Hrest.
      * exact Hlstaps.
      * left. split; reflexivity.
      * right. destruct Hdone as (now & -> & Hdue & ->).
        exists now. repeat split. exact Hdue.
    + exfalso. simpl in Htaps.
      rewrite Htimer in Hdue. injection Hdue as <-.
      pose proof (run_without_timer cfg _ _ _ _ Hrest eq_refl) as Hfirst.
      destruct ls as [|[idx taps now'|idx count] ls'].
      * discriminate Htaps.
      * simpl in Htaps. injection Htaps as -> -> -> _.
        destruct Hfirst as [Hclock' _]. lia.
      * destruct Hfirst.
Qed.

(** From an idle session: the first tap schedules the commit, and the
    taps that follow it closely, each before the pending commit is due,
    end in one commit of the position with the count of the handler. *)
Lemma idle_gesture_commits (g : GestureSession) (t : Z) (rest : list (Z * Z)) :
  lastTapIndex g = -1 -> tapCount g = 0 -> commitTimeoutId g = None ->
  Forall (fun e => snd e < t - SCROLL_WINDOW_MS cfg) (recentListIndices g) ->
  closeTaps (TAP_WINDOW_MS cfg) t rest ->
  beforeCommit (TAP_COMMIT_MS cfg) t rest ->
  let final := tapAll cfg g position ((1, t) :: rest) in
  commitsAs cfg g position ((1, t) :: rest) (lastTapTime final) (tapCount final).
Proof.
  intros Hidle Hcount Hnone Hstale Hclose Hbefore final.
  destruct (handleTap_fresh g t Hidle Hcount Hstale) as (Hl & Ht & _ & Htm).
  set (one := handleTap cfg g position 1 t) in *.
  assert (Hpending : lastTapIndex final = position
                     /\ commitTimeoutId final
                        = Some (lastTapTime final + TAP_COMMIT_MS cfg)).
  { apply (tapAll_pending rest one); [exact Hl| |]; rewrite Ht; assumption. }
  destruct Hpending as [Hposition Hpending].
  intros clock labels s' Hrun Htaps.
  pose proof (run_without_timer cfg _ _ _ _ Hrun Hnone) as Hfirst.
  destruct labels as [|[idx taps now|idx count] ls];
    [discriminate Htaps| |destruct Hfirst].
  simpl in Htaps. injection Htaps as -> -> -> Hlstaps.
  destruct Hfirst as [_ Hrest]. fold one in Hrest.
  destruct (pending_gesture_commits rest one ls s') as [[-> ->]|Hdone].
  - exact Hl.
  - rewrite Ht. exact Htm.
  - rewrite Ht. exact Hclose.
  - rewrite Ht. exact Hbefore.
  - rewrite Ht. exact Hrest.
  - exact Hlstaps.
  - change (tapAll cfg one position rest) with final. cbn [fst snd]. split.
    + left. repeat split; [exact Hpending|].
      unfold committed. rewrite Hposition. reflexivity.
    + lia.
  - destruct Hdone as (now & -> & Hdue & ->).
    change (tapAll cfg one position rest) with final in *. split.
    + right. repeat split. exact Hdue.
    + intros _. reflexivity.
Qed.

End Accumulation.

(** The claim of C4 fails on the glasses at the edge of the tap window,
    where the tap window and the commit window are both 800 ms: a second
    tap 800 ms after the first is within the tap window, but the commit
    scheduled by the first tap is due at that very time and may run first.
    The two taps are then committed one by one, each as count 1, and never
    as count 2. *)
Lemma taps_at_the_window_edge_commit_apart :
  let cfg := gestureConfig true in
  let labels :=
    [Tapped 4 1 1000; Committed 4 1; Tapped 4 1 1800; Committed 4 1] in
  1800 - 1000 <= TAP_WINDOW_MS cfg
  /\ tapsOf labels = [Tapped 4 1 1000; Tapped 4 1 1800]
  /\ (exists g', run cfg (0, initialSession) labels (2600, g'))
  /\ 1800 + TAP_COMMIT_MS cfg <= 2600
  /\ ~ commitsAs cfg initialSession 4 [(1, 1000); (1, 1800)] 1800 2.
Proof.
  intros cfg labels.
  assert (Hrun : exists g', run cfg (0, initialSession) labels (2600, g')).
  { set (first := handleTap cfg initialSession 4 1 1000).
    set (second := handleTap cfg (afterCommit first) 4 1 1800).
    exists (afterCommit second). unfold labels.
    apply run_cons with (1000, first); [apply step_tap; lia|].
    apply run_cons with (1800, afterCommit first);
      [exact (step_commit cfg 1000 first 1800 1800 eq_refl
                ltac:(lia) ltac:(lia))|].
    apply run_cons with (1800, second); [apply step_tap; lia|].
    apply run_cons with (2600, afterCommit second);
      [exact (step_commit cfg 1800 second 2600 2600 eq_refl
                ltac:(lia) ltac:(lia))|].
    apply run_nil. }
  split; [simpl; lia|]. split; [reflexivity|]. split; [exact Hrun|].
  split; [simpl; lia|].
  intros Hclaim. destruct Hrun as [g' Hrun].
  destruct (Hclaim 0 labels (2600, g') Hrun eq_refl) as [_ Hcommitted].
  discriminate Hcommitted. simpl. lia.
Qed.

(** C4 (amended). From an idle session (no position, count zero, nothing
    pending, recorded positions older than the scroll window), on the
    glasses or in the simulator, in every run: one tap, then silence,
    commits once as count 1 at its position; two taps at the same
    position, the second within the tap window of the first and before the
    commit scheduled by the first is due, commit once as count 2; three
    such taps commit once as count 3.  Nothing is committed between the
    taps, the commit is made no earlier than the commit window after the
    last tap, and a run that reaches that time has made it; such runs
    exist.  In the simulator every tap within the tap window is before the
    pending commit.  On a paginated list the router then runs the primary
    action for count 1; for count 2 it goes to the previous page or, on
    the first page, back to the parent screen (on the rooms list from slot
    0); for count 3 it jumps to the last page when the page shown is not
    the last.  The other screens have one page. *)
Theorem gesture_accumulation (useRealGlasses : bool) (g : GestureSession)
    (position t1 t2 t3 : Z) :
  let cfg := gestureConfig useRealGlasses in
  lastTapIndex g = -1 -> tapCount g = 0 -> commitTimeoutId g = None ->
  Forall (fun e => snd e < t1 - SCROLL_WINDOW_MS cfg) (recentListIndices g) ->
  t2 - t1 <= TAP_WINDOW_MS cfg -> t2 - t1 < TAP_COMMIT_MS cfg ->
  t3 - t2 <= TAP_WINDOW_MS cfg -> t3 - t2 < TAP_COMMIT_MS cfg ->
  let one := handleTap cfg g position 1 t1 in
  let two := handleTap cfg one position 1 t2 in
  let three := handleTap cfg two position 1 t3 in
  commitsAs cfg g position [(1, t1)] t1 1
  /\ commitsAs cfg g position [(1, t1); (1, t2)] t2 2
  /\ commitsAs cfg g position [(1, t1); (1, t2); (1, t3)] t3 3
  /\ (forall clock now,
         clock <= t1 -> t1 + TAP_COMMIT_MS cfg <= now ->
         run cfg (clock, g)
             [Tapped position 1 t1; Committed position 1]
             (now, afterCommit one))
  /\ (forall clock now,
         clock <= t1 <= t2 -> t2 + TAP_COMMIT_MS cfg <= now ->
         run cfg (clock, g)
             [Tapped position 1 t1; Tapped position 1 t2; Committed position 2]
             (now, afterCommit two))
  /\ (forall clock now,
         clock <= t1 <= t2 -> t2 <= t3 -> t3 + TAP_COMMIT_MS cfg <= now ->
         run cfg (clock, g)
             [Tapped position 1 t1; Tapped position 1 t2; Tapped position 1 t3;
              Committed position 3]
             (now, afterCommit three))
  /\ (useRealGlasses = false ->
      forall a b, b - a <= TAP_WINDOW_MS cfg -> b - a < TAP_COMMIT_MS cfg)
  /\ forall (localeCompare : jsstring -> jsstring -> Z) (state : AppState),
       let page := listPageIndex state in
       let totalPages := getTotalPages localeCompare state in
       (isPaginatedList (listView state) = true ->
        commitTap localeCompare state position 1
        = singleTap localeCompare state position
        /\ (page <> 0 ->
            commitTap localeCompare state position 2
            = [Dispatch (LIST_PAGE (page - 1)); RefreshPage])
        /\ (page = 0 -> position = 0 \/ backOnAnySlot (listView state) = true ->
            exists parent,
              parentView (listView state) = Some parent
              /\ commitTap localeCompare state position 2
                 = [Dispatch (NAV_VIEW parent); RefreshPage])
        /\ (page <> totalPages - 1 ->
            commitTap localeCompare state position 3
            = [Dispatch (LIST_PAGE (totalPages - 1)); RefreshPage]
            /\ listPageIndex
                 (applyEffects state (commitTap localeCompare state position 3))
               = totalPages - 1))
       /\ (isPaginatedList (listView state) = false -> totalPages = 1).
Proof.
  intros cfg Hidle Hcount Hnone Hstale H12 H12' H23 H23' one two three.
  destruct (gestureConfig_windows useRealGlasses) as (Hnonneg & Hafter & _).
  fold cfg in Hnonneg, Hafter.
  assert (Hcommit : 0 < TAP_COMMIT_MS cfg) by lia.
  destruct (handleTap_fresh cfg position Hnonneg g t1 Hidle Hcount Hstale)
    as (Hindex1 & Htime1 & Hcount1 & Htimer1). fold one in Hindex1, Htime1, Hcount1, Htimer1.
  destruct (handleTap_repeat cfg position one 1 t2 Hindex1)
    as (Hindex2 & Htime2 & Hcount2 & Htimer2); [rewrite Htime1; exact H12|].
  fold two in Hindex2, Htime2, Hcount2, Htimer2. rewrite Hcount1 in Hcount2.
  destruct (handleTap_repeat cfg position two 1 t3 Hindex2)
    as (Hindex3 & Htime3 & Hcount3 & Htimer3); [rewrite Htime2; exact H23|].
  fold three in Hindex3, Htime3, Hcount3, Htimer3. rewrite Hcount2 in Hcount3.
  change (Z.min (1 + 1) 4) with 2 in Hcount2.
  change (Z.min (Z.min (1 + 1) 4 + 1) 4) with 3 in Hcount3.
  assert (H1 : committed one = (position, 1)) by (unfold committed; congruence).
  assert (H2 : committed two = (position, 2)) by (unfold committed; congruence).
  assert (H3 : committed three = (position, 3)) by (unfold committed; congruence).
  split.
  { pose proof (idle_gesture_commits cfg position Hnonneg Hcommit g t1 []
                  Hidle Hcount Hnone Hstale I I) as H.
    cbv zeta in H. change (tapAll cfg g position [(1, t1)]) with one in H.
    rewrite Htime1, Hcount1 in H. exact H. }
  split.
  { pose proof (idle_gesture_commits cfg position Hnonneg Hcommit g t1 [(1, t2)]
                  Hidle Hcount Hnone Hstale) as H.
    cbv zeta in H. change (tapAll cfg g position [(1, t1); (1, t2)]) with two in H.
    rewrite Htime2, Hcount2 in H.
    apply H; cbn [closeTaps beforeCommit]; (split; [lia|exact I]). }
  split.
  { pose proof (idle_gesture_commits cfg position Hnonneg Hcommit g t1
                  [(1, t2); (1, t3)] Hidle Hcount Hnone Hstale) as H.
    cbv zeta in H.
    change (tapAll cfg g position [(1, t1); (1, t2); (1, t3)]) with three in H.
    rewrite Htime3, Hcount3 in H.
    apply H; cbn [closeTaps beforeCommit];
      (split; [lia|split; [lia|exact I]]). }
  split.
  { intros clock now Hclock Hnow.
    eapply run_cons; [apply step_tap; lia|].
    eapply commit_fires; eauto; lia. }
  split.
  { intros clock now Hclock Hnow.
    eapply run_cons; [apply step_tap; lia|].
    eapply run_cons; [apply step_tap; lia|].
    eapply commit_fires; eauto; lia. }
  split.
  { intros clock now Hclock Hlater Hnow.
    eapply run_cons; [apply step_tap; lia|].
    eapply run_cons; [apply step_tap; lia|].
    eapply run_cons; [apply step_tap; lia|].
    eapply commit_fires; eauto; lia. }
  split.
  { intros -> a b. simpl. lia. }
  intros localeCompare state. split.
  - apply commitTap_paginated.
  - apply single_page_views.
Qed.

Lemma gesture_accumulation_witness :
  let cfg := gestureConfig true in
  commitsAs cfg initialSession 4 [(1, 1000); (1, 1500); (1, 2200)] 2200 3
  /\ run cfg (0, initialSession)
         [Tapped 4 1 1000; Tapped 4 1 1500; Tapped 4 1 2200; Committed 4 3]
         (3000,
          afterCommit
            (handleTap cfg
               (handleTap cfg (handleTap cfg initialSession 4 1 1000) 4 1 1500)
               4 1 2200)).
Proof.
  intros cfg.
  assert (H12 : 1500 - 1000 <= TAP_WINDOW_MS cfg) by (simpl; lia).
  assert (H12' : 1500 - 1000 < TAP_COMMIT_MS cfg) by (simpl; lia).
  assert (H23 : 2200 - 1500 <= TAP_WINDOW_MS cfg) by (simpl; lia).
  assert (H23' : 2200 - 1500 < TAP_COMMIT_MS cfg) by (simpl; lia).
  destruct (gesture_accumulation true initialSession 4 1000 1500 2200
              eq_refl eq_refl eq_refl (List.Forall_nil _) H12 H12' H23 H23')
    as (_ & _ & Hthree & _ & _ & Hrun & _).
  split; [exact Hthree|]. apply Hrun; simpl; lia.
Defined.

(** ** Sessions reached from the initial one *)

Lemma initialSession_inv (cfg : GestureConfig) (clock : Z) :
  0 <= clock -> sessionInv cfg (clock, initialSession).
Proof.
  intros Hclock. unfold sessionInv, wellTimed. simpl.
  split; [exact Hclock|]. split; [constructor|discriminate].
Qed.

Lemma step_preserves_inv (cfg : GestureConfig) (s s' : Z * GestureSession)
    (l : Label) :
  0 <= SCROLL_WINDOW_MS cfg ->
  sessionInv cfg s -> step cfg s l s' -> sessionInv cfg s'.
Proof.
  intros Hwindow (Hclock & Htimed & Hdue) Hstep.
  inversion Hstep as [clock g i taps now Hnow|clock g due now Htimer Hnow Hlate];
    subst; unfold sessionInv, wellTimed in *; simpl in *.
  - split; [lia|]. split.
    + apply List.Forall_forall. intros e He. apply shiftOld_In in He.
      apply in_app_or in He. destruct He as [He|[<-|[]]]; [|simpl; lia].
      pose proof (proj1 (List.Forall_forall _ _) Htimed e He). simpl in *. lia.
    + intros due. destruct (_ && _); [discriminate|]. intros [= <-]. reflexivity.
  - split; [|split; [exact Htimed|discriminate]].
    pose proof (Hdue due Htimer). lia.
Qed.

(** A commit leaves the session idle: no position, count zero, nothing
    pending, and every recorded position older than the scroll window of
    any tap to come. *)
Lemma commit_leaves_idle (cfg : GestureConfig) (s s' : Z * GestureSession)
    (i n : Z) :
  0 <= TAP_COMMIT_MS cfg -> SCROLL_WINDOW_MS cfg < TAP_COMMIT_MS cfg ->
  sessionInv cfg s -> step cfg s (Committed i n) s' ->
  lastTapIndex (snd s') = -1 /\ tapCount (snd s') = 0
  /\ commitTimeoutId (snd s') = None
  /\ forall t1, fst s' <= t1 ->
       Forall (fun e => snd e < t1 - SCROLL_WINDOW_MS cfg)
              (recentListIndices (snd s')).
Proof.
  intros Hcommit Hwindow (Hclock & Htimed & Hdue) Hstep.
  inversion Hstep as [|clock g due now Htimer Hnow Hlate]; subst. simpl in *.
  repeat split. intros t1 Ht1.
  eapply List.Forall_impl; [|exact Htimed]. cbv beta. intros e He.
  pose proof (Hdue due Htimer). lia.
Qed.

(** ** Worked examples *)

(** Forty scenes take three pages; a triple tap on the second page jumps
    to the third, a double tap goes back to the first. *)
Example triple_tap_jumps_to_last_page :
  getTotalPages codeUnitCompare Examples.stateScenes40 = 3
  /\ listPageIndex
       (applyEffects Examples.stateScenes40
          (commitTap codeUnitCompare Examples.stateScenes40 5 3)) = 2
  /\ listPageIndex
       (applyEffects Examples.stateScenes40
          (commitTap codeUnitCompare Examples.stateScenes40 5 2)) = 0.
Proof. vm_compute. repeat split. Qed.

(** A single tap on slot 5 of the second page runs the scene of index
    17 + 4 = 21. *)
Example single_tap_runs_the_scene_of_the_slot :
  commitTap codeUnitCompare Examples.stateScenes40 5 1
  = [Dispatch (TAP 5 None); RunExecuteScene 21].
Proof. vm_compute. reflexivity. Qed.

(** The first page of 25 devices has 19 labels, the second 11. *)
Example devices25_page_sizes :
  length (listItemNamesForState codeUnitCompare (Examples.state25 0)) = 19%nat
  /\ length (listItemNamesForState codeUnitCompare (Examples.state25 1)) = 11%nat.
Proof. vm_compute. split; reflexivity. Qed.

(** The slot of Previous on a later page of the devices view is mapped to
    a device index by the selector; the router handles that slot before it
    asks. *)
Example previous_slot_is_handled_by_the_router :
  getDeviceIndexFromDevicesList codeUnitCompare (Examples.state25 1) 1 0 = 14
  /\ commitTap codeUnitCompare (Examples.state25 1) 0 1
     = [Dispatch (LIST_PAGE 0); RefreshPage].
Proof. vm_compute. split; reflexivity. Qed.

(** A click, a hardware double tap and a scroll event on the SDK's codes. *)
Example mapper_on_sdk_events :
  EvenHubSdk.mapEvenHubEvent
    (Some {| sysEvent := None;
             listEvent := Some {| list_eventType := Some 0;
                                  currentSelectItemIndex := Some 4 |} |}) None
  = Some (TAP 4 (Some 1))
  /\ EvenHubSdk.mapEvenHubEvent
       (Some {| sysEvent := Some {| sys_eventType := Some 3 |};
                listEvent := None |})
       (Some Examples.stateScenes40)
     = Some (TAP 0 (Some 2))
  /\ EvenHubSdk.mapEvenHubEvent
       (Some {| sysEvent := None;
                listEvent := Some {| list_eventType := Some 1;
                                     currentSelectItemIndex := Some 0 |} |}) None
     = None
  /\ EvenHubSdk.mapEvenHubEvent None None = None.
Proof. repeat split. Qed.

(** * Further properties of the program *)

(** ** Size of a composed page *)

Lemma slice_width_max {A} (l : list A) (a w : Z) :
  0 <= w \/ 0 <= a + w ->
  Z.of_nat (length (slice l a (a + w))) <= Z.max w 0.
Proof.
  intros Hstop. unfold slice, rel_index. rewrite length_firstn, length_skipn.
  destruct (Z.ltb_spec a 0); destruct (Z.ltb_spec (a + w) 0); lia.
Qed.

(** The content part of a page, names and padding, fills at most the
    content slots of the page. *)
Lemma content_part_length {T} (items : list T) (label : T -> jsstring)
    (start slots : Z) (padded : bool) :
  0 <= slots \/ 0 <= start + slots ->
  Z.of_nat
    (length (map label (slice items start (start + slots))
             ++ (if padded
                 then array_fill
                        (slots - Z.of_nat
                                   (length (map label
                                              (slice items start (start + slots)))))
                        ([] : jsstring)
                 else [])))
  <= Z.max slots 0.
Proof.
  intros Hstop.
  pose proof (slice_width_max items start slots Hstop) as Hwidth.
  rewrite length_app, length_map. destruct padded.
  - unfold array_fill. rewrite repeat_length. lia.
  - simpl. lia.
Qed.

Lemma paged_names_length {T} (items : list T) (label : T -> jsstring)
    (PER_PAGE page : Z) :
  0 < PER_PAGE ->
  Z.of_nat (length (pagedNamesForListView items label PER_PAGE page))
  <= PER_PAGE + 2.
Proof.
  intros Hper. unfold pagedNamesForListView.
  set (n := Z.of_nat (length items)).
  set (firstPageSlots := if n <=? PER_PAGE then PER_PAGE else PER_PAGE - 1).
  set (totalPages := if n <=? PER_PAGE then 1 else _).
  set (p := Z.min page (totalPages - 1)).
  set (contentSlots := if p =? 0 then firstPageSlots else PER_PAGE).
  set (start := if p =? 0 then 0 else _).
  assert (Hslots : 0 <= contentSlots <= PER_PAGE).
  { subst contentSlots firstPageSlots.
    destruct (p =? 0); [destruct (n <=? PER_PAGE)|]; lia. }
  pose proof (content_part_length items label start contentSlots
                (negb ((p =? 0) && (p =? totalPages - 1)))
                (or_introl (proj1 Hslots))) as Hpart.
  destruct (p =? 0); destruct (p =? totalPages - 1); simpl in *;
    rewrite ?length_app in *; simpl; lia.
Qed.

Section PageSize.

Variable localeCompare : jsstring -> jsstring -> Z.

Lemma devices_names_length (state : AppState) :
  Z.of_nat (length (deviceNamesForListView localeCompare state)) <= LIST_MAX_ITEMS.
Proof.
  unfold deviceNamesForListView.
  destruct (getOrderedDevices localeCompare state) as [|d0 ds] eqn:Hdevices.
  - destruct (devicesStatus state); simpl; unfold LIST_MAX_ITEMS; lia.
  - rewrite <- Hdevices. clear Hdevices d0 ds.
    set (devices := getOrderedDevices localeCompare state).
    set (n := Z.of_nat (length devices)).
    rewrite devicesFirstCount_alt.
    set (totalPages := if DEVICES_PER_PAGE - 1 <? 1 + n then _ else 1).
    set (p := Z.min (listPageIndex state) (Z.max 0 (totalPages - 1))).
    assert (Hn : 0 <= n) by (subst n; lia).
    assert (Hfirst : 0 <= devicesFirstCount n <= 16).
    { unfold devicesFirstCount, DEVICES_PER_PAGE, SCENES_PER_PAGE, LIST_MAX_ITEMS.
      destruct (Z.ltb_spec (20 - 2 - 1) (1 + n)); lia. }
    unfold LIST_MAX_ITEMS.
    destruct (p =? 0) eqn:Hp.
    + pose proof (slice_width_max devices 0 (devicesFirstCount n)
                    (or_introl (proj1 Hfirst))) as Hwidth.
      rewrite Z.add_0_l in Hwidth.
      assert (Hslots : (if DEVICES_PER_PAGE - 1 <? 1 + n
                        then DEVICES_PER_PAGE - 1 else 1 + n) <= 17).
      { unfold DEVICES_PER_PAGE, SCENES_PER_PAGE, LIST_MAX_ITEMS.
        destruct (Z.ltb_spec (20 - 2 - 1) (1 + n)); lia. }
      destruct (p =? totalPages - 1); simpl;
        rewrite ?length_app, ?length_map; unfold array_fill;
        rewrite ?repeat_length; simpl; rewrite ?length_map; lia.
    + set (start := devicesFirstCount n + (p - 1) * (DEVICES_PER_PAGE - 1)).
      set (contentSlots := if (p =? totalPages - 1) && _ then n - start
                           else DEVICES_PER_PAGE - 1).
      assert (Hslots : contentSlots <= 17).
      { subst contentSlots.
        unfold DEVICES_PER_PAGE, SCENES_PER_PAGE, LIST_MAX_ITEMS.
        destruct ((p =? totalPages - 1) && _) eqn:Hshort; [|lia].
        apply andb_prop in Hshort. destruct Hshort as [_ Hshort].
        apply Z.ltb_lt in Hshort. lia. }
      assert (Hstop : 0 <= contentSlots \/ 0 <= start + contentSlots).
      { subst contentSlots.
        unfold DEVICES_PER_PAGE, SCENES_PER_PAGE, LIST_MAX_ITEMS.
        destruct ((p =? totalPages - 1) && _); lia. }
      pose proof (content_part_length devices (deviceLabel state) start
                    contentSlots true Hstop) as Hpart.
      simpl in Hpart.
      destruct (p =? totalPages - 1); simpl; rewrite ?length_app in *;
        simpl; lia.
Qed.

Lemma dim_names_length (state : AppState) :
  Z.of_nat (length (dimLevelItemNames state)) <= LIST_MAX_ITEMS.
Proof.
  unfold dimLevelItemNames.
  set (page := listPageIndex state).
  set (totalLevels := Z.of_nat (length DIM_LEVELS)).
  set (totalPages := if totalLevels <=? DIM_LEVELS_PER_PAGE then 1 else _).
  set (start := if page =? 0 then 0 else _).
  set (contentSlots := if page =? 0 then DIM_LEVELS_PER_PAGE else _).
  assert (Htotal : totalPages = 1) by reflexivity.
  assert (Hslots : 0 <= contentSlots <= 18).
  { subst contentSlots. rewrite Htotal.
    unfold DIM_LEVELS_PER_PAGE, SCENES_PER_PAGE, LIST_MAX_ITEMS.
    destruct (Z.eqb_spec page 0); [lia|].
    destruct (Z.eqb_spec page (1 - 1)); lia. }
  assert (Hstop : 0 <= contentSlots \/ 0 <= start + contentSlots) by lia.
  pose proof (content_part_length DIM_LEVELS string_of_level start contentSlots
                (negb ((page =? 0) && (page =? totalPages - 1))) Hstop) as Hpart.
  rewrite length_app in Hpart. rewrite !length_map in Hpart.
  unfold LIST_MAX_ITEMS.
  destruct (page =? 0); destruct (page =? totalPages - 1); simpl in *;
    rewrite ?length_app, ?length_map in *; simpl; lia.
Qed.

Lemma composed_list_length (state : AppState) :
  listView state <> ViewMain ->
  Z.of_nat (length (listItemNamesForState localeCompare state)) <= LIST_MAX_ITEMS.
Proof.
  intros Hview. unfold listItemNamesForState.
  assert (Hpaged : forall T (items : list T) label,
             Z.of_nat (length (pagedNamesForListView items label SCENES_PER_PAGE
                                 (listPageIndex state))) <= LIST_MAX_ITEMS).
  { intros T items label.
    pose proof (paged_names_length items label SCENES_PER_PAGE
                  (listPageIndex state)) as H.
    unfold SCENES_PER_PAGE, LIST_MAX_ITEMS in *. lia. }
  destruct (listView state); try congruence.
  - unfold sceneNamesForListView.
    destruct (getOrderedScenes localeCompare state) as [|s ss] eqn:Hs.
    + destruct (decide _); simpl; unfold LIST_MAX_ITEMS; lia.
    + apply Hpaged.
  - unfold roomNamesForListView.
    destruct (getOrderedRooms localeCompare state) as [|r rs] eqn:Hr.
    + destruct (roomsStatus state); simpl; unfold LIST_MAX_ITEMS; lia.
    + apply Hpaged.
  - apply devices_names_length.
  - unfold deviceDetailItemNames.
    destruct (truthy _); destruct (truthy _); simpl; unfold LIST_MAX_ITEMS; lia.
  - apply dim_names_length.
  - unfold roomAllDetailItemNames.
    destruct (roomHasSwitchable _); destruct (roomHasDimmable _); simpl;
      unfold LIST_MAX_ITEMS; lia.
  - apply dim_names_length.
  - unfold favoriteNamesForListView.
    destruct (getOrderedFavorites localeCompare state) as [|f fs] eqn:Hf.
    + simpl. unfold LIST_MAX_ITEMS. lia.
    + apply Hpaged.
Qed.

(** X1. The list widget takes at most [LIST_MAX_ITEMS] items: off the main
    menu, the composed list never has more, whatever the state (any page
    index, any collection). *)
Theorem composed_list_within_widget_limit (state : AppState) :
  listView state <> ViewMain ->
  Z.of_nat (length (listItemNamesForState localeCompare state)) <= LIST_MAX_ITEMS.
Proof. apply composed_list_length. Qed.

End PageSize.

Lemma composed_list_within_widget_limit_witness :
  Z.of_nat (length (listItemNamesForState codeUnitCompare Examples.stateScenes40))
  <= LIST_MAX_ITEMS.
Proof.
  apply (composed_list_within_widget_limit codeUnitCompare Examples.stateScenes40).
  discriminate.
Defined.

(** ** The pages of a view partition its collection *)

Lemma slice_from_start {A} (l : list A) (b : Z) :
  0 <= b -> slice l 0 b = firstn (Z.to_nat b) l.
Proof.
  intros Hb. unfold slice, rel_index. simpl.
  destruct (Z.ltb_spec b 0); [lia|].
  rewrite (Z.min_l 0) by lia. rewrite Z.sub_0_r.
  change (skipn (Z.to_nat 0) l) with l.
  destruct (Z.le_gt_cases b (Z.of_nat (length l))).
  - rewrite Z.min_l by lia. reflexivity.
  - rewrite Z.min_r by lia. rewrite !firstn_all2 by lia. reflexivity.
Qed.

Lemma slice_nonneg {A} (l : list A) (a b : Z) :
  0 <= a <= b ->
  slice l a b = skipn (Z.to_nat a) (firstn (Z.to_nat b) l).
Proof.
  intros Hab. unfold slice, rel_index.
  destruct (Z.ltb_spec a 0); [lia|]. destruct (Z.ltb_spec b 0); [lia|].
  set (len := Z.of_nat (length l)).
  destruct (Z.le_gt_cases a len) as [Ha|Ha].
  - rewrite (Z.min_l a) by lia.
    rewrite firstn_skipn_comm. f_equal.
    destruct (Z.le_gt_cases b len).
    + rewrite Z.min_l by lia. f_equal. lia.
    + rewrite Z.min_r by lia.
      rewrite !firstn_all2 by (subst len; lia). reflexivity.
  - rewrite (Z.min_r a) by lia. rewrite (Z.min_r b) by lia.
    rewrite Z.sub_diag. simpl.
    symmetry. apply skipn_all2. rewrite length_firstn. subst len. lia.
Qed.

Lemma slice_app {A} (l : list A) (b c : Z) :
  0 <= b <= c -> slice l 0 b ++ slice l b c = slice l 0 c.
Proof.
  intros Hbc. rewrite (slice_nonneg l b c) by lia.
  rewrite !slice_from_start by lia.
  replace (firstn (Z.to_nat b) l)
    with (firstn (Z.to_nat b) (firstn (Z.to_nat c) l)).
  - apply firstn_skipn.
  - rewrite firstn_firstn. f_equal. lia.
Qed.

(** Consecutive windows, the first one at index 0, concatenate to a
    prefix of the list. *)
Lemma windows_concat {A} (l : list A) (start slots : Z -> Z) (k : nat) :
  start 0 = 0 ->
  (forall p, 0 <= p -> 0 <= slots p /\ start (p + 1) = start p + slots p) ->
  0 <= start (Z.of_nat k)
  /\ flat_map (fun p => slice l (start p) (start p + slots p))
              (pageNumbers (Z.of_nat k))
     = slice l 0 (start (Z.of_nat k)).
Proof.
  intros Hzero Hstep. unfold pageNumbers. rewrite Nat2Z.id.
  induction k as [|k [Hpos IH]].
  - change (Z.of_nat 0) with 0. rewrite Hzero. split; [lia|].
    rewrite slice_from_start by lia. reflexivity.
  - destruct (Hstep (Z.of_nat k)) as [Hslots Hnext]; [lia|].
    replace (Z.of_nat (S k)) with (Z.of_nat k + 1) by lia.
    rewrite Hnext. split; [lia|].
    rewrite seq_S, map_app, flat_map_app, IH. simpl. rewrite app_nil_r.
    apply slice_app. lia.
Qed.

Lemma windows_cover {A} (l : list A) (start slots : Z -> Z) (totalPages : Z) :
  start 0 = 0 ->
  (forall p, 0 <= p -> 0 <= slots p /\ start (p + 1) = start p + slots p) ->
  0 <= totalPages -> Z.of_nat (length l) <= start totalPages ->
  flat_map (fun p => slice l (start p) (start p + slots p))
           (pageNumbers totalPages) = l.
Proof.
  intros Hzero Hstep Htotal Hend.
  destruct (windows_concat l start slots (Z.to_nat totalPages) Hzero Hstep)
    as [_ Hconcat].
  rewrite Z2Nat.id in Hconcat by lia. rewrite Hconcat.
  rewrite slice_to_end by lia. reflexivity.
Qed.

Lemma paged_pages_partition {T} (items : list T) (PER_PAGE : Z) :
  0 < PER_PAGE ->
  flat_map (pagedPageItems items PER_PAGE)
           (pageNumbers (pagedTotalPages (Z.of_nat (length items)) PER_PAGE))
  = items.
Proof.
  intros Hper. unfold pagedPageItems.
  set (n := Z.of_nat (length items)).
  pose proof (paged_total_pages_positive n PER_PAGE Hper) as Hpos.
  apply (windows_cover items (pagedPageStart n PER_PAGE)
           (pagedPageSlots n PER_PAGE)).
  - reflexivity.
  - intros p Hp. unfold pagedPageStart, pagedPageSlots, pagedFirstSlots.
    destruct (Z.eqb_spec p 0); destruct (Z.eqb_spec (p + 1) 0);
      destruct (n <=? PER_PAGE); subst; simpl; lia.
  - lia.
  - fold n. unfold pagedTotalPages, pagedPageStart, pagedFirstSlots in *.
    destruct (Z.eqb_spec n 0).
    + simpl. destruct (n <=? PER_PAGE); lia.
    + destruct (Z.leb_spec n PER_PAGE); [simpl; lia|].
      pose proof (ceil_div_bounds (n - (PER_PAGE - 1)) PER_PAGE Hper) as Hceil.
      destruct (Z.eqb_spec (1 + ceil_div (n - (PER_PAGE - 1)) PER_PAGE) 0); nia.
Qed.

Lemma devices_pages_partition (devices : list DeviceEntry) :
  flat_map (devicesPageItems devices)
           (pageNumbers (devicesTotalPages (Z.of_nat (length devices))))
  = devices.
Proof.
  unfold devicesPageItems.
  set (n := Z.of_nat (length devices)).
  assert (Hn : 0 <= n) by (subst n; lia).
  apply (windows_cover devices (devicesPageStart n) (devicesPageSlots n)).
  - reflexivity.
  - intros p Hp. unfold devicesPageStart, devicesPageSlots, devicesFirstCount,
      DEVICES_PER_PAGE, SCENES_PER_PAGE, LIST_MAX_ITEMS.
    destruct (Z.eqb_spec p 0); destruct (Z.eqb_spec (p + 1) 0);
      destruct (20 - 2 - 1 <? 1 + n); subst; simpl; lia.
  - unfold devicesTotalPages, devicesFirstCount, DEVICES_PER_PAGE,
      SCENES_PER_PAGE, LIST_MAX_ITEMS.
    pose proof (ceil_div_bounds (n - (20 - 2 - 1 - 1 - 1)) (20 - 2 - 1)).
    destruct (n =? 0); [lia|]. destruct (Z.ltb_spec (20 - 2 - 1) (1 + n)); lia.
  - fold n. unfold devicesTotalPages, devicesPageStart, devicesFirstCount,
      DEVICES_PER_PAGE, SCENES_PER_PAGE, LIST_MAX_ITEMS.
    pose proof (ceil_div_bounds (n - (20 - 2 - 1 - 1 - 1)) (20 - 2 - 1)).
    destruct (Z.eqb_spec n 0); [simpl; destruct (_ <? _); lia|].
    destruct (Z.ltb_spec (20 - 2 - 1) (1 + n)).
    + destruct (Z.eqb_spec (1 + ceil_div (n - (20 - 2 - 1 - 1 - 1)) (20 - 2 - 1)) 0);
        lia.
    + simpl. lia.
Qed.

Lemma devices_total_pages_positive (n : Z) : 1 <= devicesTotalPages n.
Proof.
  unfold devicesTotalPages, devicesFirstCount, DEVICES_PER_PAGE,
    SCENES_PER_PAGE, LIST_MAX_ITEMS.
  pose proof (ceil_div_bounds (n - (20 - 2 - 1 - 1 - 1)) (20 - 2 - 1)).
  destruct (n =? 0); [lia|]. destruct (Z.ltb_spec (20 - 2 - 1) (1 + n)); lia.
Qed.

Lemma pageNumbers_window {A} (f : Z -> A) (totalPages p : Z) (w : A) :
  index (map f (pageNumbers totalPages)) p = Some w ->
  0 <= p < totalPages /\ w = f p.
Proof.
  unfold index, pageNumbers. destruct (Z.ltb_spec p 0); [discriminate|].
  rewrite !nth_error_map, nth_error_seq.
  destruct (Nat.ltb_spec (Z.to_nat p) (Z.to_nat totalPages)); [|discriminate].
  simpl. intros [= <-]. split; [lia|f_equal; lia].
Qed.

Lemma windows_partition {T} (items : list T) (label : T -> jsstring)
    (lead : Z -> list jsstring) (window : Z -> list T) (totalPages : Z)
    (labelsOf : Z -> list jsstring) :
  0 <= totalPages ->
  flat_map window (pageNumbers totalPages) = items ->
  (forall p, 0 <= p < totalPages ->
     exists padding,
       labelsOf p
       = lead p ++ map label (window p) ++ pageTail padding p totalPages) ->
  pagesPartition items label lead totalPages labelsOf.
Proof.
  intros Htotal Hconcat Hlayout.
  exists (map window (pageNumbers totalPages)). split; [|split].
  - unfold pageNumbers. rewrite !length_map, length_seq. lia.
  - rewrite <- flat_map_concat_map. exact Hconcat.
  - intros p w Hw. apply pageNumbers_window in Hw. destruct Hw as [Hp ->].
    apply Hlayout. exact Hp.
Qed.

Section Partition.

Variable localeCompare : jsstring -> jsstring -> Z.

(** X2. The pages of a paginated view partition its ordered collection.
    Composing the view on each of its [getTotalPages] pages in turn shows,
    between the leading controls and the padding and Next, consecutive
    windows of the collection that concatenate to the whole collection:
    every entity is shown on exactly one page, and paging forward walks the
    collection in order. *)
Theorem pages_partition_the_collection (state : AppState) :
  let totalPages := getTotalPages localeCompare state in
  let labelsOf p :=
    listItemNamesForState localeCompare (reduce state (LIST_PAGE p)) in
  match listView state with
  | ViewScenes =>
      let items := getOrderedScenes localeCompare state in
      items <> [] ->
      pagesPartition items (sceneLabel state) pagedLead totalPages labelsOf
  | ViewRooms =>
      let items := getOrderedRooms localeCompare state in
      items <> [] ->
      pagesPartition items (roomLabel state) pagedLead totalPages labelsOf
  | ViewFavorites =>
      let items := getOrderedFavorites localeCompare state in
      items <> [] ->
      pagesPartition items favoriteLabel pagedLead totalPages labelsOf
  | ViewDevices =>
      let items := getOrderedDevices localeCompare state in
      items <> [] ->
      pagesPartition items (deviceLabel state) devicesLead totalPages labelsOf
  | _ => True
  end.
Proof.
  cbv zeta. destruct (listView state) eqn:Hview; try exact I; intros Hne.
  - (* scenes *)
    unfold getTotalPages. rewrite Hview.
    apply (windows_partition _ _ _
             (pagedPageItems (getOrderedScenes localeCompare state) SCENES_PER_PAGE)).
    + pose proof (paged_total_pages_positive
                    (Z.of_nat (length (getOrderedScenes localeCompare state)))
                    SCENES_PER_PAGE ltac:(reflexivity)). lia.
    + apply paged_pages_partition. reflexivity.
    + intros p Hp. unfold listItemNamesForState.
      change (listView (reduce state (LIST_PAGE p))) with (listView state).
      rewrite Hview. unfold sceneNamesForListView.
      change (getOrderedScenes localeCompare (reduce state (LIST_PAGE p)))
        with (getOrderedScenes localeCompare state).
      destruct (getOrderedScenes localeCompare state) as [|s ss] eqn:Hordered;
        [congruence|].
      rewrite <- Hordered in *.
      apply (paged_layout (getOrderedScenes localeCompare state)
               (sceneLabel state) SCENES_PER_PAGE p Hne Hp).
  - (* rooms *)
    unfold getTotalPages. rewrite Hview.
    apply (windows_partition _ _ _
             (pagedPageItems (getOrderedRooms localeCompare state) ROOMS_PER_PAGE)).
    + pose proof (paged_total_pages_positive
                    (Z.of_nat (length (getOrderedRooms localeCompare state)))
                    ROOMS_PER_PAGE ltac:(reflexivity)). lia.
    + apply paged_pages_partition. reflexivity.
    + intros p Hp. unfold listItemNamesForState.
      change (listView (reduce state (LIST_PAGE p))) with (listView state).
      rewrite Hview. unfold roomNamesForListView.
      change (getOrderedRooms localeCompare (reduce state (LIST_PAGE p)))
        with (getOrderedRooms localeCompare state).
      destruct (getOrderedRooms localeCompare state) as [|r rs] eqn:Hordered;
        [congruence|].
      rewrite <- Hordered in *.
      apply (paged_layout (getOrderedRooms localeCompare state)
               (roomLabel state) ROOMS_PER_PAGE p Hne Hp).
  - (* devices *)
    rewrite (getTotalPages_devices localeCompare state Hview).
    apply (windows_partition _ _ _
             (devicesPageItems (getOrderedDevices localeCompare state))).
    + pose proof (getTotalPages_devices localeCompare state Hview) as Htotal.
      pose proof (devices_total_pages_positive
                    (Z.of_nat (length (getOrderedDevices localeCompare state)))).
      lia.
    + apply devices_pages_partition.
    + intros p Hp. unfold listItemNamesForState.
      change (listView (reduce state (LIST_PAGE p))) with (listView state).
      rewrite Hview.
      exact (devices_layout localeCompare (reduce state (LIST_PAGE p)) Hne Hp).
  - (* favorites *)
    unfold getTotalPages. rewrite Hview.
    apply (windows_partition _ _ _
             (pagedPageItems (getOrderedFavorites localeCompare state)
                SCENES_PER_PAGE)).
    + pose proof (paged_total_pages_positive
                    (Z.of_nat (length (getOrderedFavorites localeCompare state)))
                    SCENES_PER_PAGE ltac:(reflexivity)). lia.
    + apply paged_pages_partition. reflexivity.
    + intros p Hp. unfold listItemNamesForState.
      change (listView (reduce state (LIST_PAGE p))) with (listView state).
      rewrite Hview. unfold favoriteNamesForListView.
      change (getOrderedFavorites localeCompare (reduce state (LIST_PAGE p)))
        with (getOrderedFavorites localeCompare state).
      destruct (getOrderedFavorites localeCompare state) as [|f fs] eqn:Hordered;
        [congruence|].
      rewrite <- Hordered in *.
      apply (paged_layout (getOrderedFavorites localeCompare state)
               favoriteLabel SCENES_PER_PAGE p Hne Hp).
Qed.

End Partition.

(** ** The page index stays on a page of the view *)

Section PageInvariant.

Variable localeCompare : jsstring -> jsstring -> Z.

Lemma getTotalPages_positive (state : AppState) :
  1 <= getTotalPages localeCompare state.
Proof.
  destruct (listView state) eqn:Hview;
    try (rewrite (getTotalPages_devices localeCompare state Hview);
         unfold devicesTotalPages, devicesFirstCount, DEVICES_PER_PAGE,
           SCENES_PER_PAGE, LIST_MAX_ITEMS;
         set (n := Z.of_nat (length (getOrderedDevices localeCompare state)));
         pose proof (ceil_div_bounds (n - (20 - 2 - 1 - 1 - 1)) (20 - 2 - 1));
         destruct (n =? 0); [lia|];
         destruct (Z.ltb_spec (20 - 2 - 1) (1 + n)); lia);
    unfold getTotalPages; rewrite Hview;
    try apply paged_total_pages_positive; try reflexivity; simpl; lia.
Qed.

Lemma applyEffects_quiet (state : AppState) (effects : list Effect) :
  forallb (fun e => negb (isDispatch e)) effects = true ->
  applyEffects state effects = state.
Proof.
  unfold applyEffects. revert state.
  induction effects as [|e effects IH]; intros state Hquiet; [reflexivity|].
  simpl in Hquiet. apply andb_prop in Hquiet. destruct Hquiet as [He Hquiet].
  simpl. destruct e; try discriminate; apply IH; exact Hquiet.
Qed.

Lemma applyEffects_dispatch (state : AppState) (a : Action) (rest : list Effect) :
  forallb (fun e => negb (isDispatch e)) rest = true ->
  applyEffects state (Dispatch a :: rest) = reduce state a.
Proof.
  intros Hquiet. change (applyEffects state (Dispatch a :: rest))
    with (applyEffects (reduce state a) rest).
  apply applyEffects_quiet. exact Hquiet.
Qed.

Lemma valid_after_navigation (state : AppState) (a : Action) (rest : list Effect) :
  isNavigation a = true ->
  forallb (fun e => negb (isDispatch e)) rest = true ->
  validPage localeCompare (applyEffects state (Dispatch a :: rest)).
Proof.
  intros Hnav Hquiet. rewrite applyEffects_dispatch by exact Hquiet.
  unfold validPage.
  pose proof (getTotalPages_positive (reduce state a)) as Hpos.
  destruct a; try discriminate; simpl listPageIndex; lia.
Qed.

Lemma valid_after_page (state : AppState) (p : Z) (rest : list Effect) :
  0 <= p < getTotalPages localeCompare state ->
  forallb (fun e => negb (isDispatch e)) rest = true ->
  validPage localeCompare (applyEffects state (Dispatch (LIST_PAGE p) :: rest)).
Proof.
  intros Hp Hquiet. rewrite applyEffects_dispatch by exact Hquiet. exact Hp.
Qed.

Lemma valid_after_tap (state : AppState) (i : Z) (taps : option Z)
    (rest : list Effect) :
  validPage localeCompare state ->
  forallb (fun e => negb (isDispatch e)) rest = true ->
  validPage localeCompare (applyEffects state (Dispatch (TAP i taps) :: rest)).
Proof.
  intros Hvalid Hquiet. rewrite applyEffects_dispatch by exact Hquiet.
  exact Hvalid.
Qed.

Lemma valid_after_quiet (state : AppState) (effects : list Effect) :
  validPage localeCompare state ->
  forallb (fun e => negb (isDispatch e)) effects = true ->
  validPage localeCompare (applyEffects state effects).
Proof. intros Hvalid Hquiet. rewrite applyEffects_quiet; assumption. Qed.

Ltac bool_facts :=
  repeat match goal with
  | H : _ && _ = true |- _ => apply andb_prop in H; destruct H
  | H : negb _ = true |- _ => apply negb_true_iff in H
  | H : negb _ = false |- _ => apply negb_false_iff in H
  | H : (_ =? _) = true |- _ => apply Z.eqb_eq in H
  | H : (_ =? _) = false |- _ => apply Z.eqb_neq in H
  end.

Ltac valid_leaf :=
  first
    [ apply valid_after_quiet; [assumption|reflexivity]
    | apply valid_after_navigation; reflexivity
    | apply valid_after_tap; [assumption|reflexivity]
    | apply valid_after_page;
      [unfold validPage in *; bool_facts; lia|reflexivity] ].

Ltac valid_branches :=
  repeat match goal with
  | |- validPage _ (applyEffects _ (if ?b then _ else _)) => destruct b eqn:?
  | |- validPage _ (applyEffects _ (match ?x with _ => _ end)) => destruct x eqn:?
  end.

Lemma valid_after_pageControl (state : AppState) (backView : ListView)
    (listIndex : Z) (effects : list Effect) :
  validPage localeCompare state ->
  pageControl localeCompare state backView listIndex = Some effects ->
  validPage localeCompare (applyEffects state effects).
Proof.
  intros Hvalid. unfold pageControl.
  destruct (listIndex =? 0).
  - intros [= <-]. destruct (listPageIndex state =? 0) eqn:?; valid_leaf.
  - destruct (negb _ && _) eqn:?; [|discriminate].
    intros [= <-]. valid_leaf.
Qed.

Lemma valid_after_dimBack (state : AppState) (parent : ListView) :
  validPage localeCompare state ->
  validPage localeCompare (applyEffects state (dimBack state parent)).
Proof.
  intros Hvalid. unfold dimBack.
  destruct (listPageIndex state =? 0) eqn:?; valid_leaf.
Qed.

Lemma valid_after_singleTap (state : AppState) (listIndex : Z) :
  validPage localeCompare state ->
  validPage localeCompare
    (applyEffects state (singleTap localeCompare state listIndex)).
Proof.
  intros Hvalid. unfold singleTap.
  destruct (listView state);
    try (destruct (pageControl localeCompare state _ listIndex) eqn:Hcontrol;
         [exact (valid_after_pageControl _ _ _ _ Hvalid Hcontrol)|]);
    cbv zeta; valid_branches;
    first [apply valid_after_dimBack; assumption | valid_leaf].
Qed.

(** X3. Once the page index names a page of the view, it does so after every
    committed gesture: whatever slot and count the router receives, the
    dispatches of [commitTap] leave [0 <= listPageIndex < getTotalPages].
    Paging back, paging forward and the jump to the last page never leave
    the pages of the view, and every navigation starts at page 0 of a
    view that has at least one page. *)
Theorem commit_keeps_page_valid (state : AppState) (listIndex tapCount : Z) :
  validPage localeCompare state ->
  validPage localeCompare
    (applyEffects state (commitTap localeCompare state listIndex tapCount)).
Proof.
  intros Hvalid. unfold commitTap. cbv zeta.
  pose proof (getTotalPages_positive state) as Hpos.
  destruct (decide (listView state = ViewMain)).
  - destruct (tapCount =? 1); [|valid_leaf].
    destruct (index _ listIndex) as [view|]; [|valid_leaf].
    destruct (decide (view = ViewRooms)); valid_leaf.
  - destruct (isPaginatedList (listView state)).
    + valid_branches;
        first [apply valid_after_singleTap; assumption | valid_leaf].
    + destruct (decide (listView state = ViewDeviceDetail)); [|valid_leaf].
      unfold backFromDetail. valid_branches; valid_leaf.
Qed.

End PageInvariant.

Lemma commit_keeps_page_valid_witness :
  validPage codeUnitCompare
    (applyEffects Examples.stateScenes40
       (commitTap codeUnitCompare Examples.stateScenes40 5 3)).
Proof.
  apply (commit_keeps_page_valid codeUnitCompare Examples.stateScenes40 5 3).
  unfold validPage. vm_compute. split; [discriminate|reflexivity].
Defined.

(** ** Navigation *)

(** The claim of C9 fails on the selected room, which no case of
    [NAV_VIEW] clears.  After a visit to a room the router leads back to
    the rooms list and from there, on a double tap, to the main menu: the
    room is still selected on the main menu, a screen for which the
    reducer itself drops the statistics of the room. *)
Lemma nav_view_keeps_selected_room :
  listView afterRoomVisit = ViewRooms
  /\ selectedRoomId afterRoomVisit = Some (js "room-1")
  /\ commitTap codeUnitCompare afterRoomVisit 0 2
     = [Dispatch (NAV_VIEW ViewMain); RefreshPage]
  /\ listView (reduce afterRoomVisit (NAV_VIEW ViewMain)) = ViewMain
  /\ roomStats (reduce afterRoomVisit (NAV_VIEW ViewMain)) = None
  /\ selectedRoomId (reduce afterRoomVisit (NAV_VIEW ViewMain))
     = Some (js "room-1")
  /\ ~ (forall (state : AppState) (view : ListView),
          isTopLevel view = true ->
          selectedRoomId (reduce state (NAV_VIEW view)) = None).
Proof.
  repeat split; try (vm_compute; reflexivity).
  intros H. specialize (H afterRoomVisit ViewMain eq_refl).
  vm_compute in H. discriminate H.
Qed.

Section DeviceSelection.

Variable localeCompare : jsstring -> jsstring -> Z.

Lemma selection_after_quiet (state : AppState) (effects : list Effect) :
  deviceOnlyOnDeviceScreens state ->
  forallb (fun e => negb (isDispatch e)) effects = true ->
  deviceOnlyOnDeviceScreens (applyEffects state effects).
Proof. intros Hkept Hquiet. rewrite applyEffects_quiet; assumption. Qed.

(** The reducer keeps the property on every action; for [NAV_ROOM] when
    it is dispatched on the rooms list. *)
Lemma selection_after_dispatch (state : AppState) (a : Action)
    (rest : list Effect) :
  deviceOnlyOnDeviceScreens state ->
  (forall room, a = NAV_ROOM room -> listView state = ViewRooms) ->
  forallb (fun e => negb (isDispatch e)) rest = true ->
  deviceOnlyOnDeviceScreens (applyEffects state (Dispatch a :: rest)).
Proof.
  intros Hkept Hroom Hquiet. rewrite applyEffects_dispatch by exact Hquiet.
  unfold deviceOnlyOnDeviceScreens in *.
  destruct a as [i t|p|view|room|device|device|]; simpl; try exact Hkept;
    try discriminate; try reflexivity.
  - destruct view; simpl; intros Hscoped;
      first [discriminate Hscoped | reflexivity].
  - intros _. apply Hkept. rewrite (Hroom room eq_refl). reflexivity.
Qed.

Ltac selection_leaf :=
  first
    [ apply selection_after_quiet; [assumption|reflexivity]
    | apply selection_after_dispatch;
      [assumption
      |intros ? Hroom; first [discriminate Hroom | assumption]
      |reflexivity] ].

Ltac selection_branches :=
  repeat match goal with
  | |- deviceOnlyOnDeviceScreens (applyEffects _ (if ?b then _ else _)) =>
      destruct b eqn:?
  | |- deviceOnlyOnDeviceScreens (applyEffects _ (match ?x with _ => _ end)) =>
      destruct x eqn:?
  | |- deviceOnlyOnDeviceScreens
         (applyEffects _ ((if ?b then _ else _) :: _)) =>
      destruct b eqn:?
  end.

Lemma selection_after_pageControl (state : AppState) (backView : ListView)
    (listIndex : Z) (effects : list Effect) :
  deviceOnlyOnDeviceScreens state ->
  pageControl localeCompare state backView listIndex = Some effects ->
  deviceOnlyOnDeviceScreens (applyEffects state effects).
Proof.
  intros Hkept. unfold pageControl.
  destruct (listIndex =? 0).
  - intros [= <-]. destruct (listPageIndex state =? 0); selection_leaf.
  - destruct (negb _ && _); [|discriminate].
    intros [= <-]. selection_leaf.
Qed.

Lemma selection_after_singleTap (state : AppState) (listIndex : Z) :
  deviceOnlyOnDeviceScreens state ->
  deviceOnlyOnDeviceScreens
    (applyEffects state (singleTap localeCompare state listIndex)).
Proof.
  intros Hkept. unfold singleTap, dimBack.
  destruct (listView state) eqn:Hview;
    try (destruct (pageControl localeCompare state _ listIndex) eqn:Hcontrol;
         [exact (selection_after_pageControl _ _ _ _ Hkept Hcontrol)|]);
    cbv zeta; selection_branches; selection_leaf.
Qed.

(** Every run of the tap router keeps the property. *)
Lemma selection_after_commit (state : AppState) (listIndex tapCount : Z) :
  deviceOnlyOnDeviceScreens state ->
  deviceOnlyOnDeviceScreens
    (applyEffects state (commitTap localeCompare state listIndex tapCount)).
Proof.
  intros Hkept. unfold commitTap. cbv zeta.
  destruct (decide (listView state = ViewMain)).
  - destruct (tapCount =? 1); [|selection_leaf].
    destruct (index _ listIndex) as [view|]; [|selection_leaf].
    destruct (decide (view = ViewRooms)); selection_leaf.
  - destruct (isPaginatedList (listView state)).
    + selection_branches;
        first [apply selection_after_singleTap; assumption | selection_leaf].
    + destruct (decide (listView state = ViewDeviceDetail)); [|selection_leaf].
      unfold backFromDetail. selection_branches; selection_leaf.
Qed.

(** C9 (amended). Every navigation action leaves the page index and the
    focused slot at 0 and opens its target screen.  [NAV_VIEW] clears the
    selected device and its stats unless the target is device-detail or
    device-dim, where it keeps both, and it always keeps the selected
    room; [NAV_ROOM_ALL] clears the selected device and keeps the room;
    [NAV_DEVICE] and [NAV_FAVORITE_DEVICE] select the given device, the
    latter also clearing the selected room, the former keeping it;
    [NAV_ROOM] selects the given room and leaves no selected device when
    there was none.  That is the case whenever the router dispatches it:
    no device is selected in the initial state, and a state in which a
    device is selected only on the device-detail and device-dim screens
    stays so under every run of the tap router and under every data
    action. *)
Theorem navigation_resets_page_and_selection (state : AppState) (action : Action) :
  match action with
  | TAP _ _ | LIST_PAGE _ => True
  | _ =>
      listPageIndex (reduce state action) = 0
      /\ focusedListIndex (reduce state action) = 0
      /\ match action with
         | NAV_VIEW view =>
             listView (reduce state action) = view
             /\ (if isDeviceScoped view
                 then selectedDeviceId (reduce state action) = selectedDeviceId state
                      /\ deviceStats (reduce state action) = deviceStats state
                 else selectedDeviceId (reduce state action) = None
                      /\ deviceStats (reduce state action) = None)
             /\ selectedRoomId (reduce state action) = selectedRoomId state
         | NAV_ROOM room =>
             listView (reduce state action) = ViewDevices
             /\ selectedRoomId (reduce state action) = Some room
             /\ (selectedDeviceId state = None
                 -> selectedDeviceId (reduce state action) = None)
         | NAV_DEVICE device =>
             listView (reduce state action) = ViewDeviceDetail
             /\ selectedDeviceId (reduce state action) = Some device
             /\ selectedRoomId (reduce state action) = selectedRoomId state
         | NAV_FAVORITE_DEVICE device =>
             listView (reduce state action) = ViewDeviceDetail
             /\ selectedDeviceId (reduce state action) = Some device
             /\ selectedRoomId (reduce state action) = None
         | NAV_ROOM_ALL =>
             listView (reduce state action) = ViewRoomAllDetail
             /\ selectedDeviceId (reduce state action) = None
             /\ selectedRoomId (reduce state action) = selectedRoomId state
         | _ => True
         end
  end
  /\ deviceOnlyOnDeviceScreens Examples.initialState
  /\ (deviceOnlyOnDeviceScreens state ->
      (forall listIndex tapCount,
          deviceOnlyOnDeviceScreens
            (applyEffects state
               (commitTap localeCompare state listIndex tapCount)))
      /\ (forall data : DataAction,
             deviceOnlyOnDeviceScreens (reduceData localeCompare state data))).
Proof.
  split; [|split; [intros _; reflexivity|]].
  - destruct action as [i t|p|view|room|device|device|]; simpl; auto;
      repeat split; auto.
    all: destruct view; simpl; auto.
  - intros Hkept. split.
    + intros listIndex tapCount. apply selection_after_commit. exact Hkept.
    + intros data. unfold deviceOnlyOnDeviceScreens in *.
      destruct data; exact Hkept.
Qed.

End DeviceSelection.

Lemma navigation_resets_page_and_selection_witness :
  selectedDeviceId (reduce afterRoomVisit (NAV_ROOM (js "room-1"))) = None
  /\ deviceOnlyOnDeviceScreens
       (applyEffects afterRoomVisit (commitTap codeUnitCompare afterRoomVisit 1 1)).
Proof.
  destruct (navigation_resets_page_and_selection codeUnitCompare
              afterRoomVisit (NAV_ROOM (js "room-1"))) as (H & _ & Hkept).
  split.
  - destruct H as (_ & _ & _ & _ & H). apply H. reflexivity.
  - apply Hkept. intros _. reflexivity.
Defined.

(** ** Page controls: what is drawn is what the router answers to *)

Lemma index_head {A} (x : A) (l : list A) : index (x :: l) 0 = Some x.
Proof. reflexivity. Qed.

Lemma index_last {A} (l : list A) (x : A) :
  index (l ++ [x]) (Z.of_nat (length (l ++ [x])) - 1) = Some x.
Proof.
  unfold index. rewrite length_app. simpl.
  destruct (Z.ltb_spec (Z.of_nat (length l + 1) - 1) 0); [lia|].
  replace (Z.to_nat (Z.of_nat (length l + 1) - 1)) with (length l) by lia.
  rewrite nth_error_app2 by lia. rewrite Nat.sub_diag. reflexivity.
Qed.

(** The frame of a page of the scenes / rooms / favorites pattern: the
    leading control, and Next exactly when a page follows. *)
Lemma paged_frame {T} (items : list T) (label : T -> jsstring)
    (PER_PAGE page : Z) :
  items <> [] ->
  0 <= page < pagedTotalPages (Z.of_nat (length items)) PER_PAGE ->
  exists body,
    pagedNamesForListView items label PER_PAGE page
    = (if page =? 0 then LABEL_BACK else LABEL_PREVIOUS)
        :: body
        ++ (if page =? pagedTotalPages (Z.of_nat (length items)) PER_PAGE - 1
            then [] else [LABEL_NEXT]).
Proof.
  intros Hne Hpage. unfold pagedNamesForListView.
  unfold pagedTotalPages in *.
  set (n := Z.of_nat (length items)) in *.
  assert (Hn : n <> 0) by (destruct items; [congruence|subst n; simpl; lia]).
  destruct (Z.eqb_spec n 0); [lia|].
  set (totalPages := if n <=? PER_PAGE then 1 else _) in *.
  rewrite Z.min_l by lia.
  destruct (page =? 0); destruct (page =? totalPages - 1); simpl;
    eexists; rewrite ?app_nil_r; reflexivity.
Qed.

Section PageControls.

Variable localeCompare : jsstring -> jsstring -> Z.

Lemma devices_frame (state : AppState) :
  let devices := getOrderedDevices localeCompare state in
  devices <> [] ->
  0 <= listPageIndex state < devicesTotalPages (Z.of_nat (length devices)) ->
  exists body,
    deviceNamesForListView localeCompare state
    = (if listPageIndex state =? 0 then LABEL_BACK else LABEL_PREVIOUS)
        :: body
        ++ (if listPageIndex state
               =? devicesTotalPages (Z.of_nat (length devices)) - 1
            then [] else [LABEL_NEXT]).
Proof.
  intros devices Hne Hpage. subst devices. unfold deviceNamesForListView.
  destruct (getOrderedDevices localeCompare state) as [|d0 ds]; [congruence|].
  assert (Hn : 0 < Z.of_nat (length (d0 :: ds))) by (simpl; lia).
  remember (d0 :: ds) as devices eqn:Hdevices. clear Hne Hdevices d0 ds.
  set (page := listPageIndex state) in *.
  set (n := Z.of_nat (length devices)) in *.
  rewrite devicesFirstCount_alt.
  unfold devicesTotalPages in *.
  destruct (Z.eqb_spec n 0); [lia|].
  set (totalPages := if DEVICES_PER_PAGE - 1 <? 1 + n then _ else 1) in *.
  rewrite Z.max_r by lia. rewrite Z.min_l by lia.
  destruct (page =? 0); destruct (page =? totalPages - 1); cbn [andb];
    eexists; first [reflexivity | f_equal; symmetry; apply app_nil_r].
Qed.

(** The frame of the composed page of a collection view. *)
Lemma collection_frame (state : AppState) (n : Z) :
  collectionViewSize localeCompare state = Some n -> 0 < n ->
  validPage localeCompare state ->
  exists body,
    listItemNamesForState localeCompare state
    = (if listPageIndex state =? 0 then LABEL_BACK else LABEL_PREVIOUS)
        :: body
        ++ (if listPageIndex state =? getTotalPages localeCompare state - 1
            then [] else [LABEL_NEXT]).
Proof.
  unfold collectionViewSize, validPage, listItemNamesForState.
  intros Hsize Hn Hvalid.
  destruct (listView state) eqn:Hview; try discriminate;
    injection Hsize as Hsize.
  - unfold getTotalPages in *. rewrite Hview in *.
    unfold sceneNamesForListView.
    destruct (getOrderedScenes localeCompare state) eqn:Hitems;
      [simpl in Hsize; lia|]. rewrite <- Hitems in *.
    apply paged_frame; [congruence|exact Hvalid].
  - unfold getTotalPages in *. rewrite Hview in *.
    unfold roomNamesForListView.
    destruct (getOrderedRooms localeCompare state) eqn:Hitems;
      [simpl in Hsize; lia|]. rewrite <- Hitems in *.
    apply paged_frame; [congruence|exact Hvalid].
  - rewrite (getTotalPages_devices localeCompare state Hview) in *.
    apply devices_frame; [|exact Hvalid].
    intros Hnil. rewrite Hnil in Hsize. simpl in Hsize. lia.
  - unfold getTotalPages in *. rewrite Hview in *.
    unfold favoriteNamesForListView.
    destruct (getOrderedFavorites localeCompare state) eqn:Hitems;
      [simpl in Hsize; lia|]. rewrite <- Hitems in *.
    apply paged_frame; [congruence|exact Hvalid].
Qed.

(** X4. On every valid page of a collection view that shows entities, the
    controls drawn by the composer are the ones the router answers to.
    Slot 0 is labelled Back on the first page and Previous on the others,
    and a single tap there leaves for the parent view, or for the previous
    page.  When a page follows, the last slot is labelled Next and a single
    tap there opens the next page. *)
Theorem page_controls_match_router (state : AppState) (n : Z) :
  collectionViewSize localeCompare state = Some n -> 0 < n ->
  validPage localeCompare state ->
  let labels := listItemNamesForState localeCompare state in
  let page := listPageIndex state in
  let last := getLastListIndex localeCompare state in
  index labels 0 = Some (if page =? 0 then LABEL_BACK else LABEL_PREVIOUS)
  /\ (exists parent,
        parentView (listView state) = Some parent
        /\ commitTap localeCompare state 0 1
           = [Dispatch (if page =? 0 then NAV_VIEW parent
                        else LIST_PAGE (page - 1)); RefreshPage])
  /\ (page <> getTotalPages localeCompare state - 1 ->
      index labels last = Some LABEL_NEXT
      /\ commitTap localeCompare state last 1
         = [Dispatch (LIST_PAGE (page + 1)); RefreshPage]).
Proof.
  intros Hsize Hn Hvalid labels page last.
  destruct (collection_frame state n Hsize Hn Hvalid) as [body Hframe].
  fold labels page in Hframe.
  assert (Hpaginated : isPaginatedList (listView state) = true).
  { unfold collectionViewSize in Hsize.
    destruct (listView state); try discriminate; reflexivity. }
  destruct (commitTap_paginated localeCompare state 0 Hpaginated) as [Hfirst _].
  destruct (commitTap_paginated localeCompare state last Hpaginated) as [Hlast _].
  split; [rewrite Hframe; apply index_head|]. split.
  - rewrite Hfirst. unfold singleTap, pageControl, collectionViewSize in *.
    fold page. destruct (listView state); try discriminate;
      eexists; (split; [reflexivity|]); cbn [Z.eqb];
      destruct (page =? 0); reflexivity.
  - intros Hmore. apply Z.eqb_neq in Hmore.
    assert (Hlabels : labels
              = ((if page =? 0 then LABEL_BACK else LABEL_PREVIOUS) :: body)
                ++ [LABEL_NEXT]).
    { rewrite Hframe. fold page. rewrite Hmore. reflexivity. }
    assert (Hindex : last = Z.of_nat (length labels) - 1).
    { subst last. unfold getLastListIndex. fold labels. rewrite Hlabels.
      rewrite length_app. simpl. lia. }
    assert (Hpositive : last <> 0).
    { rewrite Hindex, Hlabels, length_app. simpl. lia. }
    split.
    + rewrite Hindex. rewrite Hlabels at 1. rewrite Hlabels. apply index_last.
    + rewrite Hlast. unfold singleTap, pageControl, collectionViewSize in *.
      fold page last. apply Z.eqb_neq in Hpositive.
      rewrite Hpositive, Hmore, Z.eqb_refl.
      destruct (listView state); try discriminate; reflexivity.
Qed.

End PageControls.

Lemma page_controls_match_router_witness :
  index (listItemNamesForState codeUnitCompare Examples.stateScenes40)
        (getLastListIndex codeUnitCompare Examples.stateScenes40)
  = Some LABEL_NEXT
  /\ commitTap codeUnitCompare Examples.stateScenes40
       (getLastListIndex codeUnitCompare Examples.stateScenes40) 1
     = [Dispatch (LIST_PAGE (listPageIndex Examples.stateScenes40 + 1));
        RefreshPage].
Proof.
  assert (Hvalid : validPage codeUnitCompare Examples.stateScenes40)
    by (unfold validPage; vm_compute; split; [discriminate|reflexivity]).
  assert (Hmore : listPageIndex Examples.stateScenes40
                  <> getTotalPages codeUnitCompare Examples.stateScenes40 - 1)
    by (vm_compute; discriminate).
  exact (proj2 (proj2 (page_controls_match_router codeUnitCompare
                         Examples.stateScenes40 40 eq_refl eq_refl Hvalid))
               Hmore).
Defined.

(** ** Dim levels *)

Section DimLevels.

Variable localeCompare : jsstring -> jsstring -> Z.

Lemma dim_view_single_page (state : AppState) :
  isDimView (listView state) = true ->
  validPage localeCompare state -> listPageIndex state = 0.
Proof.
  unfold validPage, getTotalPages.
  destruct (listView state); try discriminate; simpl; lia.
Qed.

Lemma dim_level_slots (slot : Z) :
  slot <= 0 \/ 12 <= slot
  \/ In slot [1; 2; 3; 4; 5; 6; 7; 8; 9; 10; 11].
Proof. simpl. lia. Qed.

(** X5. The dim views have one page: Back and the eleven levels.  A slot sets
    a level exactly when it is one of the slots 1 to 11, the level is then
    ten times the slot's distance from slot 1, the label drawn at the slot
    is that level, and a single tap there starts the level command of the
    view with it: for the selected device, or for the dimmable devices of
    the room. *)
Theorem dim_slot_sets_the_level_it_shows (state : AppState) (slot level : Z) :
  isDimView (listView state) = true ->
  validPage localeCompare state ->
  let labels := listItemNamesForState localeCompare state in
  labels = LABEL_BACK :: map string_of_level DIM_LEVELS
  /\ (getDimLevelByStateAndIndex state slot = Some level
      <-> 1 <= slot <= 11 /\ level = 10 * (slot - 1))
  /\ (getDimLevelByStateAndIndex state slot = Some level ->
      index labels slot = Some (string_of_level level)
      /\ commitTap localeCompare state slot 1
         = match listView state with
           | ViewRoomAllDim => [RunAllDimmableDevicesSetLevel level]
           | _ =>
               match truthyId (selectedDeviceId state) with
               | Some deviceId => [RunDeviceSetLevel deviceId level]
               | None => []
               end
           end).
Proof.
  intros Hdim Hvalid labels.
  pose proof (dim_view_single_page state Hdim Hvalid) as Hpage.
  assert (Hlabels : labels = LABEL_BACK :: map string_of_level DIM_LEVELS).
  { subst labels. unfold listItemNamesForState, dimLevelItemNames.
    destruct (listView state); try discriminate; rewrite Hpage; reflexivity. }
  assert (Hlevel : getDimLevelByStateAndIndex state slot
                   = if (1 <=? slot) && (slot <=? 11)
                     then Some (10 * (slot - 1)) else None).
  { unfold getDimLevelByStateAndIndex. rewrite Hdim, Hpage.
    destruct (dim_level_slots slot) as [Hlow|[Hhigh|Hin]].
    - destruct (Z.leb_spec slot 0); [|lia].
      destruct (Z.leb_spec 1 slot); [lia|reflexivity].
    - destruct (Z.leb_spec slot 0); [lia|].
      destruct (Z.leb_spec 1 slot); [|lia].
      destruct (Z.leb_spec slot 11); [lia|]. cbn [negb andb Z.eqb].
      destruct (Z.ltb_spec (slot - 1) 0); [lia|].
      destruct (Z.leb_spec (Z.of_nat (length DIM_LEVELS)) (slot - 1));
        [reflexivity|simpl in *; lia].
    - simpl in Hin.
      repeat (destruct Hin as [<-|Hin]; [reflexivity|]). destruct Hin. }
  split; [exact Hlabels|]. split.
  - rewrite Hlevel.
    destruct (Z.leb_spec 1 slot); destruct (Z.leb_spec slot 11); simpl;
      split; try (intros [= <-]; lia); try (intros [? ->]; reflexivity);
      try discriminate; lia.
  - intros Hsome. pose proof Hsome as Hslot. rewrite Hlevel in Hslot.
    destruct (Z.leb_spec 1 slot); destruct (Z.leb_spec slot 11);
      try discriminate. simpl in Hslot. injection Hslot as <-.
    split.
    + rewrite Hlabels.
      assert (Hin : In slot [1; 2; 3; 4; 5; 6; 7; 8; 9; 10; 11])
        by (simpl; lia).
      simpl in Hin.
      repeat (destruct Hin as [<-|Hin]; [reflexivity|]). destruct Hin.
    + assert (Hpaginated : isPaginatedList (listView state) = true)
        by (destruct (listView state); try discriminate; reflexivity).
      destruct (commitTap_paginated localeCompare state slot Hpaginated)
        as [-> _].
      unfold singleTap. destruct (Z.eqb_spec slot 0); [lia|].
      rewrite Hsome.
      destruct (listView state); try discriminate; reflexivity.
Qed.

End DimLevels.

Lemma dim_slot_sets_the_level_it_shows_witness :
  getDimLevelByStateAndIndex
    (Examples.inView ViewRoomAllDim 0 Examples.initialState) 4 = Some 30
  <-> 1 <= 4 <= 11 /\ 30 = 10 * (4 - 1).
Proof.
  assert (Hvalid : validPage codeUnitCompare
                     (Examples.inView ViewRoomAllDim 0 Examples.initialState))
    by (unfold validPage; vm_compute; split; [discriminate|reflexivity]).
  exact (proj1 (proj2 (dim_slot_sets_the_level_it_shows codeUnitCompare
                         (Examples.inView ViewRoomAllDim 0 Examples.initialState)
                         4 30 eq_refl Hvalid))).
Defined.

(** ** Main menu *)

Lemma index_map {A B} (f : A -> B) (l : list A) (i : Z) :
  index (map f l) i = f <$> index l i.
Proof.
  unfold index. destruct (i <? 0); [reflexivity|]. apply nth_error_map.
Qed.

Section MainMenu.

Variable localeCompare : jsstring -> jsstring -> Z.

Lemma main_menu_sorted_items (cmp : MainMenuItem -> MainMenuItem -> Z)
    (item : MainMenuItem) :
  In item (array_sort cmp MAIN_MENU_ITEMS).
Proof.
  apply (Permutation_in item
           (Permutation_sym (array_sort_Permutation cmp MAIN_MENU_ITEMS))).
  destruct item; simpl; tauto.
Qed.

(** X6. The main menu.  Favorites is never offered when there is no favorite;
    unless the order is a custom one, Scenes and Devices are always
    offered, and Favorites as soon as there is a favorite.  The label of a
    slot is the label of its item, a single tap on it opens the view of
    that item (and loads the rooms for Devices), a single tap elsewhere
    and every double or triple tap do nothing. *)
Theorem main_menu_slots (state : AppState) (slot tapCount : Z) :
  listView state = ViewMain ->
  let items := getMainMenuOrderedItems localeCompare state in
  let labels := listItemNamesForState localeCompare state in
  (favoritesIds (preferences state) = [] -> ~ In MenuFavorites items)
  /\ (order_main (listOrder (preferences state)) <> Custom ->
      In MenuScenes items /\ In MenuDevices items
      /\ (favoritesIds (preferences state) <> [] -> In MenuFavorites items))
  /\ index labels slot = MAIN_MENU_LABEL <$> index items slot
  /\ commitTap localeCompare state slot tapCount
     = match index items slot with
       | Some item =>
           if tapCount =? 1
           then [Dispatch (NAV_VIEW (mainMenuView item)); RefreshPage]
                ++ (if decide (item = MenuDevices) then [LoadRooms] else [])
           else []
       | None => []
       end.
Proof.
  intros Hview items labels. split; [|split; [|split]].
  - intros Hnone. subst items. unfold getMainMenuOrderedItems.
    rewrite Hnone. simpl. rewrite filter_In. intros [_ Hkept].
    rewrite bool_decide_eq_true_2 in Hkept by reflexivity. discriminate.
  - intros Horder. subst items. unfold getMainMenuOrderedItems.
    assert (Hall : forall item,
               In item
                 match order_main (listOrder (preferences state)) with
                 | Alphabetical =>
                     array_sort (fun a b => localeCompare (MAIN_MENU_LABEL a)
                                                          (MAIN_MENU_LABEL b))
                                MAIN_MENU_ITEMS
                 | Reverse =>
                     array_sort (fun a b => localeCompare (MAIN_MENU_LABEL b)
                                                          (MAIN_MENU_LABEL a))
                                MAIN_MENU_ITEMS
                 | Custom =>
                     let main := custom_main (listOrderCustomIds (preferences state)) in
                     if 0 <? Z.of_nat (length main) then main else MAIN_MENU_ITEMS
                 end).
    { intros item. destruct (order_main (listOrder (preferences state)));
        [apply main_menu_sorted_items|apply main_menu_sorted_items|congruence]. }
    destruct (favoritesIds (preferences state)) as [|f fs]; simpl.
    + rewrite !filter_In. repeat split; try apply Hall; congruence.
    + repeat split; try apply Hall. intros _. apply Hall.
  - subst labels. unfold listItemNamesForState. rewrite Hview.
    apply index_map.
  - unfold commitTap. cbv zeta. rewrite Hview.
    destruct (decide (ViewMain = ViewMain)); [|congruence].
    unfold getMainMenuOrderedViews. fold items.
    change (map _ items) with (map mainMenuView items).
    rewrite index_map.
    destruct (index items slot) as [item|]; simpl.
    + destruct (tapCount =? 1); [|reflexivity].
      destruct item; reflexivity.
    + destruct (tapCount =? 1); reflexivity.
Qed.

End MainMenu.

Lemma main_menu_slots_witness :
  ~ In MenuFavorites (getMainMenuOrderedItems codeUnitCompare Examples.initialState).
Proof.
  exact (proj1 (main_menu_slots codeUnitCompare Examples.initialState 0 1 eq_refl)
               eq_refl).
Defined.

(** ** Device and room controls *)

Lemma index_outside {A} (l : list A) (i : Z) :
  i < 0 \/ Z.of_nat (length l) <= i -> index l i = None.
Proof.
  intros Hi. unfold index. destruct (Z.ltb_spec i 0); [reflexivity|].
  apply nth_error_None. lia.
Qed.

Lemma slot_cases (slot : Z) :
  slot = 0 \/ slot = 1 \/ slot = 2 \/ slot = 3 \/ slot < 0 \/ 4 <= slot.
Proof. lia. Qed.

Lemma getSelectedDevice_Some (state : AppState) (d : DeviceEntry) :
  getSelectedDevice state = Some d ->
  In d (devices state)
  /\ selectedDeviceId state = Some (deviceId d)
  /\ truthyId (selectedDeviceId state) = Some (deviceId d).
Proof.
  unfold getSelectedDevice, truthyId.
  destruct (selectedDeviceId state) as [[|c id]|]; try discriminate.
  intros Hfound. apply find_some in Hfound. destruct Hfound as [Hin Hid].
  apply bool_decide_eq_true_1 in Hid. rewrite Hid. tauto.
Qed.

Ltac slot_by_slot slot :=
  destruct (slot_cases slot) as [->|[->|[->|[->|Hout]]]];
  [| | | |
   rewrite index_outside by (simpl; lia);
   destruct (Z.eqb_spec slot 0); [lia|];
   destruct (Z.eqb_spec slot 1); [lia|];
   destruct (Z.eqb_spec slot 2); [lia|];
   destruct (Z.eqb_spec slot 3); [lia|];
   rewrite ?andb_false_r; try reflexivity ].

Ltac drawn_control :=
  repeat split; first [reflexivity | assumption].

Ltac drawn_controls d :=
  first
    [ left; drawn_control
    | right; exists d; split; [reflexivity|];
      first [ left; drawn_control
            | right; left; drawn_control
            | right; right; drawn_control ] ].

Section DetailControls.

Variable localeCompare : jsstring -> jsstring -> Z.

(** X7. The selected device, when there is one, is a device of the current
    list and carries the selected id; the controls of the device view are
    drawn from its capabilities and a single tap on a slot runs the
    control drawn there for that id: Back at slot 0, then On and Off when
    the device has a switch, then Dim when it is dimmable.  Without a
    selected device in the list only Back is drawn.  A tap on a slot that
    shows nothing runs nothing. *)
Theorem device_controls_match_router (state : AppState) (slot : Z) :
  listView state = ViewDeviceDetail ->
  let labels := listItemNamesForState localeCompare state in
  let tap := commitTap localeCompare state slot 1 in
  match getSelectedDevice state with
  | None => labels = [LABEL_BACK]
  | Some d =>
      In d (devices state) /\ selectedDeviceId state = Some (deviceId d)
  end
  /\ match index labels slot with
     | None => tap = []
     | Some label =>
         (slot = 0 /\ label = LABEL_BACK /\ tap = backFromDetail state)
         \/ exists d,
              getSelectedDevice state = Some d
              /\ ((label = js "On" /\ supportsSwitch d = Some true
                   /\ tap = [RunDeviceSwitch (deviceId d) true])
                  \/ (label = js "Off" /\ supportsSwitch d = Some true
                      /\ tap = [RunDeviceSwitch (deviceId d) false])
                  \/ (label = js "Dim" /\ supportsDimmer d = Some true
                      /\ tap = [Dispatch (NAV_VIEW ViewDeviceDim); RefreshPage;
                                LoadDeviceStats (deviceId d)]))
     end.
Proof.
  intros Hview labels tap. subst labels tap.
  unfold listItemNamesForState, commitTap, deviceDetailItemNames.
  cbv zeta. rewrite Hview.
  destruct (decide (ViewDeviceDetail = ViewMain)); [discriminate|].
  destruct (decide (ViewDeviceDetail = ViewDeviceDetail)); [|congruence].
  cbn [isPaginatedList Z.eqb Pos.eqb].
  destruct (getSelectedDevice state) as [d|] eqn:Hdevice.
  - destruct (getSelectedDevice_Some state d Hdevice) as (Hin & Hid & Htruthy).
    rewrite Htruthy. split; [tauto|]. simpl.
    destruct (supportsSwitch d) as [[|]|] eqn:Hswitch;
      destruct (supportsDimmer d) as [[|]|] eqn:Hdimmer;
      simpl; slot_by_slot slot; simpl;
      first [reflexivity | drawn_controls d].
  - split; [reflexivity|]. simpl.
    slot_by_slot slot; simpl; try tauto;
      destruct (truthyId (selectedDeviceId state)); reflexivity.
Qed.

(** X8. The controls of a whole room: Back at slot 0, On and Off when a device
    of the room has a switch, Dim when one is dimmable; a single tap on a
    slot runs the control drawn there, and a tap on a slot that shows
    nothing runs nothing. *)
Theorem room_controls_match_router (state : AppState) (slot : Z) :
  listView state = ViewRoomAllDetail ->
  let labels := listItemNamesForState localeCompare state in
  let tap := commitTap localeCompare state slot 1 in
  match index labels slot with
  | None => tap = []
  | Some label =>
      (slot = 0 /\ label = LABEL_BACK
       /\ tap = [Dispatch (NAV_VIEW ViewDevices); RefreshPage])
      \/ (label = js "On" /\ roomHasSwitchable state = true
          /\ tap = [RunAllDevicesInRoomSwitch true])
      \/ (label = js "Off" /\ roomHasSwitchable state = true
          /\ tap = [RunAllDevicesInRoomSwitch false])
      \/ (label = js "Dim" /\ roomHasDimmable state = true
          /\ tap = [Dispatch (NAV_VIEW ViewRoomAllDim); RefreshPage])
  end.
Proof.
  intros Hview labels tap. subst labels tap.
  assert (Hpaginated : isPaginatedList (listView state) = true)
    by (rewrite Hview; reflexivity).
  destruct (commitTap_paginated localeCompare state slot Hpaginated) as [-> _].
  unfold listItemNamesForState, singleTap, roomAllDetailItemNames.
  cbv zeta. rewrite Hview.
  destruct (roomHasSwitchable state); destruct (roomHasDimmable state);
    simpl; slot_by_slot slot; simpl; tauto.
Qed.

End DetailControls.

Lemma device_controls_match_router_witness :
  let state :=
    Examples.inView ViewDeviceDetail 0
      (Examples.withDevices [Examples.device 1]
         (Some (deviceId (Examples.device 1))) Examples.initialState) in
  In (Examples.device 1) (devices state)
  /\ selectedDeviceId state = Some (deviceId (Examples.device 1)).
Proof.
  exact (proj1 (device_controls_match_router codeUnitCompare
                  (Examples.inView ViewDeviceDetail 0
                     (Examples.withDevices [Examples.device 1]
                        (Some (deviceId (Examples.device 1)))
                        Examples.initialState))
                  1 eq_refl)).
Defined.

Lemma room_controls_match_router_witness :
  let state :=
    Examples.inView ViewRoomAllDetail 0
      (Examples.withDevices [Examples.device 1] None Examples.initialState) in
  (2 = 0 /\ js "Off" = LABEL_BACK
   /\ commitTap codeUnitCompare state 2 1
      = [Dispatch (NAV_VIEW ViewDevices); RefreshPage])
  \/ (js "Off" = js "On" /\ roomHasSwitchable state = true
      /\ commitTap codeUnitCompare state 2 1 = [RunAllDevicesInRoomSwitch true])
  \/ (js "Off" = js "Off" /\ roomHasSwitchable state = true
      /\ commitTap codeUnitCompare state 2 1 = [RunAllDevicesInRoomSwitch false])
  \/ (js "Off" = js "Dim" /\ roomHasDimmable state = true
      /\ commitTap codeUnitCompare state 2 1
         = [Dispatch (NAV_VIEW ViewRoomAllDim); RefreshPage]).
Proof.
  exact (room_controls_match_router codeUnitCompare
           (Examples.inView ViewRoomAllDetail 0
              (Examples.withDevices [Examples.device 1] None
                 Examples.initialState))
           2 eq_refl).
Defined.

(** ** Alphabetical order *)

Section Stability.

Context {A : Type} (cmp : A -> A -> Z).

(** Sorting an array that is already in order changes nothing. *)
Lemma array_sort_sorted_id (l : list A) :
  StronglySorted (before cmp) l -> array_sort cmp l = l.
Proof.
  induction 1 as [|x l Hl IH Hx]; [reflexivity|].
  simpl. rewrite IH. destruct Hx as [|y l Hxy _]; [reflexivity|].
  simpl. unfold before in Hxy. destruct (Z.leb_spec (cmp x y) 0); [reflexivity|lia].
Qed.

Hypothesis cmp_total : forall a b, cmp a b <= 0 \/ cmp b a <= 0.
Hypothesis cmp_trans : forall a b c, cmp a b <= 0 -> cmp b c <= 0 -> cmp a c <= 0.

Lemma sort_insert_stable (x a : A) (l : list A) :
  List.filter (collatesEqual cmp x) (sort_insert cmp a l)
  = List.filter (collatesEqual cmp x) (a :: l).
Proof.
  induction l as [|y l IH]; [reflexivity|].
  cbn [sort_insert]. destruct (Z.leb_spec (cmp a y) 0) as [Hay|Hay]; [reflexivity|].
  cbn [List.filter] in *. rewrite IH.
  destruct (collatesEqual cmp x a) eqn:Hxa;
    destruct (collatesEqual cmp x y) eqn:Hxy; try reflexivity.
  unfold collatesEqual in Hxa, Hxy.
  apply andb_prop in Hxa. destruct Hxa as [_ Hax].
  apply andb_prop in Hxy. destruct Hxy as [Hxy _].
  apply Z.leb_le in Hax, Hxy.
  pose proof (cmp_trans a x y Hax Hxy). lia.
Qed.

(** The sort is stable: the elements that collate equal to [x] stand in
    the order in which they were given. *)
Lemma array_sort_stable (x : A) (l : list A) :
  List.filter (collatesEqual cmp x) (array_sort cmp l)
  = List.filter (collatesEqual cmp x) l.
Proof.
  induction l as [|a l IH]; [reflexivity|].
  cbn [array_sort fold_right]. fold (array_sort cmp l).
  rewrite sort_insert_stable. cbn [List.filter]. rewrite IH. reflexivity.
Qed.

End Stability.

Lemma StronglySorted_snoc {A} (R : A -> A -> Prop) (l : list A) (a : A) :
  StronglySorted R l -> List.Forall (fun y => R y a) l ->
  StronglySorted R (l ++ [a]).
Proof.
  induction 1 as [|x l Hl IH Hx]; intros Hall; simpl.
  - constructor; constructor.
  - inversion Hall as [|? ? Hxa Hla]; subst.
    constructor; [apply IH; exact Hla|].
    apply List.Forall_app. split; [exact Hx|]. constructor; [exact Hxa|constructor].
Qed.

Lemma StronglySorted_rev {A} (R : A -> A -> Prop) (l : list A) :
  StronglySorted R l -> StronglySorted (fun a b => R b a) (rev l).
Proof.
  induction 1 as [|x l Hl IH Hx]; simpl; [constructor|].
  apply StronglySorted_snoc; [exact IH|].
  apply List.Forall_forall. intros y Hy. apply in_rev in Hy.
  rewrite List.Forall_forall in Hx. apply Hx, Hy.
Qed.

Section AlphabeticalOrder.

Variable localeCompare : jsstring -> jsstring -> Z.

Hypothesis collation_total :
  forall a b, localeCompare a b <= 0 \/ localeCompare b a <= 0.
Hypothesis collation_trans :
  forall a b c, localeCompare a b <= 0 -> localeCompare b c <= 0 ->
                localeCompare a c <= 0.

(** X9. For a collation that is a total preorder, the alphabetical order of a
    collection is a permutation of it, in non-decreasing order of the
    names; entities whose names collate equal keep the order they were
    given in; and a collection already in order is returned as it is.  The
    reverse order is the alphabetical one read backwards, so that entities
    whose names collate equal stand in it in the reverse of the order they
    were given in. *)
Theorem alphabetical_order_sorted_and_stable {T} (items : list T)
    (getKey getName : T -> jsstring) (customIds : list jsstring) :
  let cmp := byName localeCompare getName in
  let sorted := applyOrder localeCompare items getKey getName Alphabetical customIds in
  let reversed := applyOrder localeCompare items getKey getName Reverse customIds in
  Permutation sorted items
  /\ StronglySorted (before cmp) sorted
  /\ (forall x, List.filter (collatesEqual cmp x) sorted
                = List.filter (collatesEqual cmp x) items)
  /\ (StronglySorted (before cmp) items -> sorted = items)
  /\ Permutation reversed items
  /\ StronglySorted (fun a b => before cmp b a) reversed
  /\ (forall x, List.filter (collatesEqual cmp x) reversed
                = rev (List.filter (collatesEqual cmp x) items)).
Proof.
  intros cmp sorted reversed. subst sorted reversed. unfold applyOrder. fold cmp.
  assert (Htotal : forall a b, cmp a b <= 0 \/ cmp b a <= 0)
    by (intros a b; apply collation_total).
  assert (Htrans : forall a b c, cmp a b <= 0 -> cmp b c <= 0 -> cmp a c <= 0)
    by (intros a b c; apply collation_trans).
  repeat split.
  - apply array_sort_Permutation.
  - apply array_sort_sorted; assumption.
  - intros x. apply array_sort_stable; assumption.
  - apply array_sort_sorted_id.
  - rewrite <- Permutation_rev. apply array_sort_Permutation.
  - apply (StronglySorted_rev (before cmp)).
    apply array_sort_sorted; assumption.
  - intros x. rewrite filter_rev. f_equal. apply array_sort_stable; assumption.
Qed.

End AlphabeticalOrder.

Lemma alphabetical_order_sorted_and_stable_witness :
  applyOrder codeUnitCompare Examples.threeScenes sceneId sceneName Alphabetical []
  = array_sort (byName codeUnitCompare sceneName) Examples.threeScenes
  /\ StronglySorted (before (byName codeUnitCompare sceneName))
       (applyOrder codeUnitCompare Examples.threeScenes sceneId sceneName
          Alphabetical []).
Proof.
  split; [reflexivity|].
  exact (proj1 (proj2 (alphabetical_order_sorted_and_stable codeUnitCompare
                         codeUnitCompare_total codeUnitCompare_trans
                         Examples.threeScenes sceneId sceneName []))).
Defined.

(** ** An explicit order that lists entities once *)

Section ListedOrder.

Context {T : Type}.
Implicit Types (m : list (jsstring * T)) (k : jsstring).

Lemma get_In k m :
  In k (JsMap.keys m) -> exists v, JsMap.get k m = Some v /\ In (k, v) m.
Proof.
  induction m as [|[k' v'] m IH]; simpl; [tauto|].
  destruct (decide (k = k')) as [->|Hne].
  - intros _. exists v'. split; [reflexivity|left; reflexivity].
  - intros [Heq|Hin]; [congruence|].
    destruct (IH Hin) as (v & Hget & Hv). exists v. split; [exact Hget|right; exact Hv].
Qed.

Lemma delete_In k m (e : jsstring * T) : In e (JsMap.delete k m) -> In e m.
Proof.
  induction m as [|[k' v'] m IH]; simpl; [tauto|].
  destruct (decide (k = k')); [tauto|]. simpl. intros [?|?]; [tauto|].
  right. apply IH. assumption.
Qed.

Lemma delete_keeps k k' m :
  In k' (JsMap.keys m) -> k' <> k -> In k' (JsMap.keys (JsMap.delete k m)).
Proof.
  induction m as [|[k0 v0] m IH]; simpl; [tauto|].
  intros Hin Hne. destruct (decide (k = k0)) as [->|Hk].
  - destruct Hin; [congruence|assumption].
  - simpl. destruct Hin; [tauto|]. right. apply IH; assumption.
Qed.

Lemma customWalk_listed (getKey : T -> jsstring) (customIds : list jsstring)
    m (ordered : list T) :
  List.NoDup (JsMap.keys m) ->
  (forall e, In e m -> fst e = getKey (snd e)) ->
  List.NoDup customIds ->
  (forall id, In id customIds -> In id (JsMap.keys m)) ->
  map getKey (fst (customWalk customIds m ordered))
  = map getKey ordered ++ customIds
  /\ (length (snd (customWalk customIds m ordered)) + length customIds
      = length m)%nat.
Proof.
  revert m ordered.
  induction customIds as [|id ids IH]; intros m ordered Hnd Hkey Hids Hknown.
  - simpl. rewrite app_nil_r. split; [reflexivity|lia].
  - inversion Hids as [|? ? Hfresh Hids']; subst.
    destruct (get_In id m (Hknown id (or_introl eq_refl))) as (item & Hget & Hitem).
    simpl. rewrite Hget.
    destruct (delete_keys id m Hnd) as (Hnd' & _ & _).
    destruct (IH (JsMap.delete id m) (ordered ++ [item])) as [Hwalk Hlength].
    + exact Hnd'.
    + intros e He. apply Hkey. eapply delete_In. exact He.
    + exact Hids'.
    + intros id' Hid'. apply delete_keeps.
      * apply Hknown. right. exact Hid'.
      * intros ->. contradiction.
    + rewrite Hwalk. rewrite map_app, <- app_assoc. simpl.
      pose proof (Hkey (id, item) Hitem) as Hid. simpl in Hid.
      rewrite <- Hid. split; [reflexivity|].
      apply get_Some, Permutation_length in Hget. simpl in Hget. lia.
Qed.

End ListedOrder.

Section ExplicitOrder.

Variable localeCompare : jsstring -> jsstring -> Z.

(** X10. When the identifiers of a collection are unique and the explicit list
    names entities of the collection, each at most once, the custom order
    starts with the named entities in the order of the list; the entities
    that the list leaves out follow.  A list that names every entity is
    therefore the order shown. *)
Theorem explicit_order_is_respected {T} (items : list T)
    (getKey getName : T -> jsstring) (customIds : list jsstring) :
  List.NoDup (map getKey items) ->
  List.NoDup customIds ->
  (forall id, In id customIds -> In id (map getKey items)) ->
  let ordered := applyOrder localeCompare items getKey getName Custom customIds in
  (exists rest,
      map getKey ordered = customIds ++ map getKey rest
      /\ (length rest + length customIds = length items)%nat)
  /\ (length customIds = length items -> map getKey ordered = customIds).
Proof.
  intros Hnd Hids Hknown ordered. subst ordered. unfold applyOrder.
  set (entries := map (fun item => (getKey item, item)) items).
  assert (Hkeys : map fst entries = map getKey items).
  { unfold entries. rewrite map_map. reflexivity. }
  rewrite of_entries_unique by (rewrite Hkeys; exact Hnd).
  destruct (customWalk_listed getKey customIds entries []) as [Hwalk Hlength].
  - unfold JsMap.keys. rewrite Hkeys. exact Hnd.
  - intros e He. apply in_map_iff in He. destruct He as (x & <- & _). reflexivity.
  - exact Hids.
  - intros id Hid. unfold JsMap.keys. rewrite Hkeys. apply Hknown, Hid.
  - destruct (customWalk customIds entries []) as [referenced byId'].
    simpl in Hwalk, Hlength.
    assert (Hentries : length entries = length items)
      by (unfold entries; apply length_map).
    assert (Hshape : exists rest,
               map getKey (referenced
                           ++ array_sort (byName localeCompare getName)
                                (JsMap.values byId'))
               = customIds ++ map getKey rest
               /\ (length rest + length customIds = length items)%nat).
    { exists (array_sort (byName localeCompare getName) (JsMap.values byId')).
      rewrite map_app, Hwalk. split; [reflexivity|].
      rewrite array_sort_length. unfold JsMap.values. rewrite length_map. lia. }
    split; [exact Hshape|].
    intros Hall. destruct Hshape as (rest & Hmap & Hrest).
    rewrite Hmap. destruct rest; [apply app_nil_r|simpl in Hrest; lia].
Qed.

End ExplicitOrder.

Lemma explicit_order_is_respected_witness :
  map sceneId
    (applyOrder codeUnitCompare Examples.threeScenes sceneId sceneName Custom
       [js "s3"; js "s1"; js "s2"])
  = [js "s3"; js "s1"; js "s2"].
Proof.
  apply (explicit_order_is_respected codeUnitCompare Examples.threeScenes
           sceneId sceneName [js "s3"; js "s1"; js "s2"]).
  - apply threeScenes_unique.
  - repeat constructor; simpl; intuition discriminate.
  - simpl. tauto.
  - reflexivity.
Defined.

(** ** What the loaders store *)

Section LoadedCollections.

Variable localeCompare : jsstring -> jsstring -> Z.

Hypothesis collation_total :
  forall a b, localeCompare a b <= 0 \/ localeCompare b a <= 0.
Hypothesis collation_trans :
  forall a b c, localeCompare a b <= 0 -> localeCompare b c <= 0 ->
                localeCompare a c <= 0.

Lemma stored_order_is_kept {T} (loaded : list T)
    (getKey getName : T -> jsstring) (customIds : list jsstring) :
  let stored := array_sort (byName localeCompare getName) loaded in
  Permutation stored loaded
  /\ StronglySorted (before (byName localeCompare getName)) stored
  /\ applyOrder localeCompare stored getKey getName Alphabetical customIds = stored.
Proof.
  intros stored.
  assert (Hsorted : StronglySorted (before (byName localeCompare getName)) stored).
  { apply array_sort_sorted.
    - intros a b. apply collation_total.
    - intros a b c. apply collation_trans. }
  split; [apply array_sort_Permutation|]. split; [exact Hsorted|].
  apply array_sort_sorted_id. exact Hsorted.
Qed.

(** X11. No data action - none of the nineteen cases of the reducer that
    are not navigation - changes the view or the selection, so a loader
    that finishes late never navigates.  A loaded collection is stored as
    a permutation of what was fetched, in alphabetical order, and the view
    is put back on page 0, a page of the view whatever was loaded; under
    the alphabetical preference the selector then shows the collection in
    the stored order.  Loading the devices of the whole location, and
    every other data action, leaves the page index as it is; a failed
    scene load and the end of an execution set the status (error, or done
    on success), and a change of a list's order touches neither the
    favorites nor the renames. *)
Theorem data_actions_keep_the_view (state : AppState) (action : DataAction) :
  let state' := reduceData localeCompare state action in
  (listView state' = listView state
   /\ selectedRoomId state' = selectedRoomId state
   /\ selectedDeviceId state' = selectedDeviceId state)
  /\ match action with
     | SCENES_LOADED loaded =>
         Permutation (scenes state') loaded
         /\ StronglySorted (before (byName localeCompare sceneName)) (scenes state')
         /\ validPage localeCompare state'
         /\ (order_scenes (listOrder (preferences state)) = Alphabetical ->
             getOrderedScenes localeCompare state' = scenes state')
     | ROOMS_LOADED loaded =>
         Permutation (rooms state') loaded
         /\ StronglySorted (before (byName localeCompare roomName)) (rooms state')
         /\ validPage localeCompare state'
         /\ (order_rooms (listOrder (preferences state)) = Alphabetical ->
             getOrderedRooms localeCompare state' = rooms state')
     | DEVICES_LOADED loaded =>
         Permutation (devices state') loaded
         /\ StronglySorted (before (byName localeCompare deviceName)) (devices state')
         /\ validPage localeCompare state'
         /\ (order_devices (listOrder (preferences state)) = Alphabetical ->
             getOrderedDevices localeCompare state' = devices state')
     | ALL_DEVICES_LOADED loaded =>
         Permutation (allDevices state') loaded
         /\ listPageIndex state' = listPageIndex state
     | SCENES_ERROR _ =>
         status state' = StatusError
         /\ listPageIndex state' = listPageIndex state
     | EXECUTE_END success _ =>
         status state' = (if success then StatusDone else StatusError)
         /\ listPageIndex state' = listPageIndex state
     | SET_LIST_ORDER key preference customIds =>
         listOrder (preferences state')
         = setListOrder (listOrder (preferences state)) key preference
         /\ (customIds = None ->
             listOrderCustomIds (preferences state')
             = listOrderCustomIds (preferences state))
         /\ favoritesIds (preferences state') = favoritesIds (preferences state)
         /\ renames (preferences state') = renames (preferences state)
         /\ listPageIndex state' = listPageIndex state
     | _ => listPageIndex state' = listPageIndex state
     end.
Proof.
  intros state'. split; [destruct action; repeat split; reflexivity|].
  assert (Hpage : listPageIndex state' = 0 -> validPage localeCompare state').
  { intros Hzero. unfold validPage. rewrite Hzero.
    pose proof (getTotalPages_positive localeCompare state'). lia. }
  destruct action
    as [loaded|message| |loaded|message| |loaded|message|loaded| |success message
       |stats|stats|stats|p|key preference customIds|ids|flags|names];
    try reflexivity.
  - destruct (stored_order_is_kept loaded sceneId sceneName
                (custom_scenes (listOrderCustomIds (preferences state))))
      as (Hperm & Hsorted & Hkept).
    repeat split; [exact Hperm|exact Hsorted|apply Hpage; reflexivity..|].
    intros Horder. unfold getOrderedScenes. subst state'. simpl.
    rewrite Horder. exact Hkept.
  - split; reflexivity.
  - destruct (stored_order_is_kept loaded roomId roomName
                (custom_rooms (listOrderCustomIds (preferences state))))
      as (Hperm & Hsorted & Hkept).
    repeat split; [exact Hperm|exact Hsorted|apply Hpage; reflexivity..|].
    intros Horder. unfold getOrderedRooms. subst state'. simpl.
    rewrite Horder. exact Hkept.
  - destruct (stored_order_is_kept loaded deviceId deviceName
                (custom_devices (listOrderCustomIds (preferences state))))
      as (Hperm & Hsorted & Hkept).
    repeat split; [exact Hperm|exact Hsorted|apply Hpage; reflexivity..|].
    intros Horder. unfold getOrderedDevices. subst state'. simpl.
    rewrite Horder. exact Hkept.
  - split; [|reflexivity]. apply array_sort_Permutation.
  - destruct success; split; reflexivity.
  - repeat split. intros ->. reflexivity.
Qed.

End LoadedCollections.

Lemma data_actions_keep_the_view_witness :
  getOrderedScenes codeUnitCompare
    (reduceData codeUnitCompare Examples.stateScenes40
       (SCENES_LOADED Examples.threeScenes))
  = scenes (reduceData codeUnitCompare Examples.stateScenes40
              (SCENES_LOADED Examples.threeScenes)).
Proof.
  apply (data_actions_keep_the_view codeUnitCompare codeUnitCompare_total
           codeUnitCompare_trans Examples.stateScenes40
           (SCENES_LOADED Examples.threeScenes)).
  reflexivity.
Defined.

(** ** A page index past the last page *)

Lemma paged_names_clamped {T} (items : list T) (label : T -> jsstring)
    (PER_PAGE page : Z) :
  items <> [] ->
  pagedTotalPages (Z.of_nat (length items)) PER_PAGE - 1 <= page ->
  pagedNamesForListView items label PER_PAGE page
  = pagedNamesForListView items label PER_PAGE
      (pagedTotalPages (Z.of_nat (length items)) PER_PAGE - 1).
Proof.
  intros Hne Hpage. unfold pagedNamesForListView. unfold pagedTotalPages in *.
  set (n := Z.of_nat (length items)) in *.
  assert (Hn : n <> 0) by (destruct items; [congruence|subst n; simpl; lia]).
  destruct (Z.eqb_spec n 0); [lia|]. cbv zeta in *.
  set (totalPages := if n <=? PER_PAGE then 1 else _) in *.
  rewrite (Z.min_r page) by lia. rewrite Z.min_id. reflexivity.
Qed.

Section Clamping.

Variable localeCompare : jsstring -> jsstring -> Z.

(** X12. The composers of the collection views read the page index through
    [Math.min(listPageIndex, totalPages - 1)]: a state whose page index is
    past the last page, as a shrinking collection can leave it, is drawn
    as the last page. *)
Theorem composer_clamps_the_page_index (state : AppState) (n : Z) :
  collectionViewSize localeCompare state = Some n ->
  getTotalPages localeCompare state - 1 <= listPageIndex state ->
  listItemNamesForState localeCompare state
  = listItemNamesForState localeCompare
      (reduce state (LIST_PAGE (getTotalPages localeCompare state - 1))).
Proof.
  unfold collectionViewSize. intros Hsize Hpage.
  set (last := getTotalPages localeCompare state - 1) in *.
  set (state' := reduce state (LIST_PAGE last)).
  assert (Hlast : listPageIndex state' = last) by reflexivity.
  unfold listItemNamesForState.
  change (listView state') with (listView state).
  destruct (listView state) eqn:Hview; try discriminate; clear Hsize.
  - subst last. unfold getTotalPages in *. rewrite Hview in *.
    unfold sceneNamesForListView.
    change (getOrderedScenes localeCompare state')
      with (getOrderedScenes localeCompare state).
    destruct (getOrderedScenes localeCompare state) eqn:Hitems; [reflexivity|].
    rewrite <- Hitems in *.
    rewrite Hlast. apply paged_names_clamped; [congruence|exact Hpage].
  - subst last. unfold getTotalPages in *. rewrite Hview in *.
    unfold roomNamesForListView.
    change (getOrderedRooms localeCompare state')
      with (getOrderedRooms localeCompare state).
    destruct (getOrderedRooms localeCompare state) eqn:Hitems; [reflexivity|].
    rewrite <- Hitems in *.
    rewrite Hlast. apply paged_names_clamped; [congruence|exact Hpage].
  - subst last. rewrite (getTotalPages_devices localeCompare state Hview) in *.
    unfold deviceNamesForListView.
    change (getOrderedDevices localeCompare state')
      with (getOrderedDevices localeCompare state).
    destruct (getOrderedDevices localeCompare state) as [|d0 ds] eqn:Hitems;
      [reflexivity|].
    rewrite <- Hitems in *.
    assert (Hn : 0 < Z.of_nat (length (getOrderedDevices localeCompare state)))
      by (rewrite Hitems; simpl; lia).
    clear Hitems d0 ds.
    change (deviceLabel state') with (deviceLabel state).
    rewrite Hlast. clear Hlast state'.
    set (devices := getOrderedDevices localeCompare state) in *.
    set (n' := Z.of_nat (length devices)) in *.
    rewrite devicesFirstCount_alt.
    unfold devicesTotalPages in *.
    destruct (Z.eqb_spec n' 0); [lia|].
    set (totalPages := if DEVICES_PER_PAGE - 1 <? 1 + n' then _ else 1) in *.
    assert (Hpos : 1 <= totalPages).
    { subst totalPages.
      unfold devicesFirstCount, DEVICES_PER_PAGE, SCENES_PER_PAGE, LIST_MAX_ITEMS.
      pose proof (ceil_div_bounds (n' - (20 - 2 - 1 - 1 - 1)) (20 - 2 - 1)).
      destruct (Z.ltb_spec (20 - 2 - 1) (1 + n')); lia. }
    rewrite (Z.max_r 0) by lia.
    rewrite (Z.min_r (listPageIndex state)) by lia. rewrite Z.min_id.
    reflexivity.
  - subst last. unfold getTotalPages in *. rewrite Hview in *.
    unfold favoriteNamesForListView.
    change (getOrderedFavorites localeCompare state')
      with (getOrderedFavorites localeCompare state).
    destruct (getOrderedFavorites localeCompare state) eqn:Hitems; [reflexivity|].
    rewrite <- Hitems in *.
    rewrite Hlast. apply paged_names_clamped; [congruence|exact Hpage].
Qed.

End Clamping.

Lemma composer_clamps_the_page_index_witness :
  listItemNamesForState codeUnitCompare (Examples.state25 7)
  = listItemNamesForState codeUnitCompare (Examples.state25 1).
Proof.
  apply (composer_clamps_the_page_index codeUnitCompare (Examples.state25 7) 25).
  - reflexivity.
  - vm_compute. discriminate.
Defined.

(** ** Commits and the taps before them *)

Section Commits.

Variable cfg : GestureConfig.

Lemma tracked_step (seen : list Label) (s s' : Z * GestureSession) (l : Label) :
  tracked seen (snd s) -> step cfg s l s' -> positiveTaps [l] ->
  tracked (seen ++ [l]) (snd s').
Proof.
  intros [Hcount Hpending] Hstep Hpositive.
  inversion Hstep as [clock g i taps now Hnow|clock g due now Htimer Hnow Hlate];
    subst; simpl in *.
  - inversion Hpositive as [|? ? Htaps _]; subst.
    unfold tracked, handleTap. cbn [tapCount commitTimeoutId lastTapIndex].
    assert (Hnew : 1 <= (if (i =? lastTapIndex g)
                            && (now - lastTapTime g <=? TAP_WINDOW_MS cfg)
                         then Z.min (tapCount g + taps) 4
                         else Z.min taps 4) <= 4)
      by (destruct (_ && _); lia).
    split; [lia|]. intros _. split; [lia|].
    exists seen, taps, now. do 3 f_equal.
    destruct ((i =? lastTapIndex g) && _) eqn:Hsame; [|reflexivity].
    apply andb_prop in Hsame. destruct Hsame as [Hi _].
    apply Z.eqb_eq in Hi. congruence.
  - unfold tracked. simpl. split; [lia|]. congruence.
Qed.

Lemma commits_follow_taps (s s' : Z * GestureSession) (labels : list Label) :
  run cfg s labels s' ->
  forall seen, tracked seen (snd s) -> positiveTaps labels ->
  forall before position count after,
    labels = before ++ Committed position count :: after ->
    1 <= count <= 4
    /\ exists before' gestureTaps now,
         seen ++ before = before' ++ [Tapped position gestureTaps now].
Proof.
  induction 1 as [s|s l s1 ls s2 Hstep Hrun IH];
    intros seen Htracked Hpositive before position count after Hlabels.
  - destruct before; discriminate.
  - inversion Hpositive as [|? ? Hl Hls]; subst.
    destruct before as [|l' before]; simpl in Hlabels;
      injection Hlabels as -> ->.
    + inversion Hstep as [|clock g due now Htimer Hnow Hlate]; subst.
      destruct Htracked as [Hcount Hpending]. simpl in *.
      destruct Hpending as [Hone Hseen]; [congruence|].
      split; [lia|]. rewrite app_nil_r. exact Hseen.
    + assert (Hnext : tracked (seen ++ [l']) (snd s1)).
      { eapply tracked_step; [exact Htracked|exact Hstep|].
        constructor; [exact Hl|constructor]. }
      destruct (IH (seen ++ [l']) Hnext Hls before position count after eq_refl)
        as [Hcount Hseen].
      split; [exact Hcount|]. rewrite <- app_assoc in Hseen. exact Hseen.
Qed.

(** X13. In every run of the handler from the initial session, whose taps carry
    at least one tap each, a commit comes right after a tap at the
    committed position, with a count between 1 and 4.  So nothing is
    committed before the first tap, no gesture is committed twice, and the
    position committed is the one tapped last. *)
Theorem every_commit_follows_its_tap (clock : Z) (labels : list Label)
    (s' : Z * GestureSession) (before after : list Label) (position count : Z) :
  run cfg (clock, initialSession) labels s' ->
  positiveTaps labels ->
  labels = before ++ Committed position count :: after ->
  1 <= count <= 4
  /\ exists before' gestureTaps now,
       before = before' ++ [Tapped position gestureTaps now].
Proof.
  intros Hrun Hpositive Hlabels.
  assert (Hidle : tracked [] (snd (clock, initialSession))).
  { unfold tracked. simpl. split; [lia|]. congruence. }
  exact (commits_follow_taps _ _ _ Hrun [] Hidle Hpositive
           before position count after Hlabels).
Qed.

End Commits.

Lemma every_commit_follows_its_tap_witness :
  1 <= 2 <= 4
  /\ exists before' gestureTaps now,
       [Tapped 3 1 100; Tapped 3 1 300]
       = before' ++ [Tapped 3 gestureTaps now].
Proof.
  apply (every_commit_follows_its_tap (gestureConfig false) 0
           [Tapped 3 1 100; Tapped 3 1 300; Committed 3 2]
           (800, afterCommit
                   (handleTap (gestureConfig false)
                      (handleTap (gestureConfig false) initialSession 3 1 100)
                      3 1 300))
           [Tapped 3 1 100; Tapped 3 1 300] [] 3 2).
  - eapply run_cons; [apply step_tap; lia|].
    eapply run_cons; [apply step_tap; lia|].
    eapply run_cons; [|apply run_nil].
    apply (step_commit (gestureConfig false) 300
             (handleTap (gestureConfig false)
                (handleTap (gestureConfig false) initialSession 3 1 100) 3 1 300)
             750 800); [reflexivity|lia|lia].
  - repeat constructor; lia.
  - reflexivity.
Defined.

(** ** The session between gestures *)

Lemma run_preserves_inv (cfg : GestureConfig) (s s' : Z * GestureSession)
    (labels : list Label) :
  0 <= SCROLL_WINDOW_MS cfg ->
  run cfg s labels s' -> sessionInv cfg s -> sessionInv cfg s'.
Proof.
  intros Hwindow. induction 1 as [s|s l s1 ls s2 Hstep Hrun IH]; intros Hinv.
  - exact Hinv.
  - apply IH. eapply step_preserves_inv; eassumption.
Qed.

Lemma run_snoc (cfg : GestureConfig) (s s' : Z * GestureSession)
    (labels : list Label) (l : Label) :
  run cfg s (labels ++ [l]) s' ->
  exists s1, run cfg s labels s1 /\ step cfg s1 l s'.
Proof.
  revert s. induction labels as [|l0 labels IH]; intros s Hrun; simpl in Hrun.
  - inversion Hrun as [|? ? s1 ? ? Hstep Hrest]; subst.
    inversion Hrest; subst. exists s. split; [constructor|exact Hstep].
  - inversion Hrun as [|? ? s1 ? ? Hstep Hrest]; subst.
    destruct (IH s1 Hrest) as (s2 & Hrun' & Hlast).
    exists s2. split; [econstructor; eassumption|exact Hlast].
Qed.

(** X14. Every commit leaves the session as a gesture finds it: whenever a run
    from the initial session, on the glasses or in the simulator, ends with
    a commit, the session holds no position, the count is zero, nothing is
    pending, and every recorded position is older than the scroll window
    of any tap to come. *)
Theorem every_commit_leaves_the_session_idle (useRealGlasses : bool)
    (clock : Z) (labels : list Label) (position count : Z)
    (s' : Z * GestureSession) :
  let cfg := gestureConfig useRealGlasses in
  0 <= clock ->
  run cfg (clock, initialSession) (labels ++ [Committed position count]) s' ->
  lastTapIndex (snd s') = -1 /\ tapCount (snd s') = 0
  /\ commitTimeoutId (snd s') = None
  /\ forall t1, fst s' <= t1 ->
       Forall (fun e => snd e < t1 - SCROLL_WINDOW_MS cfg)
              (recentListIndices (snd s')).
Proof.
  intros cfg Hclock Hrun.
  destruct (run_snoc cfg _ _ _ _ Hrun) as (s1 & Hbefore & Hcommit).
  destruct (gestureConfig_windows useRealGlasses) as (Hwindow & Hafter & _).
  fold cfg in Hwindow, Hafter.
  apply (commit_leaves_idle cfg s1 s' position count);
    [lia|exact Hafter| |exact Hcommit].
  apply (run_preserves_inv cfg _ _ _ Hwindow Hbefore).
  apply initialSession_inv. exact Hclock.
Qed.

Lemma every_commit_leaves_the_session_idle_witness :
  tapCount
    (afterCommit (handleTap (gestureConfig true) initialSession 3 2 100)) = 0.
Proof.
  apply (every_commit_leaves_the_session_idle true 0 [Tapped 3 2 100] 3 2
           (900, afterCommit (handleTap (gestureConfig true) initialSession 3 2 100))).
  - lia.
  - eapply run_cons; [apply step_tap; lia|].
    eapply run_cons; [|apply run_nil].
    apply (step_commit (gestureConfig true) 100
             (handleTap (gestureConfig true) initialSession 3 2 100) 900 900);
      [reflexivity|lia|lia].
Defined.

(** ** The recorded positions *)

Lemma shiftOld_sorted (cutoff : Z) (recent : list (Z * Z)) :
  StronglySorted (fun a b => snd a <= snd b) recent ->
  StronglySorted (fun a b => snd a <= snd b) (shiftOld cutoff recent)
  /\ List.Forall (fun e => cutoff <= snd e) (shiftOld cutoff recent).
Proof.
  induction 1 as [|x recent Hsorted IH Hx]; simpl.
  - split; constructor.
  - destruct (Z.leb_spec cutoff (snd x)) as [Hfresh|_]; [|exact IH].
    split; [constructor; assumption|].
    constructor; [exact Hfresh|].
    eapply List.Forall_impl; [|exact Hx]. cbv beta. intros e He. lia.
Qed.

Lemma recentInWindow_step (cfg : GestureConfig) (s s' : Z * GestureSession)
    (l : Label) :
  0 <= SCROLL_WINDOW_MS cfg ->
  lastTapTime (snd s) <= fst s -> recentInWindow cfg (snd s) ->
  step cfg s l s' ->
  lastTapTime (snd s') <= fst s' /\ recentInWindow cfg (snd s').
Proof.
  intros Hwindow Hclock [Hsorted Hrecent] Hstep.
  inversion Hstep as [clock g i taps now Hnow|clock g due now Htimer Hnow Hlate];
    subst; simpl in *.
  - split; [lia|]. unfold recentInWindow, handleTap.
    cbn [recentListIndices lastTapTime].
    assert (Hall : StronglySorted (fun a b => snd a <= snd b)
                     (recentListIndices g ++ [(i, now)])).
    { apply StronglySorted_snoc; [exact Hsorted|].
      eapply List.Forall_impl; [|exact Hrecent]. cbv beta. simpl. intros e He. lia. }
    destruct (shiftOld_sorted (now - SCROLL_WINDOW_MS cfg) _ Hall) as [Hkept Hfresh].
    split; [exact Hkept|].
    apply List.Forall_forall. intros e He. split.
    + exact (proj1 (List.Forall_forall _ _) Hfresh e He).
    + apply shiftOld_In in He. apply in_app_or in He.
      destruct He as [He|[<-|[]]]; [|simpl; lia].
      pose proof (proj1 (List.Forall_forall _ _) Hrecent e He). simpl in *. lia.
  - split; [lia|]. split; assumption.
Qed.

Lemma recentInWindow_run (cfg : GestureConfig) (s s' : Z * GestureSession)
    (labels : list Label) :
  0 <= SCROLL_WINDOW_MS cfg ->
  run cfg s labels s' ->
  lastTapTime (snd s) <= fst s /\ recentInWindow cfg (snd s) ->
  lastTapTime (snd s') <= fst s' /\ recentInWindow cfg (snd s').
Proof.
  intros Hwindow.
  induction 1 as [s|s l s1 ls s2 Hstep Hrun IH]; intros [Htime Hrecent].
  - split; assumption.
  - apply IH. eapply recentInWindow_step; eassumption.
Qed.

(** X15. In every run of the handler from the initial session, under a clock
    that does not go back, the recorded positions are in the order of
    their taps and none is older than the scroll window of the last tap:
    the handler takes a tap for part of a scroll only on positions tapped
    within that window. *)
Theorem recorded_positions_stay_in_window (cfg : GestureConfig) (clock : Z)
    (labels : list Label) (s' : Z * GestureSession) :
  0 <= SCROLL_WINDOW_MS cfg -> 0 <= clock ->
  run cfg (clock, initialSession) labels s' ->
  recentInWindow cfg (snd s').
Proof.
  intros Hwindow Hclock Hrun.
  apply (recentInWindow_run cfg _ _ _ Hwindow Hrun).
  simpl. split; [exact Hclock|]. split; constructor.
Qed.

Lemma recorded_positions_stay_in_window_witness :
  recentInWindow (gestureConfig false)
    (handleTap (gestureConfig false)
       (handleTap (gestureConfig false) initialSession 1 1 100) 2 1 900).
Proof.
  apply (recorded_positions_stay_in_window (gestureConfig false) 0
           [Tapped 1 1 100; Tapped 2 1 900]
           (900, handleTap (gestureConfig false)
                   (handleTap (gestureConfig false) initialSession 1 1 100)
                   2 1 900)).
  - simpl. lia.
  - lia.
  - eapply run_cons; [apply step_tap; lia|].
    eapply run_cons; [apply step_tap; lia|]. apply run_nil.
Defined.

(** ** Taps at one position *)

Section Accumulation.

Variable cfg : GestureConfig.

Lemma tapAll_same_position (position : Z) (taps : list (Z * Z)) :
  forall (g : GestureSession) (count : Z),
    lastTapIndex g = position -> tapCount g = Z.min count 4 ->
    closeTaps (TAP_WINDOW_MS cfg) (lastTapTime g) taps ->
    List.Forall (fun e => 1 <= fst e) taps ->
    let g' := tapAll cfg g position taps in
    lastTapIndex g' = position
    /\ tapCount g' = Z.min (count + sumTaps taps) 4
    /\ forall earlier gestureTaps now,
         taps = earlier ++ [(gestureTaps, now)] ->
         lastTapTime g' = now
         /\ commitTimeoutId g' = Some (now + TAP_COMMIT_MS cfg).
Proof.
  induction taps as [|[k t] taps IH]; intros g count Hposition Hcount Hclose Hpositive.
  - simpl. unfold sumTaps. simpl. rewrite Z.add_0_r.
    split; [exact Hposition|]. split; [exact Hcount|].
    intros earlier gestureTaps now Htaps. destruct earlier; discriminate.
  - destruct Hclose as [Hclose Hrest].
    apply List.Forall_cons_iff in Hpositive.
    destruct Hpositive as [Hk Hpositive']. simpl in Hk.
    assert (Hsame : (position =? lastTapIndex g)
                    && (t - lastTapTime g <=? TAP_WINDOW_MS cfg) = true).
    { rewrite Hposition, Z.eqb_refl. simpl. apply Z.leb_le. exact Hclose. }
    set (g1 := handleTap cfg g position k t).
    assert (Hg1 : lastTapIndex g1 = position
                  /\ tapCount g1 = Z.min (count + k) 4
                  /\ lastTapTime g1 = t
                  /\ commitTimeoutId g1 = Some (t + TAP_COMMIT_MS cfg)).
    { subst g1. unfold handleTap.
      cbn [lastTapIndex tapCount lastTapTime commitTimeoutId].
      rewrite Hsame. rewrite Hcount. repeat split; [exact Hposition|lia]. }
    destruct Hg1 as (Hposition1 & Hcount1 & Htime1 & Htimer1).
    destruct (IH g1 (count + k) Hposition1 Hcount1) as (Hlast & Htotal & Hfinal).
    { rewrite Htime1. exact Hrest. }
    { exact Hpositive'. }
    change (tapAll cfg g position ((k, t) :: taps))
      with (tapAll cfg g1 position taps).
    split; [exact Hlast|]. split.
    + rewrite Htotal. unfold sumTaps. simpl. f_equal. lia.
    + intros earlier gestureTaps now Htaps.
      destruct earlier as [|e earlier]; simpl in Htaps.
      * injection Htaps as Hk' Ht' Hnil. rewrite Hnil, <- Ht'. simpl.
        split; assumption.
      * injection Htaps as _ Htaps. exact (Hfinal earlier gestureTaps now Htaps).
Qed.

(** X16. Taps at one position, each within the tap window of the one before,
    add up: from an idle session, after a first tap and any number of
    further ones, single or double, the session holds that position, the
    count is the sum of the taps capped at 4, and the commit is due
    [TAP_COMMIT_MS] after the last tap, each further tap having replaced
    the pending commit of the one before. *)
Theorem taps_at_one_position_add_up (g : GestureSession)
    (position first time : Z) (further : list (Z * Z)) :
  lastTapIndex g = -1 -> tapCount g = 0 ->
  1 <= first ->
  closeTaps (TAP_WINDOW_MS cfg) time further ->
  List.Forall (fun e => 1 <= fst e) further ->
  let g' := tapAll cfg g position ((first, time) :: further) in
  lastTapIndex g' = position
  /\ tapCount g' = Z.min (first + sumTaps further) 4
  /\ forall earlier gestureTaps now,
       further = earlier ++ [(gestureTaps, now)] ->
       lastTapTime g' = now
       /\ commitTimeoutId g' = Some (now + TAP_COMMIT_MS cfg).
Proof.
  intros Hidle Hzero Hfirst Hclose Hpositive.
  change (tapAll cfg g position ((first, time) :: further))
    with (tapAll cfg (handleTap cfg g position first time) position further).
  set (g1 := handleTap cfg g position first time).
  assert (Hg1 : lastTapIndex g1 = position /\ tapCount g1 = Z.min first 4
                /\ lastTapTime g1 = time).
  { subst g1. unfold handleTap. cbn [lastTapIndex tapCount lastTapTime].
    rewrite Hidle, Hzero.
    destruct ((position =? -1) && _) eqn:Hsame.
    - apply andb_prop in Hsame. destruct Hsame as [Hsame _].
      apply Z.eqb_eq in Hsame. split; [congruence|].
      split; [f_equal; lia|reflexivity].
    - repeat split. }
  destruct Hg1 as (Hposition1 & Hcount1 & Htime1).
  apply tapAll_same_position; assumption.
Qed.

End Accumulation.

Lemma taps_at_one_position_add_up_witness :
  tapCount (tapAll (gestureConfig false) initialSession 3
              [(1, 100); (2, 400); (2, 700)]) = Z.min (1 + sumTaps [(2, 400); (2, 700)]) 4.
Proof.
  apply (taps_at_one_position_add_up (gestureConfig false) initialSession 3 1 100
           [(2, 400); (2, 700)]).
  - reflexivity.
  - reflexivity.
  - lia.
  - simpl. lia.
  - repeat constructor; simpl; lia.
Defined.

(** ** Outcomes by device and by action *)

Lemma filter_length_all {A} (p : A -> bool) (l : list A) :
  length (List.filter p l) = length l <-> forall x, In x l -> p x = true.
Proof.
  induction l as [|a l IH]; simpl; [tauto|].
  pose proof (List.filter_length_le p l) as Hle.
  destruct (p a) eqn:Hpa; simpl.
  - split.
    + intros Hlen x [<-|Hx]; [exact Hpa|]. apply IH; [lia|exact Hx].
    + intros Hall. f_equal. apply IH. auto.
  - split; [lia|]. intros Hall. specialize (Hall a (or_introl eq_refl)). congruence.
Qed.

Lemma filter_length_none {A} (p : A -> bool) (l : list A) :
  length (List.filter p l) = 0%nat <-> forall x, In x l -> p x = false.
Proof.
  induction l as [|a l IH]; simpl; [tauto|].
  destruct (p a) eqn:Hpa; simpl.
  - split; [lia|]. intros Hall. specialize (Hall a (or_introl eq_refl)). congruence.
  - rewrite IH. split; [intros Hall x [<-|Hx]; auto|auto].
Qed.

(** The classification by counts, read on the targets themselves. *)
Lemma counts_by_target {A} (p : A -> bool) (l : list A) :
  l <> [] ->
  let shown :=
    confirmationResultFromCounts (Z.of_nat (length (List.filter p l)))
                                 (Z.of_nat (length l)) in
  (shown = Success <-> forall x, In x l -> p x = true)
  /\ (shown = Failure <-> forall x, In x l -> p x = false).
Proof.
  intros Hne shown. subst shown. unfold confirmationResultFromCounts.
  rewrite <- filter_length_all, <- filter_length_none.
  pose proof (List.filter_length_le p l) as Hle.
  assert (Hn : length l <> 0%nat) by (destruct l; [congruence|simpl; lia]).
  destruct (Z.eqb_spec (Z.of_nat (length l)) 0); [lia|].
  destruct (Z.eqb_spec (Z.of_nat (length (List.filter p l))) 0); simpl.
  - split; split; intros H; try discriminate; try reflexivity; lia.
  - destruct (Z.eqb_spec (Z.of_nat (length (List.filter p l)))
                         (Z.of_nat (length l)));
      split; split; intros H; try discriminate; try reflexivity; lia.
Qed.

Lemma batch_by_target {A} (ok : A -> bool) (targets : list A) :
  let shown :=
    if Z.of_nat (length targets) =? 0 then Failure
    else confirmationResultFromCounts (countSuccesses ok targets)
                                      (Z.of_nat (length targets)) in
  (shown = Success <-> targets <> [] /\ forall d, In d targets -> ok d = true)
  /\ (shown = Failure <-> forall d, In d targets -> ok d = false).
Proof.
  intros shown. subst shown. destruct targets as [|d targets].
  - simpl. split; split.
    + discriminate.
    + intros [H _]. congruence.
    + intros _ d [].
    + reflexivity.
  - replace (Z.of_nat (length (d :: targets)) =? 0) with false
      by (symmetry; apply Z.eqb_neq; simpl; lia).
    unfold countSuccesses. rewrite countSuccesses_from, Z.add_0_l.
    destruct (counts_by_target ok (d :: targets)) as [Hsuccess Hfailure];
      [discriminate|].
    split; [|exact Hfailure]. rewrite Hsuccess.
    split; [intros H; split; [discriminate|exact H]|tauto].
Qed.

(** X17. The room-wide commands are sent to the devices of the room that have
    the capability, and to no other: the outcome shown is a success
    exactly when there is such a device and the command succeeded on each
    of them, a failure exactly when it succeeded on none (in particular
    when no device has the capability), and partial otherwise. *)
Theorem room_batch_outcome_by_device (state : AppState)
    (ok : DeviceEntry -> bool) :
  let switchable := List.filter (fun d => truthy (supportsSwitch d)) (devices state) in
  let dimmable := List.filter (fun d => truthy (supportsDimmer d)) (devices state) in
  ((runAllDevicesInRoomSwitch state ok = Success
    <-> switchable <> [] /\ forall d, In d switchable -> ok d = true)
   /\ (runAllDevicesInRoomSwitch state ok = Failure
       <-> forall d, In d switchable -> ok d = false))
  /\ ((runAllDimmableDevicesSetLevel state ok = Success
       <-> dimmable <> [] /\ forall d, In d dimmable -> ok d = true)
      /\ (runAllDimmableDevicesSetLevel state ok = Failure
          <-> forall d, In d dimmable -> ok d = false)).
Proof.
  intros switchable dimmable. split.
  - apply (batch_by_target ok switchable).
  - apply (batch_by_target ok dimmable).
Qed.

(** X18. A scene runs only when there is a scene at the index and no execution
    is in progress.  The flag stored by [EXECUTE_END] follows the overall
    status alone: it is set exactly when that status is "success", and a
    rejected call stores a failure.  The confirmation shown follows the
    statuses of the actions when the response lists any: a success exactly
    when every action was accepted or completed, a failure exactly when
    none was; without them it follows the overall status. *)
Theorem scene_execution_outcome (localeCompare : jsstring -> jsstring -> Z)
    (state : AppState) (selectedIndex : Z)
    (execute : jsstring -> Outcome (option SceneResult)) :
  match runExecuteScene localeCompare state selectedIndex execute with
  | None =>
      getSceneByIndex localeCompare state selectedIndex = None
      \/ status state = StatusExecuting
  | Some (stored, shown) =>
      exists scene,
        getSceneByIndex localeCompare state selectedIndex = Some scene
        /\ status state <> StatusExecuting
        /\ match execute (sceneId scene) with
           | Throws => stored = false /\ shown = Failure
           | Returns result =>
               let overall := result ≫= result_status in
               (stored = true <-> overall = Some (js "success"))
               /\ match result ≫= result_results with
                  | Some ((_ :: _) as results) =>
                      (shown = Success
                       <-> forall r, In r results -> isAccepted r = true)
                      /\ (shown = Failure
                          <-> forall r, In r results -> isAccepted r = false)
                  | _ =>
                      (shown = Success <-> overall = Some (js "success"))
                      /\ (shown = Partial
                          <-> overall = Some (js "partial")
                              \/ overall = Some (js "completed_with_errors"))
                  end
           end
  end.
Proof.
  unfold runExecuteScene.
  destruct (getSceneByIndex localeCompare state selectedIndex) as [scene|];
    [|left; reflexivity].
  destruct (decide (status state = StatusExecuting)) as [|Hidle]; [right; assumption|].
  destruct (execute (sceneId scene)) as [result|] eqn:Hexecute;
    exists scene; (split; [reflexivity|]); (split; [exact Hidle|]);
    rewrite Hexecute; [|split; reflexivity].
  cbv zeta. split; [apply bool_decide_eq_true|].
  unfold sceneConfirmation.
  destruct (result ≫= result_results) as [[|r results]|].
  - destruct (decide (result ≫= result_status = Some (js "success"))) as [Hs|Hs].
    + rewrite bool_decide_eq_true_2 by exact Hs.
      split; [tauto|]. split; [discriminate|].
      rewrite Hs. intros [H|H]; discriminate.
    + rewrite (bool_decide_eq_false_2 _ Hs).
      destruct (bool_decide _ || bool_decide _) eqn:Hpartial.
      * split; [split; [discriminate|tauto]|]. split; [intros _|reflexivity].
        apply orb_prop in Hpartial.
        destruct Hpartial as [H|H]; apply bool_decide_eq_true in H; tauto.
      * split; [split; [discriminate|tauto]|]. split; [discriminate|].
        apply orb_false_elim in Hpartial. destruct Hpartial as [H1 H2].
        apply bool_decide_eq_false in H1, H2. tauto.
  - apply (counts_by_target isAccepted (r :: results)). discriminate.
  - destruct (decide (result ≫= result_status = Some (js "success"))) as [Hs|Hs].
    + rewrite bool_decide_eq_true_2 by exact Hs.
      split; [tauto|]. split; [discriminate|].
      rewrite Hs. intros [H|H]; discriminate.
    + rewrite (bool_decide_eq_false_2 _ Hs).
      destruct (bool_decide _ || bool_decide _) eqn:Hpartial.
      * split; [split; [discriminate|tauto]|]. split; [intros _|reflexivity].
        apply orb_prop in Hpartial.
        destruct Hpartial as [H|H]; apply bool_decide_eq_true in H; tauto.
      * split; [split; [discriminate|tauto]|]. split; [discriminate|].
        apply orb_false_elim in Hpartial. destruct Hpartial as [H1 H2].
        apply bool_decide_eq_false in H1, H2. tauto.
Qed.

(** ** The router acts on what exists *)

Lemma index_In {A} (l : list A) (i : Z) (x : A) : index l i = Some x -> In x l.
Proof.
  unfold index. destruct (i <? 0); [discriminate|]. apply nth_error_In.
Qed.

Lemma index_inside {A} (l : list A) (i : Z) :
  0 <= i < Z.of_nat (length l) -> exists x, index l i = Some x.
Proof.
  intros Hi. unfold index. destruct (Z.ltb_spec i 0); [lia|].
  destruct (nth_error l (Z.to_nat i)) as [x|] eqn:Hx; [exists x; reflexivity|].
  apply nth_error_None in Hx. lia.
Qed.

Lemma findIndex_bounds {A} (p : A -> bool) (l : list A) :
  -1 <= findIndex p l < Z.of_nat (length l).
Proof.
  induction l as [|x l IH]; simpl; [lia|].
  destruct (p x); [lia|]. destruct (Z.ltb_spec (findIndex p l) 0); lia.
Qed.

Lemma truthyId_Some (id : option jsstring) (d : jsstring) :
  truthyId id = Some d -> id = Some d /\ d <> [].
Proof.
  unfold truthyId. destruct id as [[|c s]|]; try discriminate.
  intros [= <-]. split; [reflexivity|discriminate].
Qed.

Lemma getDimLevel_In (state : AppState) (slot level : Z) :
  getDimLevelByStateAndIndex state slot = Some level -> In level DIM_LEVELS.
Proof.
  unfold getDimLevelByStateAndIndex.
  destruct (negb _); [discriminate|]. destruct (slot <=? 0); [discriminate|].
  cbv zeta. destruct (_ || _); [discriminate|]. apply index_In.
Qed.

Section Targets.

Variable localeCompare : jsstring -> jsstring -> Z.

Ltac plain_targets :=
  repeat (apply List.Forall_cons; [exact I|]); apply List.Forall_nil.

Lemma pageControl_targets (state : AppState) (backView : ListView)
    (listIndex : Z) (effects : list Effect) :
  pageControl localeCompare state backView listIndex = Some effects ->
  List.Forall (targetExists localeCompare state) effects.
Proof.
  unfold pageControl. destruct (listIndex =? 0).
  - intros [= <-]. destruct (listPageIndex state =? 0); plain_targets.
  - destruct (negb _ && _); [|discriminate]. intros [= <-]. plain_targets.
Qed.

Lemma singleTap_targets (state : AppState) (listIndex : Z) :
  List.Forall (targetExists localeCompare state)
    (singleTap localeCompare state listIndex).
Proof.
  unfold singleTap, dimBack.
  destruct (listView state);
    try (destruct (pageControl localeCompare state _ listIndex) eqn:Hcontrol;
         [exact (pageControl_targets _ _ _ _ Hcontrol)|]);
    cbv zeta; try apply List.Forall_nil.
  - (* scenes *)
    destruct (_ && _) eqn:Hrange; [|apply List.Forall_nil].
    apply andb_prop in Hrange. destruct Hrange as [Hlow Hhigh].
    apply Z.leb_le in Hlow. apply Z.ltb_lt in Hhigh.
    apply List.Forall_cons; [exact I|].
    apply List.Forall_cons; [|apply List.Forall_nil].
    apply index_inside. lia.
  - (* rooms *)
    destruct (getRoomByIndex localeCompare state _) as [room|] eqn:Hroom;
      [|apply List.Forall_nil].
    apply index_In in Hroom.
    repeat (apply List.Forall_cons; [first [exact I|exists room; tauto]|]).
    apply List.Forall_nil.
  - (* devices *)
    destruct (_ =? -1); [plain_targets|].
    destruct (0 <=? _); [|apply List.Forall_nil].
    destruct (getDeviceByIndex localeCompare state _) as [device|] eqn:Hdevice;
      [|apply List.Forall_nil].
    apply index_In in Hdevice.
    repeat (apply List.Forall_cons; [first [exact I|exists device; tauto]|]).
    apply List.Forall_nil.
  - (* device dim *)
    destruct (listIndex =? 0); [destruct (listPageIndex state =? 0); plain_targets|].
    destruct (truthyId (selectedDeviceId state)) as [id|] eqn:Hid;
      [|apply List.Forall_nil].
    destruct (getDimLevelByStateAndIndex state listIndex) as [level|] eqn:Hlevel;
      [|apply List.Forall_nil].
    apply List.Forall_cons; [|apply List.Forall_nil].
    split; [apply truthyId_Some; exact Hid|].
    eapply getDimLevel_In. exact Hlevel.
  - (* room controls *)
    destruct (listIndex =? 0); [plain_targets|].
    destruct (roomHasSwitchable state) eqn:Hswitch; simpl.
    + destruct (listIndex =? 1);
        [apply List.Forall_cons; [exact Hswitch|apply List.Forall_nil]|].
      destruct (listIndex =? 2);
        [apply List.Forall_cons; [exact Hswitch|apply List.Forall_nil]|].
      destruct (_ && _); [plain_targets|apply List.Forall_nil].
    + destruct (_ && _); [plain_targets|apply List.Forall_nil].
  - (* room dim *)
    destruct (listIndex =? 0); [destruct (listPageIndex state =? 0); plain_targets|].
    destruct (getDimLevelByStateAndIndex state listIndex) as [level|] eqn:Hlevel;
      [|apply List.Forall_nil].
    apply List.Forall_cons; [|apply List.Forall_nil].
    eapply getDimLevel_In. exact Hlevel.
  - (* favorites *)
    destruct (getFavoriteByIndex localeCompare state _) as [favorite|] eqn:Hfavorite;
      [|apply List.Forall_nil].
    apply index_In in Hfavorite.
    destruct (fav_type favorite) eqn:Hkind.
    + destruct (Z.leb_spec 0 (findIndex
                                (fun s => bool_decide (sceneId s = fav_id favorite))
                                (getOrderedScenes localeCompare state)))
        as [Hfound|_]; [|apply List.Forall_nil].
      apply List.Forall_cons; [exact I|].
      apply List.Forall_cons; [|apply List.Forall_nil].
      apply index_inside.
      pose proof (findIndex_bounds
                    (fun s => bool_decide (sceneId s = fav_id favorite))
                    (getOrderedScenes localeCompare state)). lia.
    + apply List.Forall_cons; [exists favorite; tauto|]. plain_targets.
Qed.

(** X19. Whatever slot and count are committed, the router acts on what the
    state holds: the scene it runs is at its index of the ordered scenes,
    the room or device it opens is in the ordered collection shown, the
    device it switches or dims is the selected one, a room-wide switch
    command is sent only in a room that has a switchable device, and a
    level it sets, on the selected device or on the room, is one of the
    eleven levels. *)
Theorem router_acts_on_what_exists (state : AppState) (listIndex tapCount : Z)
    (e : Effect) :
  In e (commitTap localeCompare state listIndex tapCount) ->
  targetExists localeCompare state e.
Proof.
  revert e. apply List.Forall_forall.
  unfold commitTap. cbv zeta.
  destruct (decide (listView state = ViewMain)).
  - destruct (tapCount =? 1); [|apply List.Forall_nil].
    destruct (index _ listIndex) as [view|]; [|apply List.Forall_nil].
    destruct (decide (view = ViewRooms)); plain_targets.
  - destruct (isPaginatedList (listView state)).
    + destruct (_ && negb _); [plain_targets|].
      destruct (_ && _ && _);
        [destruct (parentView (listView state)); plain_targets|].
      destruct (_ && negb _); [plain_targets|].
      destruct (tapCount =? 1); [apply singleTap_targets|apply List.Forall_nil].
    + destruct (decide (listView state = ViewDeviceDetail));
        [|apply List.Forall_nil].
      unfold backFromDetail.
      destruct (tapCount =? 2); [plain_targets|].
      destruct (tapCount =? 1); [|apply List.Forall_nil].
      destruct (listIndex =? 0); [plain_targets|].
      destruct (truthyId (selectedDeviceId state)) as [id|] eqn:Hid;
        [|apply List.Forall_nil].
      apply truthyId_Some in Hid.
      destruct (_ && _);
        [apply List.Forall_cons; [exact Hid|apply List.Forall_nil]|].
      destruct (_ && _);
        [apply List.Forall_cons; [exact Hid|apply List.Forall_nil]|].
      destruct (_ && _); [plain_targets|apply List.Forall_nil].
Qed.

End Targets.

Lemma router_acts_on_what_exists_witness :
  exists scene,
    getSceneByIndex codeUnitCompare Examples.stateScenes40 21 = Some scene.
Proof.
  apply (router_acts_on_what_exists codeUnitCompare Examples.stateScenes40 5 1
           (RunExecuteScene 21)).
  vm_compute. right. left. reflexivity.
Defined.

(** ** One-bit bitmaps *)

Lemma land_255 (n : Z) : Z.land n 255 = n mod 256.
Proof. change 255 with (Z.ones 8). rewrite Z.land_ones by lia. reflexivity. Qed.

Lemma land_255_range (n : Z) : 0 <= Z.land n 255 < 256.
Proof. rewrite land_255. apply Z.mod_pos_bound. lia. Qed.

Lemma le32_range (n : Z) : List.Forall (fun b => 0 <= b < 256) (le32 n).
Proof. unfold le32. repeat constructor; apply land_255_range. Qed.

(** The four bytes written for a number below [2^32] read back as it. *)
Lemma le32_value (n : Z) :
  0 <= n < 4294967296 ->
  match le32 n with
  | [b0; b1; b2; b3] => b0 + 256 * b1 + 65536 * b2 + 16777216 * b3 = n
  | _ => False
  end.
Proof.
  intros Hn. unfold le32. rewrite !land_255, !Z.shiftr_div_pow2 by lia.
  change (2 ^ 8) with 256. change (2 ^ 16) with 65536.
  change (2 ^ 24) with 16777216.
  pose proof (Z.div_mod n 256). pose proof (Z.mod_pos_bound n 256).
  pose proof (Z.div_mod (n / 256) 256). pose proof (Z.mod_pos_bound (n / 256) 256).
  pose proof (Z.div_mod (n / 65536) 256).
  pose proof (Z.mod_pos_bound (n / 65536) 256).
  assert (H16 : n / 65536 = n / 256 / 256)
    by (rewrite Z.div_div by lia; reflexivity).
  assert (H24 : n / 16777216 = n / 65536 / 256)
    by (rewrite Z.div_div by lia; reflexivity).
  assert (Hsmall : n / 16777216 mod 256 = n / 16777216).
  { apply Z.mod_small. split; [apply Z.div_pos; lia|].
    apply Z.div_lt_upper_bound; lia. }
  lia.
Qed.

(** Rows hold every pixel of a line and are padded to the next multiple of
    four bytes, and no further. *)
Lemma row_stride_bounds (width : Z) :
  let rowBytes := getBmpRowBytes width in
  let rowStride := getBmpRowStride width in
  rowStride mod 4 = 0
  /\ rowBytes <= rowStride < rowBytes + 4
  /\ width <= 8 * rowBytes < width + 8.
Proof.
  unfold getBmpRowBytes, getBmpRowStride. cbv zeta.
  pose proof (ceil_div_bounds width 8).
  pose proof (ceil_div_bounds (ceil_div width 8) 4).
  split; [apply Z.mod_mul; lia|lia].
Qed.

Lemma upto_length (n : Z) : length (upto n) = Z.to_nat n.
Proof. unfold upto. rewrite length_map, length_seq. reflexivity. Qed.

Lemma upto_index (n i : Z) : 0 <= i < n -> index (upto n) i = Some i.
Proof.
  intros Hi. unfold index, upto. destruct (Z.ltb_spec i 0); [lia|].
  rewrite nth_error_map, nth_error_seq.
  destruct (Nat.ltb_spec (Z.to_nat i) (Z.to_nat n)); [|lia].
  simpl. f_equal. lia.
Qed.

Lemma index_rev {A} (l : list A) (i : Z) :
  0 <= i < Z.of_nat (length l) ->
  index (rev l) i = index l (Z.of_nat (length l) - 1 - i).
Proof.
  intros Hi. unfold index.
  destruct (Z.ltb_spec i 0); [lia|].
  destruct (Z.ltb_spec (Z.of_nat (length l) - 1 - i) 0); [lia|].
  rewrite nth_error_rev.
  destruct (Nat.ltb_spec (Z.to_nat i) (length l)); [|lia]. f_equal. lia.
Qed.

Lemma index_app_right {A} (l1 l2 : list A) (k : Z) :
  0 <= k -> index (l1 ++ l2) (Z.of_nat (length l1) + k) = index l2 k.
Proof.
  intros Hk. unfold index.
  destruct (Z.ltb_spec (Z.of_nat (length l1) + k) 0); [lia|].
  destruct (Z.ltb_spec k 0); [lia|].
  rewrite nth_error_app2 by lia. f_equal. lia.
Qed.

(** In rows of one length, the entry at [r * rowLength + c] is the entry
    [c] of row [r]. *)
Lemma index_rows {A B} (f : A -> list B) (l : list A) (rowLength : Z)
    (r c : Z) (a : A) :
  (forall a, Z.of_nat (length (f a)) = rowLength) ->
  index l r = Some a -> 0 <= c < rowLength ->
  index (flat_map f l) (r * rowLength + c) = index (f a) c.
Proof.
  intros Hrow. revert r. induction l as [|a0 l IH]; intros r Ha Hc.
  - unfold index in Ha. destruct (r <? 0); [discriminate|].
    destruct (Z.to_nat r); discriminate.
  - assert (Hr : 0 <= r)
      by (unfold index in Ha; destruct (Z.ltb_spec r 0); [discriminate|lia]).
    destruct (Z.eq_dec r 0) as [->|Hpos].
    + injection Ha as ->. simpl.
      replace (0 * rowLength + c) with c by lia.
      unfold index. destruct (Z.ltb_spec c 0); [lia|].
      apply nth_error_app1. specialize (Hrow a). lia.
    + simpl.
      replace (r * rowLength + c)
        with (Z.of_nat (length (f a0)) + ((r - 1) * rowLength + c))
        by (rewrite Hrow; lia).
      rewrite index_app_right by nia.
      apply IH; [|exact Hc].
      unfold index in *. destruct (Z.ltb_spec r 0); [lia|].
      destruct (Z.ltb_spec (r - 1) 0); [lia|].
      replace (Z.to_nat r) with (S (Z.to_nat (r - 1))) in Ha by lia.
      exact Ha.
Qed.

Lemma flat_map_rows_length {A B} (f : A -> list B) (l : list A) (rowLength : Z) :
  (forall a, Z.of_nat (length (f a)) = rowLength) ->
  Z.of_nat (length (flat_map f l)) = rowLength * Z.of_nat (length l).
Proof.
  intros Hrow. induction l as [|a l IH]; simpl; [lia|].
  rewrite length_app. specialize (Hrow a). lia.
Qed.

Lemma lor_bit_range (byte bit : Z) :
  0 <= byte < 256 -> 0 <= bit < 8 -> 0 <= Z.lor byte (Z.shiftl 1 bit) < 256.
Proof.
  intros Hbyte Hbit.
  assert (Hshift : 0 < Z.shiftl 1 bit)
    by (rewrite Z.shiftl_1_l; apply Z.pow_pos_nonneg; lia).
  assert (Hnonneg : 0 <= Z.lor byte (Z.shiftl 1 bit))
    by (apply Z.lor_nonneg; lia).
  split; [exact Hnonneg|].
  assert (Hpos : 0 < Z.lor byte (Z.shiftl 1 bit)).
  { destruct (Z.eq_dec (Z.lor byte (Z.shiftl 1 bit)) 0) as [Hzero|]; [|lia].
    apply Z.lor_eq_0_iff in Hzero. lia. }
  change 256 with (2 ^ 8). apply Z.log2_lt_pow2; [exact Hpos|].
  rewrite Z.log2_lor by lia.
  rewrite Z.shiftl_1_l, Z.log2_pow2 by lia.
  destruct (Z.eq_dec byte 0) as [->|Hbyte0]; [simpl; lia|].
  assert (Z.log2 byte < 8) by (apply Z.log2_lt_pow2; lia). lia.
Qed.

(** Setting bits one after the other: the byte stays a byte, and a bit is
    set when it was, or when its turn came and the test held. *)
Lemma set_bits_spec (step : Z -> Z -> Z) (test : Z -> bool) (bits : list Z) :
  (forall byte bit,
      step byte bit = if test bit then Z.lor byte (Z.shiftl 1 bit) else byte) ->
  List.Forall (fun bit => 0 <= bit < 8) bits ->
  forall byte, 0 <= byte < 256 ->
    0 <= fold_left step bits byte < 256
    /\ forall b, 0 <= b ->
         Z.testbit (fold_left step bits byte) b
         = Z.testbit byte b || existsb (fun bit => (bit =? b) && test bit) bits.
Proof.
  intros Hstep. induction 1 as [|bit bits Hbit Hbits IH]; intros byte Hbyte.
  - simpl. split; [exact Hbyte|]. intros b _. rewrite orb_false_r. reflexivity.
  - simpl. rewrite Hstep.
    assert (Hnext : 0 <= (if test bit then Z.lor byte (Z.shiftl 1 bit) else byte)
                    < 256).
    { destruct (test bit); [apply lor_bit_range; assumption|exact Hbyte]. }
    destruct (IH _ Hnext) as [Hrange Hbitwise].
    split; [exact Hrange|]. intros b Hb. rewrite (Hbitwise b Hb).
    destruct (test bit).
    + rewrite Z.lor_spec, Z.shiftl_spec by lia.
      destruct (Z.eqb_spec bit b) as [->|Hne].
      * rewrite Z.sub_diag. simpl. rewrite !orb_true_r. reflexivity.
      * simpl. rewrite <- orb_assoc. f_equal.
        replace (Z.testbit 1 (b - bit)) with false; [reflexivity|].
        symmetry. destruct (Z.ltb_spec (b - bit) 0).
        -- apply Z.testbit_neg_r. lia.
        -- apply Z.bits_above_log2; simpl; lia.
    + rewrite andb_false_r. reflexivity.
Qed.

Lemma bmpByte_spec (data : list Z) (width y col : Z) :
  0 <= bmpByte data width y col < 256
  /\ forall bit, 0 <= bit < 8 ->
       Z.testbit (bmpByte data width y col) bit
       = (col * 8 + (7 - bit) <? width)
         && (128 <=? default 0 (index data (y * width + (col * 8 + (7 - bit))))).
Proof.
  unfold bmpByte.
  destruct (set_bits_spec
              (fun byte bit =>
                 let x := col * 8 + (7 - bit) in
                 if x <? width then
                   let g := default 0 (index data (y * width + x)) in
                   if 128 <=? g then Z.lor byte (Z.shiftl 1 bit) else byte
                 else byte)
              (fun bit =>
                 (col * 8 + (7 - bit) <? width)
                 && (128 <=? default 0
                               (index data (y * width + (col * 8 + (7 - bit))))))
              [0; 1; 2; 3; 4; 5; 6; 7]) with (byte := 0) as [Hrange Hbits].
  - intros byte bit. cbv zeta.
    destruct (col * 8 + (7 - bit) <? width); [|reflexivity].
    destruct (128 <=? _); reflexivity.
  - repeat constructor; lia.
  - lia.
  - split; [exact Hrange|]. intros bit Hbit.
    rewrite Hbits by lia. rewrite Z.testbit_0_l. cbn [orb existsb].
    assert (Hcases : bit = 0 \/ bit = 1 \/ bit = 2 \/ bit = 3 \/ bit = 4
                     \/ bit = 5 \/ bit = 6 \/ bit = 7) by lia.
    destruct Hcases as [->|[->|[->|[->|[->|[->|[->| ->]]]]]]];
      cbn [Z.eqb Pos.eqb andb orb]; rewrite ?orb_false_r; reflexivity.
Qed.

Lemma bmpRows_length (data : list Z) (width height : Z) :
  0 <= width -> 0 <= height ->
  Z.of_nat (length (bmpRows data width height))
  = getBmpRowStride width * height.
Proof.
  intros Hwidth Hheight. unfold bmpRows.
  destruct (row_stride_bounds width) as (_ & Hstride & Hbytes). cbv zeta in *.
  rewrite (flat_map_rows_length _ _ (getBmpRowStride width)).
  - rewrite length_rev, upto_length, Z2Nat.id by lia. reflexivity.
  - intros y. rewrite length_map, upto_length. lia.
Qed.

Lemma bmpHeader_range (width height : Z) :
  List.Forall (fun b => 0 <= b < 256) (bmpHeader width height).
Proof.
  unfold bmpHeader. cbv zeta.
  repeat first [ apply List.Forall_app; split
               | apply le32_range
               | apply List.Forall_cons; [unfold BMP_HEADER_SIZE,
                   BMP_FILE_HEADER_SIZE, BMP_DIB_HEADER_SIZE,
                   BMP_COLOR_TABLE_SIZE; lia|]
               | apply List.Forall_nil ].
Qed.

Lemma bmpRows_range (data : list Z) (width height : Z) :
  List.Forall (fun b => 0 <= b < 256) (bmpRows data width height).
Proof.
  unfold bmpRows. apply List.Forall_flat_map.
  apply List.Forall_forall. intros y _.
  apply List.Forall_forall. intros b Hb.
  apply in_map_iff in Hb. destruct Hb as (col & <- & _).
  apply bmpByte_spec.
Qed.

Lemma grayToBmp_written (data : list Z) (width height : Z) :
  0 <= width -> 0 <= height ->
  getBmpFileSize width height <= 4294967295 ->
  let bytes := bmpHeader width height ++ bmpRows data width height in
  grayToBmp data width height = Returns (map Some bytes)
  /\ Z.of_nat (length bytes) = getBmpFileSize width height
  /\ 0 <= getBmpRowStride width * height.
Proof.
  intros Hwidth Hheight Hsize bytes.
  destruct (row_stride_bounds width) as (_ & Hstride & Hbytes). cbv zeta in *.
  assert (Hpixels : 0 <= getBmpRowStride width * height) by nia.
  assert (Hlength : Z.of_nat (length bytes) = getBmpFileSize width height).
  { subst bytes. rewrite length_app, Nat2Z.inj_add, bmpRows_length by lia.
    reflexivity. }
  split; [|split; [exact Hlength|exact Hpixels]].
  unfold grayToBmp. cbv zeta. fold bytes.
  unfold getBmpFileSize, getBmpPixelDataSize in *.
  destruct (Z.ltb_spec (BMP_HEADER_SIZE + getBmpRowStride width * height) 0);
    [unfold BMP_HEADER_SIZE, BMP_FILE_HEADER_SIZE, BMP_DIB_HEADER_SIZE,
       BMP_COLOR_TABLE_SIZE in *; lia|].
  destruct (Z.ltb_spec 4294967295 (BMP_HEADER_SIZE + getBmpRowStride width * height));
    [lia|].
  cbn [orb]. rewrite Hlength, Z.sub_diag. simpl. rewrite app_nil_r. reflexivity.
Qed.

Ltac read_field :=
  unfold readLe32; rewrite slice_inside by lia;
  unfold bmpHeader, le32; cbv zeta;
  match goal with
  | |- context [Z.to_nat ?n] =>
      let k := eval vm_compute in (Z.to_nat n) in
      change (Z.to_nat n) with k
  end;
  match goal with
  | |- context [Z.to_nat ?n] =>
      let k := eval vm_compute in (Z.to_nat n) in
      change (Z.to_nat n) with k
  end;
  cbn [app skipn firstn]; f_equal.

(** X20. For a width and a height below [2^32] whose file fits an array,
    [grayToBmp] returns a bitmap file without holes: as many bytes as the
    header announces, each between 0 and 255; the signature "BM"; and the
    file size, the offset of the pixels, the width, the height and the
    size of the pixel data where a reader of the format looks for them.
    Rows are padded to a multiple of four bytes. *)
Theorem gray_to_bmp_is_a_bitmap_file (data : list Z) (width height : Z) :
  0 <= width < 4294967296 -> 0 <= height < 4294967296 ->
  getBmpFileSize width height <= 4294967295 ->
  exists bytes,
    grayToBmp data width height = Returns (map Some bytes)
    /\ Z.of_nat (length bytes) = getBmpFileSize width height
    /\ List.Forall (fun b => 0 <= b < 256) bytes
    /\ slice bytes 0 2 = [66; 77]
    /\ readLe32 bytes 2 = Some (getBmpFileSize width height)
    /\ readLe32 bytes 10 = Some BMP_HEADER_SIZE
    /\ readLe32 bytes 18 = Some width
    /\ readLe32 bytes 22 = Some height
    /\ readLe32 bytes 34 = Some (getBmpPixelDataSize width height)
    /\ getBmpRowStride width mod 4 = 0
    /\ width <= 8 * getBmpRowStride width.
Proof.
  intros Hwidth Hheight Hsize.
  destruct (grayToBmp_written data width height) as (Hreturned & Hlength & Hpixels);
    [lia|lia|exact Hsize|].
  cbv zeta in *.
  set (rows := bmpRows data width height) in *.
  exists (bmpHeader width height ++ rows).
  assert (Hheader : 62 <= Z.of_nat (length (bmpHeader width height ++ rows))).
  { rewrite length_app. change (length (bmpHeader width height)) with 62%nat. lia. }
  destruct (row_stride_bounds width) as (Hmod & Hstride & Hbytes). cbv zeta in *.
  unfold getBmpFileSize, getBmpPixelDataSize in *.
  assert (Hheader_size : BMP_HEADER_SIZE = 62) by reflexivity.
  assert (Hrange : List.Forall (fun b => 0 <= b < 256)
                     (bmpHeader width height ++ rows))
    by (apply List.Forall_app; split; [apply bmpHeader_range|apply bmpRows_range]).
  assert (Hsignature : slice (bmpHeader width height ++ rows) 0 2 = [66; 77])
    by (rewrite slice_inside by lia; reflexivity).
  assert (Hfile : readLe32 (bmpHeader width height ++ rows) 2
                  = Some (BMP_HEADER_SIZE + getBmpRowStride width * height)).
  { read_field.
    apply (le32_value (BMP_HEADER_SIZE + getBmpRowStride width * height)). lia. }
  assert (Hoffset : readLe32 (bmpHeader width height ++ rows) 10
                    = Some BMP_HEADER_SIZE)
    by (read_field; lia).
  assert (Hw : readLe32 (bmpHeader width height ++ rows) 18 = Some width)
    by (read_field; apply (le32_value width); lia).
  assert (Hh : readLe32 (bmpHeader width height ++ rows) 22 = Some height)
    by (read_field; apply (le32_value height); lia).
  assert (Hdata : readLe32 (bmpHeader width height ++ rows) 34
                  = Some (getBmpRowStride width * height)).
  { read_field. apply (le32_value (getBmpRowStride width * height)). lia. }
  assert (Hfits : width <= 8 * getBmpRowStride width) by lia.
  exact (conj Hreturned (conj Hlength (conj Hrange (conj Hsignature
          (conj Hfile (conj Hoffset (conj Hw (conj Hh (conj Hdata
          (conj Hmod Hfits)))))))))).
Qed.

Lemma gray_to_bmp_is_a_bitmap_file_witness :
  exists bytes,
    grayToBmp [255; 0; 255] 3 1 = Returns (map Some bytes)
    /\ Z.of_nat (length bytes) = getBmpFileSize 3 1
    /\ List.Forall (fun b => 0 <= b < 256) bytes
    /\ slice bytes 0 2 = [66; 77]
    /\ readLe32 bytes 2 = Some (getBmpFileSize 3 1)
    /\ readLe32 bytes 10 = Some BMP_HEADER_SIZE
    /\ readLe32 bytes 18 = Some 3
    /\ readLe32 bytes 22 = Some 1
    /\ readLe32 bytes 34 = Some (getBmpPixelDataSize 3 1)
    /\ getBmpRowStride 3 mod 4 = 0
    /\ 3 <= 8 * getBmpRowStride 3.
Proof.
  apply (gray_to_bmp_is_a_bitmap_file [255; 0; 255] 3 1).
  - lia.
  - lia.
  - vm_compute. discriminate.
Defined.

(** The byte of column [col] of the line [y] of the image. *)
Lemma bmp_byte_position (data : list Z) (width height y col : Z) :
  0 <= width -> 0 <= y < height -> 0 <= col < getBmpRowStride width ->
  index (bmpHeader width height ++ bmpRows data width height)
        (BMP_HEADER_SIZE + (height - 1 - y) * getBmpRowStride width + col)
  = Some (bmpByte data width y col).
Proof.
  intros Hwidth Hy Hcol.
  replace (BMP_HEADER_SIZE + (height - 1 - y) * getBmpRowStride width + col)
    with (Z.of_nat (length (bmpHeader width height))
          + ((height - 1 - y) * getBmpRowStride width + col))
    by (change (Z.of_nat (length (bmpHeader width height))) with 62;
        change BMP_HEADER_SIZE with 62; lia).
  rewrite index_app_right by nia.
  unfold bmpRows.
  rewrite (index_rows _ _ (getBmpRowStride width) _ _ y).
  - rewrite index_map, upto_index by lia. reflexivity.
  - intros y'. rewrite length_map, upto_length. lia.
  - rewrite index_rev by (rewrite upto_length; lia).
    rewrite upto_length, Z2Nat.id by lia.
    replace (height - 1 - (height - 1 - y)) with y by lia.
    apply upto_index. lia.
  - exact Hcol.
Qed.

(** X21. The pixels read back.  In the file that [grayToBmp] returns, the
    lines come last line first; the pixel at column [x] of line [y] is the
    bit [7 - x mod 8] of the byte [x / 8] of its row, set exactly when the
    gray level is 128 or more (a level missing from the data counts as 0);
    and the bits of a row past the width of the image are zero. *)
Theorem bitmap_pixels_read_back (data : list Z) (width height y : Z) :
  0 <= width -> 0 <= y < height ->
  getBmpFileSize width height <= 4294967295 ->
  exists bytes,
    grayToBmp data width height = Returns (map Some bytes)
    /\ (forall x, 0 <= x < width ->
          exists byte,
            index bytes (BMP_HEADER_SIZE
                         + (height - 1 - y) * getBmpRowStride width + x / 8)
            = Some byte
            /\ Z.testbit byte (7 - x mod 8)
               = (128 <=? default 0 (index data (y * width + x))))
    /\ (forall col bit,
          0 <= col < getBmpRowStride width -> 0 <= bit < 8 ->
          width <= col * 8 + (7 - bit) ->
          exists byte,
            index bytes (BMP_HEADER_SIZE
                         + (height - 1 - y) * getBmpRowStride width + col)
            = Some byte
            /\ Z.testbit byte bit = false).
Proof.
  intros Hwidth Hy Hsize.
  destruct (grayToBmp_written data width height) as (Hreturned & _ & _);
    [lia|lia|exact Hsize|].
  cbv zeta in Hreturned.
  exists (bmpHeader width height ++ bmpRows data width height).
  destruct (row_stride_bounds width) as (_ & Hstride & Hbytes). cbv zeta in *.
  split; [exact Hreturned|]. split.
  - intros x Hx. exists (bmpByte data width y (x / 8)).
    pose proof (Z.div_mod x 8) as Hdm. pose proof (Z.mod_pos_bound x 8) as Hmod.
    split.
    + apply bmp_byte_position; lia.
    + destruct (bmpByte_spec data width y (x / 8)) as [_ Hbits].
      rewrite Hbits by lia.
      replace (x / 8 * 8 + (7 - (7 - x mod 8))) with x by lia.
      destruct (Z.ltb_spec x width); [reflexivity|lia].
  - intros col bit Hcol Hbit Hpast. exists (bmpByte data width y col).
    split; [apply bmp_byte_position; lia|].
    destruct (bmpByte_spec data width y col) as [_ Hbits].
    rewrite Hbits by lia.
    destruct (Z.ltb_spec (col * 8 + (7 - bit)) width); [lia|reflexivity].
Qed.

Lemma bitmap_pixels_read_back_witness :
  exists bytes,
    grayToBmp [255; 0; 255] 3 1 = Returns (map Some bytes)
    /\ (forall x, 0 <= x < 3 ->
          exists byte,
            index bytes (BMP_HEADER_SIZE + (1 - 1 - 0) * getBmpRowStride 3 + x / 8)
            = Some byte
            /\ Z.testbit byte (7 - x mod 8)
               = (128 <=? default 0 (index [255; 0; 255] (0 * 3 + x))))
    /\ (forall col bit,
          0 <= col < getBmpRowStride 3 -> 0 <= bit < 8 ->
          3 <= col * 8 + (7 - bit) ->
          exists byte,
            index bytes (BMP_HEADER_SIZE + (1 - 1 - 0) * getBmpRowStride 3 + col)
            = Some byte
            /\ Z.testbit byte bit = false).
Proof.
  apply (bitmap_pixels_read_back [255; 0; 255] 3 1 0).
  - lia.
  - lia.
  - vm_compute. discriminate.
Defined.

(** ** Favorites *)

Lemma findIndex_found {A} (p : A -> bool) (l : list A) :
  0 <= findIndex p l ->
  exists x, index l (findIndex p l) = Some x /\ p x = true.
Proof.
  induction l as [|a l IH]; simpl; [lia|].
  destruct (p a) eqn:Hpa; [intros _; exists a; split; [reflexivity|exact Hpa]|].
  destruct (Z.ltb_spec (findIndex p l) 0) as [|Hfound]; [lia|]. intros _.
  destruct (IH Hfound) as (x & Hx & Hpx). exists x. split; [|exact Hpx].
  unfold index in *. destruct (Z.ltb_spec (findIndex p l) 0); [lia|].
  destruct (Z.ltb_spec (1 + findIndex p l) 0); [lia|].
  replace (Z.to_nat (1 + findIndex p l)) with (S (Z.to_nat (findIndex p l))) by lia.
  exact Hx.
Qed.

Ltac plain_effects :=
  repeat (apply List.Forall_cons; [exact I|]); apply List.Forall_nil.

Section Favorites.

Variable localeCompare : jsstring -> jsstring -> Z.

Lemma favoriteItem_key (state : AppState) (a : FavoriteKind * jsstring) :
  (fav_type (favoriteItem state a),
   fav_id (favoriteItem state a)) = a.
Proof. destruct a as [[|] id]; reflexivity. Qed.

Lemma ordered_favorites_keys (state : AppState) :
  Permutation
    (map (fun f => (fav_type f, fav_id f)) (getOrderedFavorites localeCompare state))
    (favoritesIds (preferences state))
  /\ (order_favorites (listOrder (preferences state)) = Custom ->
      map (fun f => (fav_type f, fav_id f)) (getOrderedFavorites localeCompare state)
      = favoritesIds (preferences state)).
Proof.
  unfold getOrderedFavorites. rewrite map_map.
  assert (Hid : forall l : list (FavoriteKind * jsstring),
             map (fun a => (fav_type (favoriteItem state a),
                            fav_id (favoriteItem state a))) l = l).
  { intros l. rewrite <- (map_id l) at 2. apply map_ext. intros a.
    apply favoriteItem_key. }
  rewrite Hid. split.
  - destruct (order_favorites (listOrder (preferences state)));
      [apply array_sort_Permutation|apply array_sort_Permutation|reflexivity].
  - intros ->. reflexivity.
Qed.

(** X22. Every favorite is listed, whether or not its scene or device is still
    known: the favorites shown are the saved ones, each once, in the saved
    order under the custom preference.  A tap that runs a scene from the
    favorites runs the scene whose identifier is that of a favorite of
    kind scene, and a tap that opens a device opens a saved favorite of
    kind device. *)
Theorem favorites_lead_to_their_entities (state : AppState)
    (listIndex tapCount : Z) (e : Effect) :
  listView state = ViewFavorites ->
  In e (commitTap localeCompare state listIndex tapCount) ->
  let shown := getOrderedFavorites localeCompare state in
  let saved := favoritesIds (preferences state) in
  Permutation (map (fun f => (fav_type f, fav_id f)) shown) saved
  /\ (order_favorites (listOrder (preferences state)) = Custom ->
      map (fun f => (fav_type f, fav_id f)) shown = saved)
  /\ match e with
     | RunExecuteScene sceneIndex =>
         exists id scene,
           In (FavScene, id) saved
           /\ getSceneByIndex localeCompare state sceneIndex = Some scene
           /\ sceneId scene = id
     | Dispatch (NAV_FAVORITE_DEVICE id) => In (FavDevice, id) saved
     | _ => True
     end.
Proof.
  intros Hview He shown saved.
  destruct (ordered_favorites_keys state) as [Hperm Hcustom].
  split; [exact Hperm|]. split; [exact Hcustom|].
  assert (Hsaved : forall f, In f shown -> In (fav_type f, fav_id f) saved).
  { intros f Hf. apply (Permutation_in _ Hperm).
    apply (in_map (fun f => (fav_type f, fav_id f))). exact Hf. }
  revert e He. apply List.Forall_forall.
  unfold commitTap. cbv zeta. rewrite Hview.
  destruct (decide (ViewFavorites = ViewMain)); [discriminate|].
  cbn [isPaginatedList backOnAnySlot parentView].
  destruct (_ && negb _); [plain_effects|].
  destruct (_ && _ && _); [plain_effects|].
  destruct (_ && negb _); [plain_effects|].
  destruct (tapCount =? 1); [|apply List.Forall_nil].
  unfold singleTap. rewrite Hview.
  destruct (pageControl localeCompare state ViewMain listIndex) as [effects|]
    eqn:Hcontrol.
  { unfold pageControl in Hcontrol. destruct (listIndex =? 0).
    - injection Hcontrol as <-. destruct (listPageIndex state =? 0); plain_effects.
    - destruct (negb _ && _); [|discriminate]. injection Hcontrol as <-.
      plain_effects. }
  cbv zeta.
  destruct (getFavoriteByIndex localeCompare state _) as [favorite|] eqn:Hfavorite;
    [|apply List.Forall_nil].
  apply index_In in Hfavorite. apply Hsaved in Hfavorite.
  destruct (fav_type favorite) eqn:Hkind.
  - destruct (Z.leb_spec 0 (findIndex
                              (fun s => bool_decide (sceneId s = fav_id favorite))
                              (getOrderedScenes localeCompare state)))
      as [Hfound|_]; [|apply List.Forall_nil].
    apply List.Forall_cons; [exact I|].
    apply List.Forall_cons; [|apply List.Forall_nil].
    destruct (findIndex_found _ _ Hfound) as (scene & Hscene & Hid).
    apply bool_decide_eq_true_1 in Hid.
    exists (fav_id favorite), scene. repeat split; assumption.
  - apply List.Forall_cons; [exact Hfavorite|]. plain_effects.
Qed.

End Favorites.

Lemma favorites_lead_to_their_entities_witness :
  exists id scene,
    In (FavScene, id) (favoritesIds (preferences favoritesState))
    /\ getSceneByIndex codeUnitCompare favoritesState 0 = Some scene
    /\ sceneId scene = id.
Proof.
  assert (Htap : In (RunExecuteScene 0)
                    (commitTap codeUnitCompare favoritesState 1 1))
    by (vm_compute; right; left; reflexivity).
  exact (proj2 (proj2 (favorites_lead_to_their_entities codeUnitCompare
                         favoritesState 1 1 (RunExecuteScene 0) eq_refl Htap))).
Defined.

(** ** Back returns to where the tap came from *)

Section BackNavigation.

Variable localeCompare : jsstring -> jsstring -> Z.

(** The effects of a forward tap: a navigation among them is undone by
    Back. *)
Local Abbreviation undone state :=
  (List.Forall (fun e => match e with
                         | Dispatch a =>
                             isNavigation a = true ->
                             backReturns localeCompare state a
                         | _ => True
                         end)) (only parsing).

Ltac undone_leaf :=
  repeat (apply List.Forall_cons;
          [first [exact I | intros _; reflexivity | discriminate]|]);
  apply List.Forall_nil.

Lemma forward_tap_undone (state : AppState) (listIndex : Z) :
  (listView state = ViewDevices -> selectedRoomId state <> None) ->
  listView state = ViewMain \/ listIndex <> 0 ->
  undone state (commitTap localeCompare state listIndex 1).
Proof.
  intros Hroom Hforward. unfold commitTap. cbv zeta.
  change (1 =? 2) with false. change (3 <=? 1) with false.
  change (1 =? 1) with true. cbn [andb].
  destruct (decide (listView state = ViewMain)) as [Hmain|Hmain].
  - unfold getMainMenuOrderedViews. rewrite index_map.
    destruct (index (getMainMenuOrderedItems localeCompare state) listIndex)
      as [[| |]|]; simpl; unfold backReturns; rewrite Hmain; undone_leaf.
  - destruct Hforward as [|Hslot]; [contradiction|].
    apply Z.eqb_neq in Hslot.
    destruct (listView state) eqn:Hview; try contradiction;
      cbn [isPaginatedList]; unfold singleTap, pageControl, backReturns;
      rewrite ?Hview, ?Hslot; cbv zeta.
    + (* scenes *)
      destruct (negb _ && _); [undone_leaf|].
      destruct (_ && _); undone_leaf.
    + (* rooms *)
      destruct (negb _ && _); [undone_leaf|].
      destruct (getRoomByIndex localeCompare state _); undone_leaf.
    + (* devices *)
      destruct (negb _ && _); [undone_leaf|].
      destruct (_ =? -1); [undone_leaf|].
      destruct (0 <=? _); [|undone_leaf].
      destruct (getDeviceByIndex localeCompare state _); [|undone_leaf].
      destruct (selectedRoomId state) as [room|] eqn:Hselected;
        [|exfalso; apply Hroom; reflexivity].
      repeat (apply List.Forall_cons;
              [first [exact I
                     | intros _; unfold backFromDetail; simpl;
                       rewrite Hselected; reflexivity]|]).
      apply List.Forall_nil.
    + (* device controls *)
      destruct (decide (ViewDeviceDetail = ViewDeviceDetail)); [|congruence].
      destruct (truthyId (selectedDeviceId state)); [|undone_leaf].
      destruct (_ && _); [undone_leaf|].
      destruct (_ && _); [undone_leaf|].
      destruct (_ && _); undone_leaf.
    + (* device dim *)
      destruct (truthyId (selectedDeviceId state)); [|undone_leaf].
      destruct (getDimLevelByStateAndIndex _ _); undone_leaf.
    + (* room controls *)
      destruct (_ && _); [undone_leaf|].
      destruct (_ && _); [undone_leaf|].
      destruct (_ && _); undone_leaf.
    + (* room dim *)
      destruct (getDimLevelByStateAndIndex _ _); undone_leaf.
    + (* favorites *)
      destruct (negb _ && _); [undone_leaf|].
      destruct (getFavoriteByIndex localeCompare state _) as [favorite|];
        [|undone_leaf].
      destruct (fav_type favorite); [destruct (0 <=? _)|]; undone_leaf.
Qed.

(** X23. Every navigation that a single tap starts from a slot other than Back
    (from any slot of the main menu) is undone by Back: on the view it
    opens, a single tap on slot 0 shows the view the tap came from.  The
    devices view is assumed to have been opened for a room, as the router
    opens it. *)
Theorem back_undoes_forward_navigation (state : AppState) (listIndex : Z)
    (a : Action) :
  (listView state = ViewDevices -> selectedRoomId state <> None) ->
  listView state = ViewMain \/ listIndex <> 0 ->
  In (Dispatch a) (commitTap localeCompare state listIndex 1) ->
  isNavigation a = true ->
  backReturns localeCompare state a.
Proof.
  intros Hroom Hforward Hin.
  pose proof (forward_tap_undone state listIndex Hroom Hforward) as Hall.
  rewrite List.Forall_forall in Hall. exact (Hall (Dispatch a) Hin).
Qed.

End BackNavigation.

Lemma back_undoes_forward_navigation_witness :
  backReturns codeUnitCompare favoritesState
    (NAV_FAVORITE_DEVICE (deviceId (Examples.device 1))).
Proof.
  apply (back_undoes_forward_navigation codeUnitCompare favoritesState 2).
  - discriminate.
  - right. discriminate.
  - vm_compute. left. reflexivity.
  - reflexivity.
Defined.

(** ** The double tap of the glasses *)

Section DoubleTap.

Variables CLICK_EVENT SCROLL_TOP_EVENT SCROLL_BOTTOM_EVENT DOUBLE_CLICK_EVENT : Z.
Variable fromJson : Z -> Outcome (option Z).
Variable cfg : GestureConfig.

Local Abbreviation callback :=
  (onEvent CLICK_EVENT SCROLL_TOP_EVENT SCROLL_BOTTOM_EVENT DOUBLE_CLICK_EVENT
     fromJson cfg) (only parsing).

Local Abbreviation mapper :=
  (mapEvenHubEvent CLICK_EVENT SCROLL_TOP_EVENT SCROLL_BOTTOM_EVENT
     DOUBLE_CLICK_EVENT fromJson) (only parsing).

(** After every event that the mapper takes for a tap, the item focused in
    the store is the position the session holds. *)
Lemma focus_follows_taps (s : AppState * GestureSession)
    (event : option EvenHubEvent) (now listIndex : Z) (gestureTaps : option Z) :
  mapper event (Some (fst s)) = Some (TAP listIndex gestureTaps) ->
  focusedListIndex (fst (callback s event now)) = listIndex
  /\ lastTapIndex (snd (callback s event now)) = listIndex.
Proof.
  intros Hmapped. unfold onEvent. rewrite Hmapped. simpl. split; [reflexivity|].
  unfold handleTap. cbn [lastTapIndex].
  destruct ((listIndex =? lastTapIndex (snd s)) && _) eqn:Hsame; [|reflexivity].
  apply andb_prop in Hsame. destruct Hsame as [Hi _].
  apply Z.eqb_eq in Hi. congruence.
Qed.

(** X24. The glasses report a double tap without a position, as a system event;
    the mapper gives it the item focused in the store.  When that is the
    position the session holds, as after every tap, and the double tap
    comes within the tap window, it joins the gesture in progress: the
    position stays, the count grows by two (capped at 4) and the commit is
    scheduled anew.  A single tap followed by a double tap thus commits
    with count 3. *)
Theorem system_double_tap_joins_the_gesture (s : AppState * GestureSession)
    (event : EvenHubEvent) (se : SysEvent) (now : Z) :
  sysEvent event = Some se -> sys_eventType se = Some 3 ->
  focusedListIndex (fst s) = lastTapIndex (snd s) ->
  now - lastTapTime (snd s) <= TAP_WINDOW_MS cfg ->
  let s' := callback s (Some event) now in
  focusedListIndex (fst s') = lastTapIndex (snd s)
  /\ lastTapIndex (snd s') = lastTapIndex (snd s)
  /\ tapCount (snd s') = Z.min (tapCount (snd s) + 2) 4
  /\ commitTimeoutId (snd s') = Some (now + TAP_COMMIT_MS cfg).
Proof.
  intros Hsys Hdouble Hfocus Hclose s'. subst s'.
  unfold onEvent, mapEvenHubEvent. rewrite Hsys. cbv zeta.
  rewrite bool_decide_eq_true_2 by exact Hdouble. cbn [fmap option_fmap option_map default].
  simpl. rewrite Hfocus, Z.eqb_refl.
  destruct (Z.leb_spec (now - lastTapTime (snd s)) (TAP_WINDOW_MS cfg)); [|lia].
  simpl. repeat split.
Qed.

End DoubleTap.

Lemma system_double_tap_joins_the_gesture_witness :
  let cfg := gestureConfig true in
  let tapped :=
    (reduce Examples.stateScenes40 (TAP 5 (Some 1)),
     handleTap cfg initialSession 5 1 100) in
  tapCount
    (snd (onEvent EvenHubSdk.CLICK_EVENT EvenHubSdk.SCROLL_TOP_EVENT
            EvenHubSdk.SCROLL_BOTTOM_EVENT EvenHubSdk.DOUBLE_CLICK_EVENT
            EvenHubSdk.fromJson cfg tapped
            (Some {| sysEvent := Some {| sys_eventType := Some 3 |};
                     listEvent := None |}) 500))
  = Z.min (tapCount (snd tapped) + 2) 4.
Proof.
  apply (system_double_tap_joins_the_gesture
           EvenHubSdk.CLICK_EVENT EvenHubSdk.SCROLL_TOP_EVENT
           EvenHubSdk.SCROLL_BOTTOM_EVENT EvenHubSdk.DOUBLE_CLICK_EVENT
           EvenHubSdk.fromJson (gestureConfig true)
           (reduce Examples.stateScenes40 (TAP 5 (Some 1)),
            handleTap (gestureConfig true) initialSession 5 1 100)
           {| sysEvent := Some {| sys_eventType := Some 3 |}; listEvent := None |}
           {| sys_eventType := Some 3 |} 500).
  - reflexivity.
  - reflexivity.
  - reflexivity.
  - simpl. lia.
Defined.

(** ** The device list of the settings page *)

Section SettingsOrder.

Context {V : Type}.
Implicit Types (m : list (jsstring * V)) (k : jsstring) (v : V).

Lemma set_In k v m (e : jsstring * V) :
  In e (JsMap.set k v m) -> e = (k, v) \/ In e m.
Proof.
  induction m as [|[k' v'] m IH]; simpl.
  - intros [<-|[]]. left. reflexivity.
  - destruct (decide (k = k')); simpl; intros [<-|He]; auto.
    destruct (IH He); auto.
Qed.

Lemma of_entries_In (l : list (jsstring * V)) (e : jsstring * V) :
  In e (JsMap.of_entries l) -> In e l.
Proof.
  unfold JsMap.of_entries.
  assert (Hfold : forall acc,
             In e (fold_left (fun m kv => JsMap.set (fst kv) (snd kv) m) l acc) ->
             In e acc \/ In e l).
  { induction l as [|[k v] l IH]; intros acc; simpl; [auto|].
    intros He. destruct (IH _ He) as [Hacc|Hl]; [|auto].
    apply set_In in Hacc. destruct Hacc as [->|Hacc]; auto. }
  intros He. destruct (Hfold [] He) as [[]|Hl]. exact Hl.
Qed.

Lemma get_In_entry k v m : JsMap.get k m = Some v -> In (k, v) m.
Proof.
  induction m as [|[k' v'] m IH]; simpl; [discriminate|].
  destruct (decide (k = k')) as [->|]; [intros [= ->]; auto|auto].
Qed.

End SettingsOrder.

Section SettingsDevices.

Variable localeCompare : jsstring -> jsstring -> Z.

Lemma settingsWalk_customWalk (state : AppState) (customIds : list jsstring) :
  forall (byId : list (jsstring * DeviceEntry)) (ordered : list DeviceEntry),
    (forall e, In e byId -> fst e = deviceId (snd e)) ->
    settingsWalk state customIds byId (map (deviceRow state) ordered)
    = (map (deviceRow state) (fst (customWalk customIds byId ordered)),
       snd (customWalk customIds byId ordered)).
Proof.
  induction customIds as [|id ids IH]; intros byId ordered Hkeys; simpl;
    [reflexivity|].
  destruct (JsMap.get id byId) as [d|] eqn:Hget; [|apply IH; exact Hkeys].
  pose proof (Hkeys _ (get_In_entry _ _ _ Hget)) as Hid. simpl in Hid.
  rewrite <- IH.
  - rewrite map_app. simpl. unfold deviceRow at 3. rewrite <- Hid. reflexivity.
  - intros e He. apply Hkeys. eapply delete_In. exact He.
Qed.

(** X25. The device list of the settings page is the custom order of the
    selector, applied to all the devices of the location: the same
    devices in the same order, each with its identifier and the name the
    glasses display. *)
Theorem settings_device_list_is_the_custom_order (state : AppState) :
  getOrderedIdsForCustomDevices localeCompare state
  = map (deviceRow state)
      (applyOrder localeCompare (allDevices state) deviceId deviceName Custom
         (custom_devices (listOrderCustomIds (preferences state)))).
Proof.
  unfold getOrderedIdsForCustomDevices, applyOrder.
  set (byId := JsMap.of_entries _).
  pose proof (settingsWalk_customWalk state
                (custom_devices (listOrderCustomIds (preferences state)))
                byId []) as Hwalk.
  simpl in Hwalk. rewrite Hwalk.
  - destruct (customWalk _ byId []) as [ordered byId']. simpl.
    rewrite map_app. reflexivity.
  - intros e He. apply of_entries_In in He. apply in_map_iff in He.
    destruct He as (d & <- & _). reflexivity.
Qed.

End SettingsDevices.

(** ** Room statistics *)

Section RoomStatistics.

Variables ONLINE OFFLINE : jsstring.
Variable localeCompare : jsstring -> jsstring -> Z.

Lemma countHealth_from (health : DeviceEntry -> Outcome jsstring)
    (devices : list DeviceEntry) (online offline : Z) :
  fold_left
    (fun counts d =>
       let '(online, offline) := counts in
       match health d with
       | Returns state =>
           if bool_decide (state = ONLINE) then (online + 1, offline)
           else if bool_decide (state = OFFLINE) then (online, offline + 1)
           else (online, offline)
       | Throws => (online, offline + 1)
       end)
    devices (online, offline)
  = (online + Z.of_nat (length (List.filter (isOnline ONLINE health) devices)),
     offline
     + Z.of_nat (length (List.filter (isOffline ONLINE OFFLINE health) devices))).
Proof.
  revert online offline.
  induction devices as [|d devices IH]; intros online offline.
  - simpl. f_equal; lia.
  - cbn [fold_left List.filter].
    assert (Hon : isOnline ONLINE health d
                  = match health d with
                    | Returns state => bool_decide (state = ONLINE)
                    | Throws => false
                    end) by reflexivity.
    assert (Hoff : isOffline ONLINE OFFLINE health d
                   = match health d with
                     | Returns state =>
                         negb (bool_decide (state = ONLINE))
                         && bool_decide (state = OFFLINE)
                     | Throws => true
                     end) by reflexivity.
    rewrite Hon, Hoff. clear Hon Hoff.
    destruct (health d) as [state|].
    + destruct (bool_decide (state = ONLINE));
        [|destruct (bool_decide (state = OFFLINE))];
        rewrite IH; cbn [negb andb length]; f_equal; lia.
    + rewrite IH. cbn [length]. f_equal; lia.
Qed.

(** X26. In an empty room the loader clears the room statistics.  Otherwise it
    stores the number of devices of the room as the total, the number of
    those whose health is on line, and the number of those whose health is
    off line or could not be read; no device is counted twice, so the two
    counts never add up to more than the total.  What the list shows is
    not touched. *)
Theorem room_statistics_count_each_device_once (state : AppState)
    (health : DeviceEntry -> Outcome jsstring) :
  let state' :=
    reduceData localeCompare state (loadRoomStats ONLINE OFFLINE state health) in
  listItemNamesForState localeCompare state'
  = listItemNamesForState localeCompare state
  /\ match devices state with
     | [] => roomStats state' = None
     | _ =>
         exists stats,
           roomStats state' = Some stats
           /\ total stats = Z.of_nat (length (devices state))
           /\ online stats
              = Z.of_nat (length (List.filter (isOnline ONLINE health)
                                              (devices state)))
           /\ offline stats
              = Z.of_nat (length (List.filter (isOffline ONLINE OFFLINE health)
                                              (devices state)))
           /\ 0 <= online stats /\ 0 <= offline stats
           /\ online stats + offline stats <= total stats
     end.
Proof.
  intros state'. subst state'. unfold loadRoomStats, countHealth.
  rewrite countHealth_from.
  destruct (devices state) as [|d ds] eqn:Hdevices.
  - split; reflexivity.
  - replace (Z.of_nat (length (d :: ds)) =? 0) with false
      by (symmetry; apply Z.eqb_neq; simpl; lia).
    split; [reflexivity|].
    eexists. split; [reflexivity|]. cbn [total online offline].
    rewrite !Z.add_0_l. repeat split; try lia.
    assert (Hdisjoint : forall l,
               (length (List.filter (isOnline ONLINE health) l)
                + length (List.filter (isOffline ONLINE OFFLINE health) l)
                <= length l)%nat).
    { induction l as [|x l IH]; simpl; [lia|].
      unfold isOnline at 1, isOffline at 1.
      destruct (health x) as [s|]; [destruct (bool_decide (s = ONLINE));
        destruct (bool_decide (s = OFFLINE))|]; simpl; lia. }
    specialize (Hdisjoint (d :: ds)). lia.
Qed.

End RoomStatistics.

(** ** The list container *)

Lemma filter_length_Permutation {A} (p : A -> bool) (l l' : list A) :
  Permutation l l' ->
  length (List.filter p l) = length (List.filter p l').
Proof.
  induction 1 as [|x l l' _ IH|x y l|l l' l'' _ IH1 _ IH2]; simpl.
  - reflexivity.
  - destruct (p x); simpl; congruence.
  - destruct (p x); destruct (p y); reflexivity.
  - congruence.
Qed.

Section ListContainers.

Variable localeCompare : jsstring -> jsstring -> Z.

Lemma paged_names_nonempty {T} (items : list T) (label : T -> jsstring)
    (PER_PAGE page : Z) :
  pagedNamesForListView items label PER_PAGE page <> [].
Proof.
  unfold pagedNamesForListView. cbv zeta.
  destruct (_ && _); [discriminate|].
  destruct (_ =? 0); [discriminate|].
  destruct (_ =? _); discriminate.
Qed.

(** When the composed list has no item at all. *)
Lemma composed_list_empty (state : AppState) :
  listItemNamesForState localeCompare state = []
  <-> (listView state = ViewScenes
       /\ getOrderedScenes localeCompare state = []
       /\ status state = StatusLoading)
      \/ (listView state = ViewMain
          /\ getMainMenuOrderedItems localeCompare state = []).
Proof.
  unfold listItemNamesForState.
  destruct (listView state) eqn:Hview.
  - (* main *)
    split.
    + intros Hnil. right. split; [reflexivity|].
      destruct (getMainMenuOrderedItems localeCompare state); [reflexivity|discriminate].
    + intros [(Hother & _)|[_ ->]]; [discriminate|reflexivity].
  - (* scenes *)
    unfold sceneNamesForListView.
    destruct (getOrderedScenes localeCompare state) as [|s ss] eqn:Hscenes.
    + destruct (decide (status state = StatusLoading)) as [Hloading|Hloaded].
      * split; [intros _; left; tauto|reflexivity].
      * split; [discriminate|]. intros [(_ & _ & Hloading)|[Hother _]];
          [contradiction|discriminate].
    + split.
      * intros Hnil. exfalso. revert Hnil. apply paged_names_nonempty.
      * intros [(_ & Hnone & _)|[Hother _]]; discriminate.
  - (* rooms *)
    unfold roomNamesForListView.
    split; [|intros [(Hother & _)|[Hother _]]; discriminate].
    destruct (getOrderedRooms localeCompare state);
      [destruct (roomsStatus state); discriminate|].
    intros Hnil. exfalso. revert Hnil. apply paged_names_nonempty.
  - (* devices *)
    split; [|intros [(Hother & _)|[Hother _]]; discriminate].
    unfold deviceNamesForListView.
    destruct (getOrderedDevices localeCompare state);
      [destruct (devicesStatus state); discriminate|].
    cbv zeta. destruct (_ =? 0); [destruct (_ && _); discriminate|discriminate].
  - split; [|intros [(Hother & _)|[Hother _]]; discriminate].
    unfold deviceDetailItemNames.
    destruct (truthy _); destruct (truthy _); discriminate.
  - split; [|intros [(Hother & _)|[Hother _]]; discriminate].
    unfold dimLevelItemNames. cbv zeta.
    destruct (_ && _); [discriminate|].
    destruct (_ =? 0); [discriminate|]. destruct (_ =? _); discriminate.
  - split; [|intros [(Hother & _)|[Hother _]]; discriminate].
    unfold roomAllDetailItemNames.
    destruct (roomHasSwitchable _); destruct (roomHasDimmable _); discriminate.
  - split; [|intros [(Hother & _)|[Hother _]]; discriminate].
    unfold dimLevelItemNames. cbv zeta.
    destruct (_ && _); [discriminate|].
    destruct (_ =? 0); [discriminate|]. destruct (_ =? _); discriminate.
  - split; [|intros [(Hother & _)|[Hother _]]; discriminate].
    unfold favoriteNamesForListView.
    destruct (getOrderedFavorites localeCompare state); [discriminate|].
    intros Hnil. exfalso. revert Hnil. apply paged_names_nonempty.
Qed.

(** X27. The list container is between one item and the display high
    ([LIST_ITEM_HEIGHT] to [DISPLAY_HEIGHT]) and as high as its items while
    they fit.  Off the main menu it holds at most [LIST_MAX_ITEMS] items.
    It holds no item at all in exactly two cases: the scenes view while
    the scenes are loading, and a main menu whose custom order leaves no
    item; under the other orders the main menu is never empty. *)
Theorem list_container_geometry (state : AppState) :
  let list := buildListContainers localeCompare state in
  LIST_ITEM_HEIGHT <= container_height list <= DISPLAY_HEIGHT
  /\ (1 <= itemCount list <= 6 ->
      container_height list = itemCount list * LIST_ITEM_HEIGHT)
  /\ itemCount list = Z.of_nat (length (itemName list))
  /\ (listView state <> ViewMain -> itemCount list <= LIST_MAX_ITEMS)
  /\ (itemCount list = 0
      <-> (listView state = ViewScenes
           /\ getOrderedScenes localeCompare state = []
           /\ status state = StatusLoading)
          \/ (listView state = ViewMain
              /\ getMainMenuOrderedItems localeCompare state = []))
  /\ (listView state = ViewMain ->
      order_main (listOrder (preferences state)) <> Custom ->
      2 <= itemCount list <= 3).
Proof.
  intros list. subst list. unfold buildListContainers.
  cbn [container_height itemCount itemName].
  set (names := listItemNamesForState localeCompare state).
  unfold LIST_ITEM_HEIGHT, DISPLAY_HEIGHT.
  split; [lia|]. split; [lia|]. split; [reflexivity|]. split; [|split].
  - intros Hview. apply composed_list_length. exact Hview.
  - rewrite <- composed_list_empty. fold names.
    destruct names; simpl; split; try discriminate; try reflexivity; lia.
  - intros Hmain Horder. subst names. unfold listItemNamesForState.
    rewrite Hmain, length_map. unfold getMainMenuOrderedItems.
    assert (Hcount : forall cmp : MainMenuItem -> MainMenuItem -> Z,
               length (array_sort cmp MAIN_MENU_ITEMS) = 3%nat
               /\ length (List.filter
                            (fun x => negb (bool_decide (x = MenuFavorites)))
                            (array_sort cmp MAIN_MENU_ITEMS)) = 2%nat).
    { intros cmp. split; [apply array_sort_length|].
      rewrite (filter_length_Permutation _ _ _
                 (array_sort_Permutation cmp MAIN_MENU_ITEMS)).
      reflexivity. }
    destruct (order_main (listOrder (preferences state))); try congruence;
      destruct (0 <? _);
      match goal with
      | |- context [array_sort ?cmp MAIN_MENU_ITEMS] =>
          destruct (Hcount cmp) as [Hall Hfiltered]
      end; rewrite ?Hall, ?Hfiltered; lia.
Qed.

End ListContainers.

(** ** Other truncations *)

Lemma slice_prefix_length {A} (l : list A) (b : Z) :
  0 <= b <= Z.of_nat (length l) -> Z.of_nat (length (slice l 0 b)) = b.
Proof. intros Hb. rewrite slice_length_inside by lia. lia. Qed.

(** X28. [truncateStatsName] never returns more than [STATS_NAME_MAX_LEN] code
    units and returns a name that fits as it is.  [truncateSceneName]
    does the same for a limit of at least 1, a name that is too long
    being cut to exactly the limit, ellipsis included; for a limit of 0 or
    less the end of the cut is counted from the end of the name, and the
    result is longer than the limit. *)
Theorem other_truncations (name fallback : jsstring) (maxLen : Z) :
  (jslength (truncateStatsName name fallback) <= STATS_NAME_MAX_LEN
   /\ (jslength (or_else name fallback) <= STATS_NAME_MAX_LEN ->
       truncateStatsName name fallback = or_else name fallback))
  /\ (jslength name <= maxLen -> truncateSceneName name maxLen = name)
  /\ (1 <= maxLen -> maxLen < jslength name ->
      truncateSceneName name maxLen
      = firstn (Z.to_nat (maxLen - 1)) name ++ ELLIPSIS
      /\ jslength (truncateSceneName name maxLen) = maxLen)
  /\ (maxLen <= 0 -> maxLen < jslength name ->
      jslength (truncateSceneName name maxLen)
      = Z.max (jslength name + maxLen - 1) 0 + 1).
Proof.
  unfold truncateStatsName, truncateSceneName, STATS_NAME_MAX_LEN, jslength.
  cbv zeta. repeat split.
  - destruct (Z.leb_spec (Z.of_nat (length (or_else name fallback))) 28); [lia|].
    rewrite length_app, Nat2Z.inj_add, slice_prefix_length by lia.
    simpl. lia.
  - intros Hfits.
    destruct (Z.leb_spec (Z.of_nat (length (or_else name fallback))) 28);
      [reflexivity|lia].
  - intros Hfits.
    destruct (Z.leb_spec (Z.of_nat (length name)) maxLen); [reflexivity|lia].
  - destruct (Z.leb_spec (Z.of_nat (length name)) maxLen); [lia|].
    rewrite slice_from_start by lia. reflexivity.
  - destruct (Z.leb_spec (Z.of_nat (length name)) maxLen); [lia|].
    rewrite length_app, Nat2Z.inj_add, slice_prefix_length by lia.
    simpl. lia.
  - intros Hlimit Hlong.
    destruct (Z.leb_spec (Z.of_nat (length name)) maxLen); [lia|].
    rewrite length_app, Nat2Z.inj_add. unfold slice, rel_index.
    destruct (Z.ltb_spec 0 0); [lia|]. destruct (Z.ltb_spec (maxLen - 1) 0); [|lia].
    rewrite length_firstn, length_skipn. simpl. lia.
Qed.
